(** * Dextrends chat: session lifecycle, history reconstruction and the
      chat page's send protocol

    A shallow embedding of
    - [src/frontend/src/pages/ChatbotPage.tsx] (history reconstruction, title
      derivation, conversation ordering, the [sendMessage] protocol and the
      other request handlers of the page),
    - [src/frontend/src/contexts/AuthContext.tsx] (identity lookup, login,
      register, logout) and the routes of [App.tsx],
    - [src/init.sql] (the four tables, their foreign keys and
      [clean_expired_sessions]).

    JavaScript strings are embedded as [string]: one [ascii] stands for one
    code unit in the range 0..255.  Instants ([Date.now()], the value of
    [new Date(s).getTime()], SQL timestamps) are integers [Z]. *)

From Stdlib Require Import ZArith Lia Ascii String DecimalString Sorting.Sorted Permutation.
From stdpp Require Import base list numbers strings.

#[local] Open Scope Z_scope.

(** ** JavaScript values used by the page *)

Module Js.

(** [s.slice(b, e)] for [0 <= b <= e]: the code units from [b] up to
    (excluding) [e], cut at the end of [s]. *)
Definition slice (s : string) (b e : nat) : string := substring b (e - b) s.

(** Truthiness of a string: every string but the empty one. *)
Definition truthy (s : string) : bool :=
  match s with EmptyString => false | String _ _ => true end.

(** [a || b] on strings. *)
Definition or_else (a b : string) : string := if truthy a then a else b.

(** WhiteSpace and LineTerminator code units below 256: TAB, LF, VT, FF, CR,
    SPACE and NO-BREAK SPACE. *)
Definition isWhiteSpace (c : ascii) : bool :=
  let n := nat_of_ascii c in
  ((9 <=? n)%nat && (n <=? 13)%nat) || (n =? 32)%nat || (n =? 160)%nat.

Fixpoint trimStart (s : string) : string :=
  match s with
  | EmptyString => EmptyString
  | String c s' => if isWhiteSpace c then trimStart s' else s
  end.

(** [trimEnd] drops the trailing white space: a character is kept when it
    is not white space or when something is kept after it. *)
Fixpoint trimEnd (s : string) : string :=
  match s with
  | EmptyString => EmptyString
  | String c s' =>
      match trimEnd s' with
      | EmptyString => if isWhiteSpace c then EmptyString else String c EmptyString
      | r => String c r
      end
  end.

(** [s.trim()] *)
Definition trim (s : string) : string := trimEnd (trimStart s).

(** [n.toString()] for an integral number. *)
Definition toString (n : Z) : string := NilZero.string_of_int (Z.to_int n).

(** What the page reads from a thrown value [error]: [error.name],
    [error.status] (when it is a number) and [error.response.status]. *)
Record Error := {
  name : option string;
  status : option Z;
  response_status : option Z
}.

(** The [DOMException] a fetch rejects with once its signal is aborted. *)
Definition AbortError : Error :=
  {| name := Some "AbortError"%string; status := None; response_status := None |}.

(** [Response.ok]: the status is in the range 200..299. *)
Definition ok (status : Z) : bool := (200 <=? status) && (status <=? 299).

End Js.

(** ** Data of ChatbotPage.tsx *)

Inductive Role := user_role | assistant_role.

Module Message.
Record t := mk {
  id : string;
  role : Role;
  content : string;
  timestamp : string
}.
End Message.

Module Conversation.
(** [created_at] holds the instant [new Date(created_at).getTime()]. *)
Record t := mk {
  id : string;
  title : string;
  messages : list Message.t;
  created_at : Z;
  sessionId : string
}.
End Conversation.

(** An element of the [/api/chat/sessions] answer, as far as the page reads it. *)
Module Session.
Record t := mk {
  id : string;
  created_at : Z
}.
End Session.

(** An element of [history.conversations]: one persisted turn. *)
Module Turn.
Record t := mk {
  id : string;
  message : string;
  response : string;
  timestamp : string
}.
End Turn.

(** ** History reconstruction (loadSessionsAndConversations, lines 134-164) *)

(** The body of the [forEach]: two [push]es onto [messages]. *)
Definition pushTurn (messages : list Message.t) (conv : Turn.t) : list Message.t :=
  (messages
     ++ [ Message.mk (Turn.id conv +:+ "-user") user_role
            (Turn.message conv) (Turn.timestamp conv) ])
     ++ [ Message.mk (Turn.id conv +:+ "-assistant") assistant_role
            (Turn.response conv) (Turn.timestamp conv) ].

Definition reconstructMessages (conversations : list Turn.t) : list Message.t :=
  if (0 <? length conversations)%nat
  then foldl pushTurn [] conversations
  else [].

(** [history.conversations[0]?.message.slice(0, 50) + '...' || 'New Chat'],
    guarded by [history.conversations.length > 0]. *)
Definition deriveTitle (conversations : list Turn.t) : string :=
  match conversations with
  | [] => "New Chat"
  | conv :: _ => Js.or_else (Js.slice (Turn.message conv) 0 50 +:+ "...") "New Chat"
  end.

(** The conversation entry pushed for one session.  [history] is [None] when
    anything inside the [try] throws (the fetch rejects, the body is not
    JSON, [history.conversations] is missing): the [catch] pushes an empty
    conversation. *)
Definition conversationOf (session : Session.t) (history : option (list Turn.t))
  : Conversation.t :=
  match history with
  | Some conversations =>
      Conversation.mk (Session.id session) (deriveTitle conversations)
        (reconstructMessages conversations)
        (Session.created_at session) (Session.id session)
  | None =>
      Conversation.mk (Session.id session) "New Chat" []
        (Session.created_at session) (Session.id session)
  end.

(** ** Conversation ordering (lines 178-186) *)

(** The comparator handed to [conversationsData.sort]. *)
Definition compareConversations (a b : Conversation.t) : Z :=
  if (0 <? length (Conversation.messages a))%nat
     && (length (Conversation.messages b) =? 0)%nat then -1
  else if (length (Conversation.messages a) =? 0)%nat
          && (0 <? length (Conversation.messages b))%nat then 1
  else Conversation.created_at b - Conversation.created_at a.

(** [Array.prototype.sort(cmp)]: a stable sort; [x] goes before the first
    element it does not compare greater than. *)
Section ArraySort.
Context {A : Type} (cmp : A → A → Z).

Fixpoint sort_insert (x : A) (l : list A) : list A :=
  match l with
  | [] => [x]
  | y :: l' => if cmp x y <=? 0 then x :: y :: l' else y :: sort_insert x l'
  end.

Definition array_sort (l : list A) : list A := foldr sort_insert [] l.
End ArraySort.

(** The pure part of loadSessionsAndConversations: [loaded] pairs each
    element of [sessionsData] with the outcome of its history request; one
    conversation is pushed per session, in that order, then the array is
    sorted. *)
Definition buildConversations (loaded : list (Session.t * option (list Turn.t)))
  : list Conversation.t :=
  array_sort compareConversations
    (map (λ sh, conversationOf (fst sh) (snd sh)) loaded).

(** ** The database of init.sql *)

Module Db.

(** A row of [sessions].  Nullable columns are options; [expires_at] is
    [NOT NULL]. *)
Record SessionRow := {
  s_id : string;
  s_user_id : option string;
  s_user_agent : option string;
  s_ip_address : option string;
  s_context : option string;
  s_state : option string;
  s_created_at : option Z;
  s_last_activity : option Z;
  s_expires_at : Z
}.

(** A row of [conversations]. *)
Record ConversationRow := {
  c_id : string;
  c_user_id : option string;
  c_session_id : option string;
  c_message : string;
  c_response : string;
  c_message_type : string;
  c_response_type : string;
  c_tokens_used : option Z;
  c_response_time_ms : option Z;
  c_model_used : option string;
  c_context : option string;
  c_conversation_metadata : option string;
  c_is_error : option bool;
  c_error_code : option string;
  c_error_message : option string;
  c_timestamp : option Z
}.

Record t := {
  sessions : list SessionRow;
  conversations : list ConversationRow
}.

(** The state right after init.sql ran: no session, no turn. *)
Definition empty : t := {| sessions := []; conversations := [] |}.

(** [session_id VARCHAR(255) REFERENCES sessions(id) ON DELETE CASCADE]:
    the turn [c] references one of the rows [deleted]. *)
Definition references (deleted : list SessionRow) (c : ConversationRow) : Prop :=
  ∃ s, s ∈ deleted ∧ c_session_id c = Some (s_id s).

#[global] Instance references_dec deleted c : Decision (references deleted c).
Proof.
  unfold references.
  destruct (c_session_id c) as [sid|].
  - destruct (decide (sid ∈ map s_id deleted)) as [Hin|Hnin].
    + left. apply list_elem_of_fmap in Hin as (s & -> & Hs). eauto.
    + right. intros (s & Hs & [= ->]). apply Hnin.
      apply list_elem_of_fmap. eauto.
  - right. intros (s & _ & [=]).
Defined.

(** [DELETE FROM sessions WHERE P]: the matching rows go, the turns that
    reference them go with them, and ROW_COUNT is the number of [sessions]
    rows deleted. *)
Definition delete_sessions_where (P : SessionRow → Prop) `{∀ s, Decision (P s)}
    (db : t) : t * Z :=
  let deleted := filter P (sessions db) in
  ({| sessions := filter (λ s, ¬ P s) (sessions db);
      conversations := filter (λ c, ¬ references deleted c) (conversations db) |},
   Z.of_nat (length deleted)).

(** [clean_expired_sessions()], with [now] the value of CURRENT_TIMESTAMP. *)
Definition clean_expired_sessions (now : Z) (db : t) : t * Z :=
  delete_sessions_where (λ s, s_expires_at s < now) db.

(** Modelled from the spec: the liveness test of the session store, whose
    code is not part of the sources: a session is live while the current
    time is before [expires_at]. *)
Definition live (now : Z) (s : SessionRow) : bool := now <? s_expires_at s.

(** The row invariant of the data model: [expires_at > created_at]. *)
Definition row_ok (s : SessionRow) : Prop :=
  match s_created_at s with
  | Some created => created < s_expires_at s
  | None => False
  end.

Section SessionStore.
(** The fixed time to live of a session. *)
Variable TTL : Z.

(** Modelled from the spec: the session store's [createSession], whose
    code (the backend service) is not part of the sources.  Allocates the
    row with [created_at = now], [expires_at = now + TTL] and empty
    context and state; the primary key rejects an id already present. *)
Definition createSession (id owner : string) (now : Z) (db : t) : t :=
  if decide (id ∈ map s_id (sessions db)) then db
  else
    {| sessions :=
         sessions db ++
           [ {| s_id := id; s_user_id := Some owner;
                s_user_agent := None; s_ip_address := None;
                s_context := Some "{}"%string; s_state := Some "{}"%string;
                s_created_at := Some now; s_last_activity := Some now;
                s_expires_at := now + TTL |} ];
       conversations := conversations db |}.
End SessionStore.

(** Modelled from the spec: the session store's [listSessions], whose code
    is not part of the sources: all sessions of the owner, live or expired. *)
Definition listSessions (owner : string) (db : t) : list SessionRow :=
  filter (λ s, s_user_id s = Some owner) (sessions db).

(** Modelled from the spec: the session store's [deleteSession], whose code
    is not part of the sources: removes the owner's session with this id
    (the schema cascades to its turns); nothing happens when it is absent. *)
Definition deleteSession (id owner : string) (db : t) : t :=
  fst (delete_sessions_where (λ s, s_id s = id ∧ s_user_id s = Some owner) db).

(** Modelled from the spec: the refresh of [last_activity] on each turn,
    whose code is not part of the sources. *)
Definition touchSession (id : string) (now : Z) (db : t) : t :=
  {| sessions :=
       map (λ s, if decide (s_id s = id)
                 then {| s_id := s_id s; s_user_id := s_user_id s;
                         s_user_agent := s_user_agent s;
                         s_ip_address := s_ip_address s;
                         s_context := s_context s; s_state := s_state s;
                         s_created_at := s_created_at s;
                         s_last_activity := Some now;
                         s_expires_at := s_expires_at s |}
                 else s) (sessions db);
     conversations := conversations db |}.

(** The operations of the session store. *)
Inductive Op :=
| OpCreate (id owner : string) (now : Z)
| OpList (owner : string)
| OpDelete (id owner : string)
| OpTouch (id : string) (now : Z)
| OpExpire (now : Z).

Definition apply (TTL : Z) (db : t) (op : Op) : t :=
  match op with
  | OpCreate id owner now => createSession TTL id owner now db
  | OpList _ => db
  | OpDelete id owner => deleteSession id owner db
  | OpTouch id now => touchSession id now db
  | OpExpire now => fst (clean_expired_sessions now db)
  end.

Definition run (TTL : Z) (ops : list Op) : t := foldl (apply TTL) empty ops.

End Db.

(** ** The chat page and its environment *)

(** The [user] of the auth context: the page reads [user.id] and
    [user.username]. *)
Record User := { user_id : string; username : string }.

(** The [/api/user/stats] answer; a field the body lacks is [None]. *)
Record Stats := { total_conversations : option Z; total_tokens : option Z }.

(** The React state of [ChatbotPage]. *)
Module Page.
Record t := mk {
  conversations : list Conversation.t;
  sessions : list Session.t;
  currentConversation : option Conversation.t;
  currentSession : option Session.t;
  messages : list Message.t;
  inputMessage : string;
  loading : bool;
  sidebarOpen : bool;
  userStats : option Stats;
  showProfile : bool
}.

(** The [useState] initial values. *)
Definition initial : t := mk [] [] None None [] "" false true None false.

Definition setConversations v (p : t) : t :=
  mk v (sessions p) (currentConversation p) (currentSession p) (messages p)
     (inputMessage p) (loading p) (sidebarOpen p) (userStats p) (showProfile p).
Definition setSessions v (p : t) : t :=
  mk (conversations p) v (currentConversation p) (currentSession p) (messages p)
     (inputMessage p) (loading p) (sidebarOpen p) (userStats p) (showProfile p).
Definition setCurrentConversation v (p : t) : t :=
  mk (conversations p) (sessions p) v (currentSession p) (messages p)
     (inputMessage p) (loading p) (sidebarOpen p) (userStats p) (showProfile p).
Definition setCurrentSession v (p : t) : t :=
  mk (conversations p) (sessions p) (currentConversation p) v (messages p)
     (inputMessage p) (loading p) (sidebarOpen p) (userStats p) (showProfile p).
Definition setMessages v (p : t) : t :=
  mk (conversations p) (sessions p) (currentConversation p) (currentSession p) v
     (inputMessage p) (loading p) (sidebarOpen p) (userStats p) (showProfile p).
Definition setInputMessage v (p : t) : t :=
  mk (conversations p) (sessions p) (currentConversation p) (currentSession p)
     (messages p) v (loading p) (sidebarOpen p) (userStats p) (showProfile p).
Definition setLoading v (p : t) : t :=
  mk (conversations p) (sessions p) (currentConversation p) (currentSession p)
     (messages p) (inputMessage p) v (sidebarOpen p) (userStats p) (showProfile p).
Definition setSidebarOpen v (p : t) : t :=
  mk (conversations p) (sessions p) (currentConversation p) (currentSession p)
     (messages p) (inputMessage p) (loading p) v (userStats p) (showProfile p).
Definition setUserStats v (p : t) : t :=
  mk (conversations p) (sessions p) (currentConversation p) (currentSession p)
     (messages p) (inputMessage p) (loading p) (sidebarOpen p) v (showProfile p).
Definition setShowProfile v (p : t) : t :=
  mk (conversations p) (sessions p) (currentConversation p) (currentSession p)
     (messages p) (inputMessage p) (loading p) (sidebarOpen p) (userStats p) v.
End Page.

(** The body of the POST to [/api/chat/message]. *)
Record ChatData := { cd_user_id : string; cd_session_id : string; cd_query : string }.

(** An HTTP request as the page issues it. *)
Record Request := {
  method : string;
  url : string;
  authorization : option string;
  body : option ChatData
}.

(** The callbacks the page hands to [setTimeout]. *)
Inductive TimerAction :=
| FocusInput                  (* focusInput *)
| Abort (controller : nat)    (* () => controller.abort() *)
| PurgeAndReload.             (* localStorage.removeItem('token'); window.location.reload() *)

Record Timer := { tid : nat; delay : Z; action : TimerAction }.

(** A [sendMessage] call suspended at an [await], with the variables its
    continuation closes over.  [pid] names its AbortController and is the id
    of its timeout. *)
Inductive Phase := AwaitFetch | AwaitJson.

Record PendingSend := {
  pid : nat;
  phase : Phase;
  updatedMessages : list Message.t;
  sentInput : string;
  sentConversation : option Conversation.t;
  sentConversations : list Conversation.t
}.

(** The page together with what it acts on: the auth context's [user]
    ([None] when [!user] holds), [localStorage]'s token, the pending timers, the requests issued so far,
    the number of page reloads and the suspended sends. *)
Record World := {
  page : Page.t;
  user : option User;
  token : option string;
  timers : list Timer;
  next_timer : nat;
  requests : list Request;
  reloads : nat;
  inflight : list PendingSend
}.

Definition initial_world (u : option User) (tok : option string) : World :=
  {| page := Page.initial; user := u; token := tok; timers := []; next_timer := 0%nat;
     requests := []; reloads := 0%nat; inflight := [] |}.

Definition with_page (f : Page.t → Page.t) (w : World) : World :=
  {| page := f (page w); user := user w; token := token w; timers := timers w;
     next_timer := next_timer w; requests := requests w; reloads := reloads w;
     inflight := inflight w |}.

Definition setUser (u : option User) (w : World) : World :=
  {| page := page w; user := u; token := token w; timers := timers w;
     next_timer := next_timer w; requests := requests w; reloads := reloads w;
     inflight := inflight w |}.

(** [localStorage.removeItem('token')] *)
Definition removeToken (w : World) : World :=
  {| page := page w; user := user w; token := None; timers := timers w;
     next_timer := next_timer w; requests := requests w; reloads := reloads w;
     inflight := inflight w |}.

(** [window.location.reload()]: the document is torn down and loaded anew,
    at once.  The React state of the page and of the auth provider starts
    again from its [useState] values, the pending timers of the old document
    never fire, and its suspended calls never resume.  [localStorage]
    outlives the reload; so do the two records this model keeps of the past
    (the requests that left, the number of reloads) and the counter that
    names timers and controllers, so that a name stands for one call only. *)
Definition reload (w : World) : World :=
  {| page := Page.initial; user := None; token := token w; timers := [];
     next_timer := next_timer w; requests := requests w; reloads := S (reloads w);
     inflight := [] |}.

(** [setTimeout(action, delay)]; the id it returns is [next_timer w]. *)
Definition setTimeout (a : TimerAction) (d : Z) (w : World) : World :=
  {| page := page w; user := user w; token := token w;
     timers := timers w ++ [ {| tid := next_timer w; delay := d; action := a |} ];
     next_timer := S (next_timer w); requests := requests w; reloads := reloads w;
     inflight := inflight w |}.

Definition clearTimeout (id : nat) (w : World) : World :=
  {| page := page w; user := user w; token := token w;
     timers := filter (λ tm, tid tm ≠ id) (timers w);
     next_timer := next_timer w; requests := requests w; reloads := reloads w;
     inflight := inflight w |}.

(** [fetch(url, ...)]: the request leaves. *)
Definition issue (r : Request) (w : World) : World :=
  {| page := page w; user := user w; token := token w; timers := timers w;
     next_timer := next_timer w; requests := requests w ++ [r]; reloads := reloads w;
     inflight := inflight w |}.

Definition set_inflight (l : list PendingSend) (w : World) : World :=
  {| page := page w; user := user w; token := token w; timers := timers w;
     next_timer := next_timer w; requests := requests w; reloads := reloads w;
     inflight := l |}.

(** [...(token && { 'Authorization': `Bearer ${token}` })] *)
Definition authHeader (tok : option string) : option string :=
  match tok with
  | Some t => if Js.truthy t then Some ("Bearer " +:+ t) else None
  | None => None
  end.

Definition get (u : string) (w : World) : Request :=
  {| method := "GET"; url := u; authorization := authHeader (token w); body := None |}.

(** How a [fetch] whose body is then read with [json()] ends: the fetch
    rejects, or it resolves with a status and the body parses ([Some]) or
    does not ([None]). *)
Inductive Http (A : Type) :=
| Rejected (e : Js.Error)
| Responded (status : Z) (body : option A).
Arguments Rejected {A} e.
Arguments Responded {A} status body.

(** One reading of the clock: [Date.now()] and [new Date().toISOString()]. *)
Record Tick := { date_now : Z; iso_now : string }.

(** ** Handlers of ChatbotPage.tsx

    A handler that awaits a response takes the response as an argument.  The
    variables a handler reads from its render closure after an [await] come
    from [captured], the page state of the render that created the handler. *)

(** [selectConversation(conversation)] *)
Definition selectConversation (captured : Page.t) (conversation : Conversation.t)
    (w : World) : World :=
  setTimeout FocusInput 100
    (with_page
       (Page.setMessages (Conversation.messages conversation)
        ∘ Page.setCurrentSession
            (List.find (λ s, String.eqb (Session.id s) (Conversation.sessionId conversation))
               (Page.sessions captured))
        ∘ Page.setCurrentConversation (Some conversation)) w).

(** [loadSessionsAndConversations()]; the body of the sessions answer comes
    with the outcome of the history request of each of its elements. *)
Definition loadSessionsAndConversations (captured : Page.t)
    (r : Http (list (Session.t * option (list Turn.t)))) (w : World) : World :=
  let w0 := issue (get "/api/chat/sessions" w) w in
  match r with
  | Rejected _ => w0
  | Responded status body =>
      if negb (Js.ok status) then
        if status =? 401 then reload (removeToken w0) else w0
      else
        match body with
        | None => w0
        | Some loaded =>
            let w1 := with_page (Page.setSessions (map fst loaded)) w0 in
            let w2 :=
              foldl (λ acc sh, issue (get ("/api/chat/history/" +:+ Session.id (fst sh)) w) acc)
                w1 loaded in
            let conversationsData := buildConversations loaded in
            let w3 := with_page (Page.setConversations conversationsData) w2 in
            if negb (bool_decide (is_Some (Page.currentSession captured)))
               && (0 <? length conversationsData)%nat
            then
              match List.find (λ conv, (0 <? length (Conversation.messages conv))%nat)
                      conversationsData with
              | Some conv => selectConversation captured conv w3
              | None =>
                  match conversationsData with
                  | conv :: _ => selectConversation captured conv w3
                  | [] => w3
                  end
              end
            else w3
        end
  end.

(** [loadUserStats()]: the request, and what happens when it settles. *)
Definition requestUserStats (w : World) : World := issue (get "/api/user/stats" w) w.

Definition userStatsSettled (r : Http Stats) (w : World) : World :=
  match r with
  | Responded _ (Some stats) => with_page (Page.setUserStats (Some stats)) w
  | _ => w
  end.

Definition loadUserStats (r : Http Stats) (w : World) : World :=
  userStatsSettled r (requestUserStats w).

(** [createNewConversation()] *)
Definition createNewConversation (captured : Page.t) (r : Http Session.t) (w : World)
  : World :=
  let w0 :=
    issue {| method := "POST"; url := "/api/chat/session";
             authorization := authHeader (token w); body := None |} w in
  match r with
  | Responded _ (Some newSession) =>
      let newConversation :=
        Conversation.mk (Session.id newSession) "New Chat" []
          (Session.created_at newSession) (Session.id newSession) in
      setTimeout FocusInput 100
        (with_page
           (Page.setMessages []
            ∘ Page.setCurrentConversation (Some newConversation)
            ∘ Page.setConversations (newConversation :: Page.conversations captured)
            ∘ Page.setCurrentSession (Some newSession)) w0)
  | _ => w0
  end.

(** [deleteConversation(conversationId)]; the response is awaited, neither
    its status nor its body is read. *)
Definition deleteConversation (captured : Page.t) (conversationId : string)
    (r : Http unit) (w : World) : World :=
  let w0 :=
    issue {| method := "DELETE"; url := "/api/chat/session/" +:+ conversationId;
             authorization := authHeader (token w); body := None |} w in
  match r with
  | Rejected _ => w0
  | Responded _ _ =>
      let w1 :=
        with_page
          (Page.setConversations
             (filter (λ c, Conversation.id c ≠ conversationId) (Page.conversations captured)))
          w0 in
      match Page.currentConversation captured with
      | Some cur =>
          if String.eqb (Conversation.id cur) conversationId
          then with_page
                 (Page.setMessages [] ∘ Page.setCurrentSession None
                  ∘ Page.setCurrentConversation None) w1
          else w1
      | None => w1
      end
  end.

(** *** sendMessage *)

(** The guard [!inputMessage.trim() || loading || !currentSession || !user]. *)
Definition send_blocked (w : World) : bool :=
  negb (Js.truthy (Js.trim (Page.inputMessage (page w))))
  || Page.loading (page w)
  || negb (bool_decide (is_Some (Page.currentSession (page w))))
  || negb (bool_decide (is_Some (user w))).

(** The [disabled] attribute of the send button (line 585). *)
Definition sendDisabled (w : World) : bool :=
  negb (Js.truthy (Js.trim (Page.inputMessage (page w))))
  || Page.loading (page w)
  || negb (bool_decide (is_Some (Page.currentSession (page w))))
  || negb (bool_decide (is_Some (user w))).

Definition userMessage (t : Tick) (input : string) : Message.t :=
  Message.mk (Js.toString (date_now t)) user_role input (iso_now t).

(** [sendMessage()] up to its first [await]: the optimistic append, the
    timeout and the request. *)
Definition sendMessage (t : Tick) (w : World) : World :=
  if send_blocked w then w
  else
    match Page.currentSession (page w), user w with
    | Some session, Some u =>
        let input := Page.inputMessage (page w) in
        let updated := Page.messages (page w) ++ [userMessage t input] in
        let w1 :=
          with_page (Page.setLoading true ∘ Page.setInputMessage ""
                     ∘ Page.setMessages updated) w in
        let w2 := setTimeout FocusInput 0 w1 in
        let chatData :=
          {| cd_user_id := user_id u; cd_session_id := Session.id session;
             cd_query := input |} in
        let timeoutId := next_timer w2 in
        let w3 := setTimeout (Abort timeoutId) 60000 w2 in
        let w4 :=
          issue {| method := "POST"; url := "/api/chat/message";
                   authorization := authHeader (token w); body := Some chatData |} w3 in
        set_inflight
          (inflight w4 ++
             [ {| pid := timeoutId; phase := AwaitFetch; updatedMessages := updated;
                  sentInput := input;
                  sentConversation := Page.currentConversation (page w);
                  sentConversations := Page.conversations (page w) |} ]) w4
    | _, _ => w
    end.

Definition findPending (id : nat) (w : World) : option PendingSend :=
  List.find (λ p, (pid p =? id)%nat) (inflight w).

Definition dropPending (id : nat) (w : World) : World :=
  set_inflight (filter (λ p, pid p ≠ id) (inflight w)) w.

Definition errorMessage (t : Tick) (content : string) : Message.t :=
  Message.mk (Js.toString (date_now t + 1)) assistant_role content (iso_now t).

(** The text of the synthetic message for a thrown [error]. *)
Definition errorContent (error : Js.Error) : string :=
  if bool_decide (Js.name error = Some "AbortError"%string) then
    "Request timed out. Please try again."
  else if bool_decide (Js.status error = Some 401)
          || bool_decide (Js.response_status error = Some 401) then
    "Your session has expired. Please refresh the page and log in again."
  else "Sorry, I encountered an error. Please try again.".

(** The [catch (error)] block. *)
Definition catchSend (p : PendingSend) (error : Js.Error) (t : Tick) (w : World) : World :=
  let w1 :=
    with_page
      (Page.setMessages (updatedMessages p ++ [errorMessage t (errorContent error)])) w in
  if bool_decide (Js.name error = Some "AbortError"%string) then w1
  else if bool_decide (Js.status error = Some 401)
          || bool_decide (Js.response_status error = Some 401)
  then setTimeout PurgeAndReload 3000 w1
  else w1.

(** The [finally] block; the call has returned, its continuation is gone. *)
Definition finallySend (p : PendingSend) (w : World) : World :=
  setTimeout FocusInput 150 (with_page (Page.setLoading false) (dropPending (pid p) w)).

(** The rest of the [try] block once the body of the response is parsed. *)
Definition completeSend (p : PendingSend) (response : string) (t : Tick) (w : World)
  : World :=
  let assistantMessage :=
    Message.mk (Js.toString (date_now t + 1)) assistant_role response (iso_now t) in
  let finalMessages := updatedMessages p ++ [assistantMessage] in
  let w1 := with_page (Page.setMessages finalMessages) w in
  let w2 :=
    match sentConversation p with
    | Some cur =>
        let updatedConversation :=
          Conversation.mk (Conversation.id cur)
            (if (length finalMessages =? 2)%nat
             then Js.slice (sentInput p) 0 50 +:+ "..."
             else Conversation.title cur)
            finalMessages (Conversation.created_at cur) (Conversation.sessionId cur) in
        with_page
          (Page.setConversations
             (map (λ c, if String.eqb (Conversation.id c) (Conversation.id cur)
                        then updatedConversation else c) (sentConversations p))
           ∘ Page.setCurrentConversation (Some updatedConversation)) w1
    | None => w1
    end in
  setTimeout FocusInput 100 (requestUserStats w2).

(** How [await fetch(...)] and [await fetchResponse.json()] end. *)
Inductive FetchResult := FetchRejected (e : Js.Error) | FetchResolved (status : Z).
Inductive JsonResult := JsonRejected (e : Js.Error) | JsonValue (response : string).

(** The thrown [{ status, message }] of a response that is not OK. *)
Definition httpError (status : Z) : Js.Error :=
  {| Js.name := None; Js.status := Some status; Js.response_status := None |}.

Definition set_phase (ph : Phase) (p : PendingSend) : PendingSend :=
  {| pid := pid p; phase := ph; updatedMessages := updatedMessages p;
     sentInput := sentInput p; sentConversation := sentConversation p;
     sentConversations := sentConversations p |}.

(** The continuation after [await fetch(...)] of the send [id]. *)
Definition fetchSettled (id : nat) (r : FetchResult) (t : Tick) (w : World) : World :=
  match findPending id w with
  | Some p =>
      match phase p, r with
      | AwaitFetch, FetchRejected e => finallySend p (catchSend p e t w)
      | AwaitFetch, FetchResolved status =>
          let w1 := clearTimeout (pid p) w in
          if negb (Js.ok status)
          then finallySend p (catchSend p (httpError status) t w1)
          else set_inflight
                 (map (λ q, if (pid q =? id)%nat then set_phase AwaitJson q else q)
                    (inflight w1)) w1
      | AwaitJson, _ => w
      end
  | None => w
  end.

(** The continuation after [await fetchResponse.json()] of the send [id]. *)
Definition jsonSettled (id : nat) (r : JsonResult) (t : Tick) (w : World) : World :=
  match findPending id w with
  | Some p =>
      match phase p, r with
      | AwaitJson, JsonRejected e => finallySend p (catchSend p e t w)
      | AwaitJson, JsonValue response => finallySend p (completeSend p response t w)
      | AwaitFetch, _ => w
      end
  | None => w
  end.

(** [controller.abort()]: what the send is waiting for rejects with an
    AbortError; a send that has returned is not affected. *)
Definition abort (controller : nat) (t : Tick) (w : World) : World :=
  match findPending controller w with
  | Some p =>
      match phase p with
      | AwaitFetch => fetchSettled controller (FetchRejected Js.AbortError) t w
      | AwaitJson => jsonSettled controller (JsonRejected Js.AbortError) t w
      end
  | None => w
  end.

(** A pending timer fires: it leaves the timer list and its callback runs. *)
Definition fireTimer (id : nat) (t : Tick) (w : World) : World :=
  match List.find (λ tm, (tid tm =? id)%nat) (timers w) with
  | Some tm =>
      let w1 := clearTimeout id w in
      match action tm with
      | FocusInput => w1
      | Abort controller => abort controller t w1
      | PurgeAndReload => reload (removeToken w1)
      end
  | None => w
  end.

(** ** AuthContext.tsx *)

(** [fetchUserInfo()].  The body of the answer, when it parses, is handed to
    [setUser] as it is: [Some userData] is a body that parses to a user,
    [None] one that parses to a value the page takes for no user ([null],
    [false], [0], the empty string: [!user] holds of each). *)
Definition fetchUserInfo (r : Http (option User)) (w : World) : World :=
  let w0 :=
    issue {| method := "GET"; url := "/api/v1/auth/me";
             authorization :=
               Some ("Bearer " +:+ match token w with Some t => t | None => "null" end);
             body := None |} w in
  match r with
  | Responded status (Some userData) =>
      if Js.ok status then setUser userData w0
      else setUser None (removeToken w0)
  | _ => setUser None (removeToken w0)
  end.

(** [logout()] *)
Definition logout (w : World) : World := setUser None (removeToken w).

(** [isAuthenticated: !!user]; a protected route shows the login page
    without it. *)
Definition isAuthenticated (w : World) : bool := bool_decide (is_Some (user w)).

(** ** The page as a transition system *)

Inductive Event :=
| EvInput (value : string)                      (* onChange of the textarea *)
| EvToggleSidebar
| EvShowProfile (b : bool)
| EvSelect (captured : Page.t) (c : Conversation.t)
| EvLoad (captured : Page.t) (r : Http (list (Session.t * option (list Turn.t))))
| EvStats (r : Http Stats)
| EvStatsSettled (r : Http Stats)
| EvCreate (captured : Page.t) (r : Http Session.t)
| EvDelete (captured : Page.t) (conversationId : string) (r : Http unit)
| EvSend (t : Tick)                             (* click on send, or Enter *)
| EvFetchSettled (id : nat) (r : FetchResult) (t : Tick)
| EvJsonSettled (id : nat) (r : JsonResult) (t : Tick)
| EvTimer (id : nat) (t : Tick)
| EvUserInfo (r : Http (option User))
| EvLogout.

Definition step (w : World) (e : Event) : World :=
  match e with
  | EvInput value => with_page (Page.setInputMessage value) w
  | EvToggleSidebar =>
      with_page (λ p, Page.setSidebarOpen (negb (Page.sidebarOpen p)) p) w
  | EvShowProfile b => with_page (Page.setShowProfile b) w
  | EvSelect captured c => selectConversation captured c w
  | EvLoad captured r => loadSessionsAndConversations captured r w
  | EvStats r => loadUserStats r w
  | EvStatsSettled r => userStatsSettled r w
  | EvCreate captured r => createNewConversation captured r w
  | EvDelete captured conversationId r => deleteConversation captured conversationId r w
  | EvSend t => sendMessage t w
  | EvFetchSettled id r t => fetchSettled id r t w
  | EvJsonSettled id r t => jsonSettled id r t w
  | EvTimer id t => fireTimer id t w
  | EvUserInfo r => fetchUserInfo r w
  | EvLogout => logout w
  end.

Definition run (w : World) (events : list Event) : World := foldl step w events.

(** ** Vocabulary of the statements *)

(** A string of white space only (the empty string is one). *)
Fixpoint whitespace_only (s : string) : Prop :=
  match s with
  | EmptyString => True
  | String c s' => Js.isWhiteSpace c = true ∧ whitespace_only s'
  end.

(** The two messages one turn stands for. *)
Definition turnMessages (conv : Turn.t) : list Message.t :=
  [ Message.mk (Turn.id conv +:+ "-user") user_role (Turn.message conv) (Turn.timestamp conv);
    Message.mk (Turn.id conv +:+ "-assistant") assistant_role (Turn.response conv)
      (Turn.timestamp conv) ].

(** The value the [catch] block of [sendMessage] receives when the fetch
    ends with [r] and the [try] block does not go on. *)
Definition thrown (r : FetchResult) : Js.Error :=
  match r with
  | FetchRejected e => e
  | FetchResolved status => httpError status
  end.

(** The send request fails: the fetch rejects (network failure, abort) or
    its response is not OK. *)
Definition fetch_failed (r : FetchResult) : Prop :=
  match r with
  | FetchRejected _ => True
  | FetchResolved status => Js.ok status = false
  end.

(** The worlds the page reaches from its first render. *)
Definition reachable (u : option User) (tok : option string) (events : list Event) : World :=
  run (initial_world u tok) events.

(** What every reachable world satisfies: at most one send is suspended, the
    loading flag is up while one is, and timer ids are below the next id. *)
Definition well_formed (w : World) : Prop :=
  (length (inflight w) ≤ 1)%nat
  ∧ (inflight w ≠ [] → Page.loading (page w) = true)
  ∧ Forall (λ tm, (tid tm < next_timer w)%nat) (timers w).

(** The POST requests to [/api/chat/message] among the requests issued. *)
Definition chat_posts (w : World) : list Request :=
  filter (λ r, method r = "POST"%string ∧ url r = "/api/chat/message"%string) (requests w).

(** The id of the timeout a [sendMessage] call sets in world [w]; it comes
    after the id of the [setTimeout(focusInput, 0)] before it. *)
Definition timeoutId_of (w : World) : nat := S (next_timer w).

(** The suspended send [id] keeps the messages [U] it closed over, and [id]
    is an id already handed out. *)
Definition keeps_closure (id : nat) (U : list Message.t) (w : World) : Prop :=
  (id < next_timer w)%nat
  ∧ Forall (λ q, pid q = id → updatedMessages q = U) (inflight w).

(** What the specification asks of an authenticated call answered with 401,
    from the world [w] before the answer to the world [w'] after it: the
    token is gone and the page reloaded, at once or by a timer now pending. *)
Definition purges_credential (w w' : World) : Prop :=
  (token w' = None ∧ reloads w' = S (reloads w))
  ∨ (∃ tm, tm ∈ timers w' ∧ action tm = PurgeAndReload).

(** ** Sample data *)

Definition hello_turn : Turn.t :=
  Turn.mk "7f3c" "Hello" "Hi, how can I help?" "2024-05-01T10:00:00Z".

Definition long_turn : Turn.t :=
  Turn.mk "9a1e"
    "Please explain how the payment gateway settles cross-border transfers"
    "It settles them in batches." "2024-05-01T10:05:00Z".

(** Session A: no turn, created later.  Session B: one turn, created earlier. *)
Definition session_A : Session.t := Session.mk "A" 2000.
Definition session_B : Session.t := Session.mk "B" 1000.
Definition sessions_AB : list (Session.t * option (list Turn.t)) :=
  [ (session_A, Some []); (session_B, Some [hello_turn]) ].

Definition session_row (id owner : string) (created expires : Z) : Db.SessionRow :=
  {| Db.s_id := id; Db.s_user_id := Some owner; Db.s_user_agent := None;
     Db.s_ip_address := None; Db.s_context := Some "{}"%string;
     Db.s_state := Some "{}"%string; Db.s_created_at := Some created;
     Db.s_last_activity := Some created; Db.s_expires_at := expires |}.

Definition turn_row (id owner session : string) (at_ : Z) : Db.ConversationRow :=
  {| Db.c_id := id; Db.c_user_id := Some owner; Db.c_session_id := Some session;
     Db.c_message := "Hello"; Db.c_response := "Hi"; Db.c_message_type := "text";
     Db.c_response_type := "text"; Db.c_tokens_used := Some 0;
     Db.c_response_time_ms := Some 0; Db.c_model_used := None;
     Db.c_context := Some "{}"%string; Db.c_conversation_metadata := Some "{}"%string;
     Db.c_is_error := Some false; Db.c_error_code := None; Db.c_error_message := None;
     Db.c_timestamp := Some at_ |}.

(** Three sessions of alice: s1 expired before 5000, s2 expires at 5000
    exactly, s3 later; s1 and s3 have turns. *)
Definition sample_db : Db.t :=
  {| Db.sessions :=
       [ session_row "s1" "alice" 1000 4999; session_row "s2" "alice" 1500 5000;
         session_row "s3" "alice" 2000 9000 ];
     Db.conversations :=
       [ turn_row "c1" "alice" "s1" 1100; turn_row "c2" "alice" "s3" 2100;
         turn_row "c3" "alice" "s3" 2200 ] |}.

Definition alice : User := {| user_id := "u-1"; username := "alice" |}.

Definition tick1 : Tick :=
  {| date_now := 1714557600000; iso_now := "2024-05-01T10:00:00.000Z" |}.
Definition tick2 : Tick :=
  {| date_now := 1714557601500; iso_now := "2024-05-01T10:00:01.500Z" |}.
Definition tick3 : Tick :=
  {| date_now := 1714557604500; iso_now := "2024-05-01T10:00:04.500Z" |}.

(** alice opens a new chat and types "Hello". *)
Definition ready_events : list Event :=
  [ EvCreate Page.initial (Responded 200 (Some session_B)); EvInput "Hello" ].

(** ** More of ChatbotPage.tsx: what the page renders *)

(** The [placeholder] of the textarea (lines 561-566). *)
Definition placeholder (w : World) : string :=
  if Page.loading (page w) then "AI is thinking..."
  else if negb (bool_decide (is_Some (Page.currentSession (page w))))
  then "Select or create a conversation to start chatting"
  else if negb (bool_decide (is_Some (user w))) then "Please log in to chat"
  else "Type your message here...".

(** The [disabled] attribute of the textarea (line 567). *)
Definition textareaDisabled (w : World) : bool :=
  Page.loading (page w)
  || negb (bool_decide (is_Some (Page.currentSession (page w))))
  || negb (bool_decide (is_Some (user w))).

(** [handleKeyPress(e)]: Enter without Shift sends. *)
Definition handleKeyPress (key : string) (shiftKey : bool) (t : Tick) (w : World) : World :=
  if String.eqb key "Enter" && negb shiftKey then sendMessage t w else w.

(** ** More of AuthContext.tsx: the provider's state, login and register *)

Module AuthContext.

(** The values [response.json()] resolves with, and [undefined], which
    reading a property gives when the property is missing.  Numbers are the
    integers below 2^53 in magnitude. *)
#[warnings="-register-all"] Inductive Value :=
| Undefined
| Null
| Bool (b : bool)
| Number (n : Z)
| Str (s : string)
| Array (items : list Value)
| Object (members : list (string * Value)).

(** [!!v] *)
Definition truthy (v : Value) : bool :=
  match v with
  | Undefined | Null => false
  | Bool b => b
  | Number n => negb (n =? 0)
  | Str s => Js.truthy s
  | Array _ | Object _ => true
  end.

(** The own property [k] of an object parsed from JSON; of two members of
    the same name the later one is kept. *)
Definition member (k : string) (members : list (string * Value)) : Value :=
  match List.find (λ kv, String.eqb (fst kv) k) (rev members) with
  | Some kv => snd kv
  | None => Undefined
  end.

(** [v.k] for the names the provider reads ([access_token], [user],
    [detail]), none of which is a property of a string, a number, a boolean
    or an array: [None] is the TypeError of reading a property of [null]. *)
Definition get (k : string) (v : Value) : option Value :=
  match v with
  | Undefined | Null => None
  | Object members => Some (member k members)
  | Bool _ | Number _ | Str _ | Array _ => Some Undefined
  end.

(** The conversion to a string that [localStorage.setItem] and [new Error]
    apply to their argument.  An array joins its elements with commas, [null]
    and [undefined] elements counting as empty; an object gives
    "[object Object]", unless it has a member named toString, which, parsed
    from JSON, cannot be called: that is a TypeError, [None]. *)
Fixpoint toString (v : Value) : option string :=
  match v with
  | Undefined => Some "undefined"%string
  | Null => Some "null"%string
  | Bool b => Some (if b then "true" else "false")%string
  | Number n => Some (Js.toString n)
  | Str s => Some s
  | Array items =>
      (fix join (l : list Value) : option string :=
         match l with
         | [] => Some ""%string
         | x :: l' =>
             match match x with
                   | Undefined | Null => Some ""%string
                   | _ => toString x
                   end, join l' with
             | Some a, Some b =>
                 Some (match l' with [] => a | _ :: _ => a +:+ "," +:+ b end)
             | _, _ => None
             end
         end) items
  | Object members =>
      if existsb (λ kv, String.eqb (fst kv) "toString") members then None
      else Some "[object Object]"%string
  end.

(** The messages of the TypeErrors the engine throws by itself; their
    wording is the engine's. *)
Record Engine := {
  cannotRead : string → string;   (* reading the named property of null *)
  cannotConvert : string          (* a conversion to string that fails *)
}.

(** How an awaited [fetch] followed by [response.json()] ends for the
    provider, which reads the [message] of what is thrown: the fetch rejects,
    or it is answered and the body does not parse or parses to a value. *)
Inductive Json :=
| Unparsable (message : string)
| Parsed (value : Value).

Inductive Fetched :=
| Failed (message : string)
| Answered (status : Z) (json : Json).

(** The provider's state ([user], [loading]), [localStorage]'s token and the
    requests issued: url and Authorization header. *)
Record t := mk {
  user : Value;
  loading : bool;
  token : option string;
  fetched : list (string * option string)
}.

(** [useState(null)], [useState(true)]. *)
Definition initial (tok : option string) : t := mk Null true tok [].

Definition setUser (u : Value) (s : t) : t := mk u (loading s) (token s) (fetched s).
Definition setLoading (b : bool) (s : t) : t := mk (user s) b (token s) (fetched s).
Definition removeItem (s : t) : t := mk (user s) (loading s) None (fetched s).
(** [localStorage.setItem('token', v)] once [v] is converted to a string;
    the storage takes the write. *)
Definition setItem (v : string) (s : t) : t := mk (user s) (loading s) (Some v) (fetched s).
Definition fetch (url : string) (authorization : option string) (s : t) : t :=
  mk (user s) (loading s) (token s) (fetched s ++ [(url, authorization)]).

(** [isAuthenticated: !!user] *)
Definition isAuthenticated (s : t) : bool := truthy (user s).

(** [fetchUserInfo()]: whatever the body of an OK answer parses to becomes
    the user; everything else ends in the [catch] block. *)
Definition fetchUserInfo (me : Fetched) (s : t) : t :=
  let s0 :=
    fetch "/api/v1/auth/me"
      (Some ("Bearer " +:+ match token s with Some x => x | None => "null" end)) s in
  match me with
  | Answered status json =>
      if Js.ok status then
        match json with
        | Parsed userData => setLoading false (setUser userData s0)
        | Unparsable _ => setLoading false (setUser Null (removeItem s0))
        end
      else setLoading false (setUser Null (removeItem s0))
  | Failed _ => setLoading false (setUser Null (removeItem s0))
  end.

(** The effect run on mount: look the user up when a token is stored. *)
Definition mount (me : Fetched) (s : t) : t :=
  match token s with
  | Some tok => if Js.truthy tok then fetchUserInfo me s else setLoading false s
  | None => setLoading false s
  end.

(** [login(username, password)]: the new state and the message of the
    error it throws, [None] when it resolves.  Whatever is thrown inside the
    [try] block is caught and thrown again as
    [new Error(error.message || 'Login failed')]. *)
Definition login (engine : Engine) (r me : Fetched) (s : t) : t * option string :=
  let s0 := fetch "/api/v1/auth/login" None s in
  let rethrow (message : string) := Some (Js.or_else message "Login failed") in
  match r with
  | Failed m => (s0, rethrow m)
  | Answered status json =>
      match json with
      | Unparsable m => (s0, rethrow m)
      | Parsed data =>
          if Js.ok status then
            match get "access_token" data with
            | None => (s0, rethrow (cannotRead engine "access_token"))
            | Some access_token =>
                match toString access_token with
                | None => (s0, rethrow (cannotConvert engine))
                | Some stored => (fetchUserInfo me (setItem stored s0), None)
                end
            end
          else
            match get "detail" data with
            | None => (s0, rethrow (cannotRead engine "detail"))
            | Some detail =>
                match toString (if truthy detail then detail else Str "Login failed") with
                | None => (s0, rethrow (cannotConvert engine))
                | Some message => (s0, rethrow message)
                end
            end
      end
  end.

(** [register(username, email, password)] *)
Definition register (engine : Engine) (r : Fetched) (s : t) : t * option string :=
  let s0 := fetch "/api/v1/auth/register" None s in
  let rethrow (message : string) := Some (Js.or_else message "Registration failed") in
  match r with
  | Failed m => (s0, rethrow m)
  | Answered status json =>
      match json with
      | Unparsable m => (s0, rethrow m)
      | Parsed data =>
          if Js.ok status then
            match get "access_token" data with
            | None => (s0, rethrow (cannotRead engine "access_token"))
            | Some access_token =>
                match toString access_token with
                | None => (s0, rethrow (cannotConvert engine))
                | Some stored =>
                    let s1 := setItem stored s0 in
                    match get "user" data with
                    | None => (s1, rethrow (cannotRead engine "user"))
                    | Some u => (setUser u s1, None)
                    end
                end
            end
          else
            match get "detail" data with
            | None => (s0, rethrow (cannotRead engine "detail"))
            | Some detail =>
                match toString (if truthy detail then detail
                                else Str "Registration failed") with
                | None => (s0, rethrow (cannotConvert engine))
                | Some message => (s0, rethrow message)
                end
            end
      end
  end.

(** [logout()] *)
Definition logout (s : t) : t := setUser Null (removeItem s).

End AuthContext.

(** ** The routes of App.tsx *)

Module App.

(** The paths that have a [Route], and what a route renders. *)
Inductive Path := LoginPath | RegisterPath | ChatPath | RootPath.
Inductive Screen := LoginPage | RegisterPage | ChatbotPage.
Inductive Element := Show (screen : Screen) | Navigate (to : Path).

Definition ProtectedRoute (isAuthenticated : bool) (children : Screen) : Element :=
  if isAuthenticated then Show children else Navigate LoginPath.

Definition PublicRoute (isAuthenticated : bool) (children : Screen) : Element :=
  if isAuthenticated then Navigate ChatPath else Show children.

Definition Routes (isAuthenticated : bool) (path : Path) : Element :=
  match path with
  | LoginPath => PublicRoute isAuthenticated LoginPage
  | RegisterPath => PublicRoute isAuthenticated RegisterPage
  | ChatPath => ProtectedRoute isAuthenticated ChatbotPage
  | RootPath => Navigate ChatPath
  end.

(** Following [Navigate] elements, at most [fuel] of them plus one: the path
    reached and the screen shown there. *)
Fixpoint render (fuel : nat) (isAuthenticated : bool) (path : Path) : option (Path * Screen) :=
  match Routes isAuthenticated path with
  | Show screen => Some (path, screen)
  | Navigate to =>
      match fuel with
      | O => None
      | S fuel' => render fuel' isAuthenticated to
      end
  end.

End App.

(** ** More of init.sql: users, analytics and the cascades from users *)

Module Schema.

(** A row of [users]. *)
Record UserRow := {
  u_id : string;
  u_username : string;
  u_email : string;
  u_password_hash : string;
  u_first_name : option string;
  u_last_name : option string;
  u_phone : option string;
  u_is_active : option bool;
  u_is_verified : option bool;
  u_preferences : option string;
  u_settings : option string;
  u_created_at : option Z;
  u_updated_at : option Z;
  u_last_login : option Z;
  u_avatar_url : option string;
  u_bio : option string
}.

(** A row of [analytics]; its [session_id] is a plain column, not a
    foreign key. *)
Record AnalyticsRow := {
  a_id : string;
  a_user_id : option string;
  a_event_type : string;
  a_event_category : option string;
  a_event_action : option string;
  a_event_label : option string;
  a_event_data : option string;
  a_context : option string;
  a_session_id : option string;
  a_request_id : option string;
  a_user_agent : option string;
  a_ip_address : option string;
  a_response_time_ms : option Z;
  a_error_code : option string;
  a_error_message : option string;
  a_timestamp : option Z
}.

(** The four tables. *)
Record t := {
  users : list UserRow;
  chat : Db.t;
  analytics : list AnalyticsRow
}.

(** [user_id UUID REFERENCES users(id) ON DELETE CASCADE]: the column value
    [user_id] references one of the rows [deleted]. *)
Definition owned_by (deleted : list UserRow) (user_id : option string) : bool :=
  match user_id with
  | Some uid => bool_decide (uid ∈ map u_id deleted)
  | None => false
  end.

(** [DELETE FROM users WHERE P]: the matching users go; so do the sessions,
    turns and analytics rows that reference them, and the turns that
    reference a session so removed. *)
Definition delete_users_where (P : UserRow → Prop) `{∀ u, Decision (P u)} (db : t) : t :=
  let deleted := filter P (users db) in
  let gone := filter (λ s, owned_by deleted (Db.s_user_id s) = true) (Db.sessions (chat db)) in
  {| users := filter (λ u, ¬ P u) (users db);
     chat :=
       {| Db.sessions :=
            filter (λ s, owned_by deleted (Db.s_user_id s) = false) (Db.sessions (chat db));
          Db.conversations :=
            filter (λ c, owned_by deleted (Db.c_user_id c) = false ∧ ¬ Db.references gone c)
              (Db.conversations (chat db)) |};
     analytics :=
       filter (λ a, owned_by deleted (a_user_id a) = false) (analytics db) |}.

End Schema.

(** ** Vocabulary of the further statements *)

(** Referential integrity of [conversations.session_id]: a turn that names a
    session names one that exists. *)
Definition session_fk_ok (db : Db.t) : Prop :=
  ∀ c sid, c ∈ Db.conversations db → Db.c_session_id c = Some sid →
           ∃ s, s ∈ Db.sessions db ∧ Db.s_id s = sid.

(** Referential integrity of the three [user_id] columns. *)
Definition user_fk_ok (db : Schema.t) : Prop :=
  (∀ s uid, s ∈ Db.sessions (Schema.chat db) → Db.s_user_id s = Some uid →
            ∃ u, u ∈ Schema.users db ∧ Schema.u_id u = uid)
  ∧ (∀ c uid, c ∈ Db.conversations (Schema.chat db) → Db.c_user_id c = Some uid →
              ∃ u, u ∈ Schema.users db ∧ Schema.u_id u = uid)
  ∧ (∀ a uid, a ∈ Schema.analytics db → Schema.a_user_id a = Some uid →
              ∃ u, u ∈ Schema.users db ∧ Schema.u_id u = uid).

(** The timer a suspended send set for its abort. *)
Definition abortTimer (p : PendingSend) : Timer :=
  {| tid := pid p; delay := 60000; action := Abort (pid p) |}.

(** The pending timers are in order: their ids are below the next id and
    distinct, and a timer that aborts a controller is the 60000 ms timer
    carrying that controller's id. *)
Definition timers_ok (w : World) : Prop :=
  Forall (λ tm, (tid tm < next_timer w)%nat) (timers w)
  ∧ NoDup (map tid (timers w))
  ∧ Forall (λ tm, ∀ c, action tm = Abort c →
                       tm = {| tid := c; delay := 60000; action := Abort c |})
      (timers w).

(** The suspended send [p] is covered: while it awaits the fetch its abort
    timer is pending; once it awaits the body no pending timer carries its
    id. *)
Definition armed (w : World) (p : PendingSend) : Prop :=
  (pid p < next_timer w)%nat
  ∧ match phase p with
    | AwaitFetch => abortTimer p ∈ timers w
    | AwaitJson => ∀ tm, tm ∈ timers w → tid tm ≠ pid p
    end.

(** What the reachable worlds satisfy: either nothing is suspended and the
    loading flag is down, or one send is, covered, and the flag is up. *)
Definition guarded (w : World) : Prop :=
  timers_ok w
  ∧ ((inflight w = [] ∧ Page.loading (page w) = false)
     ∨ (∃ p, inflight w = [p] ∧ Page.loading (page w) = true ∧ armed w p)).

(** The events that remove the stored token, in the world [w] they happen
    in: a 401 answer to the session list, the firing of a purge timer, an
    identity lookup that is not answered OK with a parsable body, a logout. *)
Definition purging (w : World) (e : Event) : Prop :=
  match e with
  | EvLoad _ (Responded status _) => status = 401
  | EvTimer id _ =>
      ∃ tm, List.find (λ tm, (tid tm =? id)%nat) (timers w) = Some tm
            ∧ action tm = PurgeAndReload
  | EvUserInfo (Responded status (Some _)) => Js.ok status = false
  | EvUserInfo _ => True
  | EvLogout => True
  | _ => False
  end.

(** A message without its id and timestamp. *)
Definition shown (m : Message.t) : Role * string := (Message.role m, Message.content m).

(** The least a timeout that bounds every send asks of a world: each
    suspended send has a pending timer whose firing ends it. *)
Definition bounded_by_timeout (w : World) : Prop :=
  ∀ p, p ∈ inflight w →
       ∃ tm, tm ∈ timers w ∧ ∀ t, p ∉ inflight (fireTimer (tid tm) t w).

(** ** Further sample data *)

Definition user_row (id name : string) : Schema.UserRow :=
  {| Schema.u_id := id; Schema.u_username := name;
     Schema.u_email := name +:+ "@dextrends.com"; Schema.u_password_hash := "$2b$12$hash";
     Schema.u_first_name := None; Schema.u_last_name := None; Schema.u_phone := None;
     Schema.u_is_active := Some true; Schema.u_is_verified := Some false;
     Schema.u_preferences := Some "{}"%string; Schema.u_settings := Some "{}"%string;
     Schema.u_created_at := Some 0; Schema.u_updated_at := Some 0;
     Schema.u_last_login := None; Schema.u_avatar_url := None; Schema.u_bio := None |}.

Definition event_row (id owner session : string) : Schema.AnalyticsRow :=
  {| Schema.a_id := id; Schema.a_user_id := Some owner; Schema.a_event_type := "chat";
     Schema.a_event_category := None; Schema.a_event_action := None;
     Schema.a_event_label := None; Schema.a_event_data := Some "{}"%string;
     Schema.a_context := Some "{}"%string; Schema.a_session_id := Some session;
     Schema.a_request_id := None; Schema.a_user_agent := None;
     Schema.a_ip_address := None; Schema.a_response_time_ms := None;
     Schema.a_error_code := None; Schema.a_error_message := None;
     Schema.a_timestamp := Some 1200 |}.

(** The wording of V8 for the TypeErrors it throws. *)
Definition v8 : AuthContext.Engine :=
  {| AuthContext.cannotRead :=
       λ k, ("Cannot read properties of null (reading '" +:+ k +:+ "')")%string;
     AuthContext.cannotConvert := "Cannot convert object to primitive value" |}.

(** alice sends "Hello" once the focus timer of the new chat has fired; the
    focus timer of the send fires, the response arrives with status 200, and
    its body is being read. *)
Definition reading_body : World :=
  reachable (Some alice) (Some "tok"%string)
    (ready_events
     ++ [ EvTimer 0 tick1; EvSend tick1; EvTimer 1 tick1;
          EvFetchSettled 2 (FetchResolved 200) tick2 ]).

(** alice's first send is answered 401, which sets the purge timer 3; she
    sends again, and the body of the second response is being read. *)
Definition expired_then_resent : list Event :=
  ready_events
  ++ [ EvSend tick1; EvFetchSettled 2 (FetchResolved 401) tick2;
       EvInput "Hello again"; EvSend tick3; EvFetchSettled 6 (FetchResolved 200) tick3 ].

(** alice owns the sessions and turns of [sample_db]; bob owns one session
    with one turn, and one analytics row that names alice's session s1. *)
Definition sample_schema : Schema.t :=
  {| Schema.users := [ user_row "alice" "alice"; user_row "bob" "bob" ];
     Schema.chat :=
       {| Db.sessions := Db.sessions sample_db ++ [ session_row "s4" "bob" 3000 9500 ];
          Db.conversations :=
            Db.conversations sample_db ++ [ turn_row "c4" "bob" "s4" 3100 ] |};
     Schema.analytics := [ event_row "e1" "alice" "s1"; event_row "e2" "bob" "s1" ] |}.

(** * Properties *)

(** ** Strings *)

Lemma substring_length (n : nat) (s : string) :
  String.length (substring 0 n s) = Nat.min n (String.length s).
Proof.
  revert s; induction n as [|n IH]; intros [|c s]; simpl; try reflexivity.
  now rewrite IH.
Qed.

Lemma substring_prefix (n : nat) (s : string) : String.prefix (substring 0 n s) s = true.
Proof.
  revert s; induction n as [|n IH]; intros [|c s]; simpl; try reflexivity.
  destruct (ascii_dec c c) as [_|Hne]; [apply IH | now destruct Hne].
Qed.

Lemma truthy_append (a b : string) : Js.truthy b = true → Js.truthy (a +:+ b) = true.
Proof. destruct a; simpl; auto. Qed.

Lemma trimEnd_empty (s : string) : Js.trimEnd s = EmptyString ↔ whitespace_only s.
Proof.
  induction s as [|c s IH]; simpl; [tauto|].
  destruct (Js.trimEnd s) as [|d r] eqn:E.
  - destruct (Js.isWhiteSpace c); split; try tauto; try discriminate.
    intros [[=] _].
  - split; [discriminate|]. intros [_ Hs]. apply IH in Hs. discriminate.
Qed.

Lemma trimStart_whitespace (s : string) :
  whitespace_only (Js.trimStart s) ↔ whitespace_only s.
Proof.
  induction s as [|c s IH]; simpl; [tauto|].
  destruct (Js.isWhiteSpace c) eqn:E; simpl; rewrite ?E; tauto.
Qed.

Lemma trim_empty (s : string) : Js.truthy (Js.trim s) = false ↔ whitespace_only s.
Proof.
  unfold Js.trim. rewrite <- trimStart_whitespace, <- trimEnd_empty.
  destruct (Js.trimEnd (Js.trimStart s)); simpl; split; congruence.
Qed.

(** ** History reconstruction *)

Lemma foldl_pushTurn (acc : list Message.t) (turns : list Turn.t) :
  foldl pushTurn acc turns = acc ++ concat (map turnMessages turns).
Proof.
  revert acc; induction turns as [|conv turns IH]; intros acc; simpl.
  - now rewrite app_nil_r.
  - rewrite IH. unfold pushTurn. now rewrite <- !app_assoc.
Qed.

Lemma reconstructMessages_concat (turns : list Turn.t) :
  reconstructMessages turns = concat (map turnMessages turns).
Proof.
  unfold reconstructMessages. destruct turns as [|conv turns]; [reflexivity|].
  change (0 <? length (conv :: turns))%nat with true. cbv iota.
  now rewrite foldl_pushTurn.
Qed.

Lemma reconstructMessages_length (turns : list Turn.t) :
  length (reconstructMessages turns) = (2 * length turns)%nat.
Proof.
  rewrite reconstructMessages_concat.
  induction turns as [|conv turns IH]; simpl; [reflexivity|]. rewrite IH. lia.
Qed.

Lemma turnMessages_lookup (turns : list Turn.t) (i : nat) (turn : Turn.t) :
  turns !! i = Some turn →
  concat (map turnMessages turns) !! (2 * i)%nat = turnMessages turn !! 0%nat ∧
  concat (map turnMessages turns) !! (2 * i + 1)%nat = turnMessages turn !! 1%nat.
Proof.
  revert i; induction turns as [|conv turns IH]; intros i Hi; [discriminate|].
  destruct i as [|i]; simpl in Hi.
  - injection Hi as ->. split; reflexivity.
  - apply IH in Hi as [H0 H1].
    replace (2 * S i)%nat with (S (S (2 * i))) by lia.
    replace (S (S (2 * i)) + 1)%nat with (S (S (2 * i + 1))) by lia.
    split; simpl; assumption.
Qed.

(** ** Sorting *)

Section ArraySortFacts.
Context {A : Type} (cmp : A → A → Z).
Hypothesis cmp_total : ∀ x y, 0 < cmp x y → cmp y x <= 0.
Hypothesis cmp_trans : ∀ x y z, cmp x y <= 0 → cmp y z <= 0 → cmp x z <= 0.

Let le (x y : A) : Prop := cmp x y <= 0.

Lemma sort_insert_perm (x : A) (l : list A) : sort_insert cmp x l ≡ₚ x :: l.
Proof.
  induction l as [|y l IH]; simpl; [reflexivity|].
  destruct (cmp x y <=? 0); [reflexivity|].
  rewrite IH. apply Permutation_swap.
Qed.

Lemma array_sort_perm (l : list A) : array_sort cmp l ≡ₚ l.
Proof.
  induction l as [|x l IH]; simpl; [reflexivity|].
  unfold array_sort in *. simpl. rewrite sort_insert_perm. now rewrite IH.
Qed.

Lemma sort_insert_sorted (x : A) (l : list A) :
  StronglySorted le l → StronglySorted le (sort_insert cmp x l).
Proof.
  induction 1 as [|y l Hs IH Hy]; simpl.
  - constructor; constructor.
  - destruct (cmp x y <=? 0) eqn:E.
    + apply Z.leb_le in E. constructor; [now constructor|].
      constructor; [exact E|].
      eapply Forall_impl; [exact Hy|]. intros z Hz. exact (cmp_trans _ _ _ E Hz).
    + apply Z.leb_gt in E. constructor; [exact IH|].
      rewrite (sort_insert_perm x l). constructor; [|exact Hy].
      apply cmp_total. lia.
Qed.

Lemma array_sort_sorted (l : list A) : StronglySorted le (array_sort cmp l).
Proof.
  induction l as [|x l IH]; unfold array_sort in *; simpl.
  - constructor.
  - now apply sort_insert_sorted.
Qed.

Lemma sorted_lookup_le (l : list A) (i j : nat) (a b : A) :
  StronglySorted le l → l !! i = Some a → l !! j = Some b → (i < j)%nat → le a b.
Proof.
  intros Hs. revert i j. induction Hs as [|y l Hs IH Hy]; intros i j Hi Hj Hlt.
  - discriminate.
  - destruct j as [|j]; [lia|]. destruct i as [|i]; simpl in *.
    + injection Hi as ->. rewrite Forall_forall in Hy. apply Hy.
      eapply list_elem_of_lookup_2. exact Hj.
    + apply (IH i j); auto. lia.
Qed.

(** An element that compares greater stands later in the sorted array. *)
Lemma array_sort_order (l : list A) (i j : nat) (a b : A) :
  array_sort cmp l !! i = Some a → array_sort cmp l !! j = Some b →
  0 < cmp b a → cmp a a <= 0 → (i < j)%nat.
Proof.
  intros Hi Hj Hgt Hrefl.
  destruct (Nat.lt_trichotomy i j) as [Hlt|[Heq|Hlt]]; [exact Hlt| |].
  - subst j. rewrite Hi in Hj. injection Hj as ->. lia.
  - pose proof (sorted_lookup_le _ _ _ _ _ (array_sort_sorted l) Hj Hi Hlt) as H.
    unfold le in H. lia.
Qed.
End ArraySortFacts.

Lemma compareConversations_total (x y : Conversation.t) :
  0 < compareConversations x y → compareConversations y x <= 0.
Proof.
  unfold compareConversations.
  destruct (Conversation.messages x), (Conversation.messages y); simpl; lia.
Qed.

Lemma compareConversations_trans (x y z : Conversation.t) :
  compareConversations x y <= 0 → compareConversations y z <= 0 →
  compareConversations x z <= 0.
Proof.
  unfold compareConversations.
  destruct (Conversation.messages x), (Conversation.messages y),
    (Conversation.messages z); simpl; lia.
Qed.

Lemma compareConversations_refl (x : Conversation.t) : compareConversations x x <= 0.
Proof.
  unfold compareConversations. destruct (Conversation.messages x); simpl; lia.
Qed.

Lemma buildConversations_perm (loaded : list (Session.t * option (list Turn.t))) :
  buildConversations loaded ≡ₚ map (λ sh, conversationOf (fst sh) (snd sh)) loaded.
Proof. apply array_sort_perm. Qed.

Lemma foldl_issue_page {B : Type} (f : B → Request) (l : list B) (w : World) :
  page (foldl (λ acc x, issue (f x) acc) w l) = page w.
Proof. revert w; induction l as [|x l IH]; intros w; simpl; [reflexivity|]. now rewrite IH. Qed.

Lemma loadSessionsAndConversations_conversations captured r (w : World) :
  Page.conversations (page (loadSessionsAndConversations captured r w)) =
    match r with
    | Rejected _ => Page.conversations (page w)
    | Responded status body =>
        if Js.ok status then
          match body with
          | Some loaded => buildConversations loaded
          | None => Page.conversations (page w)
          end
        else if status =? 401 then [] else Page.conversations (page w)
    end.
Proof.
  unfold loadSessionsAndConversations.
  destruct r as [e|status [loaded|]]; simpl; try reflexivity.
  - destruct (Js.ok status); simpl.
    + repeat match goal with
        | |- context [if ?b then _ else _] => destruct b
        | |- context [match ?x with _ => _ end] => destruct x
        end; simpl; reflexivity.
    + destruct (status =? 401); reflexivity.
  - destruct (Js.ok status); simpl; [reflexivity|].
    destruct (status =? 401); reflexivity.
Qed.

(** C1.  The title of a reconstructed conversation is a function of the
    session's turn log alone: with no turn it is the placeholder "New Chat";
    with at least one turn it is the first turn's user message cut to its
    first 50 characters ([Js.slice _ 0 50]: a prefix of the message of length
    [min 50 (length message)]) followed by "...".  The sorted conversation
    list holds exactly the conversations so derived. *)
Theorem title_derivation (session : Session.t) (turns : list Turn.t) :
  Conversation.title (conversationOf session (Some turns)) =
    match turns with
    | [] => "New Chat"%string
    | first :: _ => Js.slice (Turn.message first) 0 50 +:+ "..."
    end
  ∧ (∀ message : string,
       String.length (Js.slice message 0 50) = Nat.min 50 (String.length message)
       ∧ String.prefix (Js.slice message 0 50) message = true)
  ∧ (∀ loaded,
       buildConversations loaded ≡ₚ map (λ sh, conversationOf (fst sh) (snd sh)) loaded).
Proof.
  split; [|split].
  - destruct turns as [|first rest]; simpl; [reflexivity|].
    unfold Js.or_else. now rewrite truthy_append.
  - intros message. unfold Js.slice. simpl.
    split; [apply substring_length | apply substring_prefix].
  - apply buildConversations_perm.
Qed.

(** The example scenario of the specification: one turn "Hello" gives the
    title "Hello..."; a long first message is cut after 50 characters. *)
Example title_hello :
  Conversation.title (conversationOf session_B (Some [hello_turn])) = "Hello..."%string
  ∧ Conversation.title (conversationOf session_B (Some [long_turn; hello_turn]))
    = "Please explain how the payment gateway settles cro..."%string
  ∧ Conversation.title (conversationOf session_A (Some [])) = "New Chat"%string.
Proof. repeat split; reflexivity. Qed.

(** C2.  Reconstruction turns a log of n turns into 2n messages: turn i
    gives message 2i (role user, the turn's message text, id = turn id
    followed by "-user") and message 2i+1 (role assistant, the turn's response
    text, id = turn id followed by "-assistant"), both with the turn's
    timestamp.  Loading twice with the same answers yields the same
    conversations (hence the same message sequences) as loading once. *)
Theorem history_reconstruction (turns : list Turn.t) :
  length (reconstructMessages turns) = (2 * length turns)%nat
  ∧ (∀ i turn,
       turns !! i = Some turn →
       reconstructMessages turns !! (2 * i)%nat
       = Some (Message.mk (Turn.id turn +:+ "-user") user_role
                 (Turn.message turn) (Turn.timestamp turn))
       ∧ reconstructMessages turns !! (2 * i + 1)%nat
         = Some (Message.mk (Turn.id turn +:+ "-assistant") assistant_role
                   (Turn.response turn) (Turn.timestamp turn)))
  ∧ (∀ captured captured' r w,
       Page.conversations
         (page (loadSessionsAndConversations captured' r
                  (loadSessionsAndConversations captured r w)))
       = Page.conversations (page (loadSessionsAndConversations captured r w))).
Proof.
  split; [apply reconstructMessages_length|]. split.
  - intros i turn Hi. rewrite reconstructMessages_concat.
    exact (turnMessages_lookup turns i turn Hi).
  - intros captured captured' r w.
    rewrite !loadSessionsAndConversations_conversations.
    destruct r as [e|status body]; [reflexivity|].
    destruct (Js.ok status); [destruct body; reflexivity|].
    destruct (status =? 401); reflexivity.
Qed.

Lemma history_reconstruction_witness :
  [long_turn; hello_turn] !! 1%nat = Some hello_turn
  ∧ length (reconstructMessages [long_turn; hello_turn]) = 4%nat
  ∧ reconstructMessages [long_turn; hello_turn] !! 2%nat
    = Some (Message.mk "7f3c-user" user_role "Hello" "2024-05-01T10:00:00Z")
  ∧ reconstructMessages [long_turn; hello_turn] !! 3%nat
    = Some (Message.mk "7f3c-assistant" assistant_role "Hi, how can I help?"
              "2024-05-01T10:00:00Z").
Proof.
  split; [reflexivity|].
  destruct (history_reconstruction [long_turn; hello_turn]) as (Hlen & Hat & _).
  split; [exact Hlen|].
  exact (Hat 1%nat hello_turn eq_refl).
Defined.


(** C3.  In the sorted conversation list a conversation with messages
    stands before every conversation without, whatever their creation times;
    and of two conversations of the same group the one created later stands
    before the one created earlier. *)
Theorem conversation_order (l : list Conversation.t) (i j : nat) (a b : Conversation.t) :
  array_sort compareConversations l !! i = Some a →
  array_sort compareConversations l !! j = Some b →
  (Conversation.messages a ≠ [] ∧ Conversation.messages b = [])
  ∨ ((Conversation.messages a = [] ↔ Conversation.messages b = [])
     ∧ Conversation.created_at b < Conversation.created_at a) →
  (i < j)%nat.
Proof.
  intros Hi Hj Hab.
  apply (array_sort_order compareConversations compareConversations_total
           compareConversations_trans l i j a b Hi Hj);
    [|apply compareConversations_refl].
  unfold compareConversations.
  destruct Hab as [[Ha Hb]|[Hiff Hlt]].
  - rewrite Hb. destruct (Conversation.messages a); [congruence|]. simpl. lia.
  - destruct (Conversation.messages a), (Conversation.messages b); simpl;
      try lia; exfalso; destruct Hiff as [H1 H2];
      ((now discriminate H1) || (now discriminate H2)).
Qed.

(** Session A (no turn, created later) and session B (one turn, created
    earlier): B is first. *)
Lemma conversation_order_witness :
  buildConversations sessions_AB
  = [ conversationOf session_B (Some [hello_turn]); conversationOf session_A (Some []) ]
  ∧ (0 < 1)%nat.
Proof.
  split; [reflexivity|].
  apply (conversation_order
           (map (λ sh, conversationOf (fst sh) (snd sh)) sessions_AB) 0 1
           (conversationOf session_B (Some [hello_turn]))
           (conversationOf session_A (Some []))).
  - reflexivity.
  - reflexivity.
  - left. split; [discriminate | reflexivity].
Defined.

(** ** The sessions table *)

Lemma delete_sessions_where_sessions (P : Db.SessionRow → Prop) `{∀ s, Decision (P s)}
    (db : Db.t) (s : Db.SessionRow) :
  s ∈ Db.sessions (fst (Db.delete_sessions_where P db)) ↔ s ∈ Db.sessions db ∧ ¬ P s.
Proof. simpl. rewrite list_elem_of_filter. tauto. Qed.

Lemma delete_sessions_where_count (P : Db.SessionRow → Prop) `{∀ s, Decision (P s)}
    (db : Db.t) :
  length (Db.sessions db)
  = (length (Db.sessions (fst (Db.delete_sessions_where P db)))
     + Z.to_nat (snd (Db.delete_sessions_where P db)))%nat.
Proof.
  simpl. rewrite Nat2Z.id.
  rewrite <- (Permutation_length (filter_app_complement P (Db.sessions db))) at 1.
  rewrite length_app. lia.
Qed.

Lemma row_ok_apply (TTL : Z) (db : Db.t) (op : Db.Op) :
  0 < TTL → Forall Db.row_ok (Db.sessions db) →
  Forall Db.row_ok (Db.sessions (Db.apply TTL db op)).
Proof.
  intros HTTL Hdb. destruct op as [id owner now|owner|id owner|id now|now]; simpl.
  - unfold Db.createSession. case_decide; [exact Hdb|]. simpl.
    apply Forall_app. split; [exact Hdb|].
    constructor; [|constructor]. unfold Db.row_ok. simpl. lia.
  - exact Hdb.
  - rewrite Forall_forall in *. intros s Hs.
    apply list_elem_of_filter in Hs. apply Hdb, Hs.
  - rewrite Forall_forall in *. intros s Hs.
    apply list_elem_of_fmap in Hs as (s0 & -> & Hs0).
    specialize (Hdb s0 Hs0). case_decide; [|exact Hdb]. exact Hdb.
  - rewrite Forall_forall in *. intros s Hs.
    apply list_elem_of_filter in Hs. apply Hdb, Hs.
Qed.

Lemma row_ok_foldl (TTL : Z) (ops : list Db.Op) (db : Db.t) :
  0 < TTL → Forall Db.row_ok (Db.sessions db) →
  Forall Db.row_ok (Db.sessions (foldl (Db.apply TTL) db ops)).
Proof.
  intros HTTL. revert db. induction ops as [|op ops IH]; intros db Hdb; simpl.
  - exact Hdb.
  - apply IH. now apply row_ok_apply.
Qed.

(** C7.  With a positive time to live, [expires_at > created_at] holds of
    every row of every state the session store reaches from the empty table,
    and each operation of the store (create, list, delete, refresh of
    last_activity, expiry sweep) preserves it; a session is live exactly when
    the current time is strictly before its [expires_at], and the sweep never
    removes a live session. *)
Theorem session_rows_invariant (TTL : Z) (ops : list Db.Op) :
  0 < TTL →
  Forall Db.row_ok (Db.sessions (Db.run TTL ops))
  ∧ (∀ db op, Forall Db.row_ok (Db.sessions db) →
              Forall Db.row_ok (Db.sessions (Db.apply TTL db op)))
  ∧ (∀ now s, Db.live now s = true ↔ now < Db.s_expires_at s)
  ∧ (∀ now db s, s ∈ Db.sessions db → Db.live now s = true →
                 s ∈ Db.sessions (fst (Db.clean_expired_sessions now db))).
Proof.
  intros HTTL. repeat split.
  - apply row_ok_foldl; [exact HTTL|]. constructor.
  - intros db op. now apply row_ok_apply.
  - unfold Db.live. apply Z.ltb_lt.
  - unfold Db.live. apply Z.ltb_lt.
  - intros now db s Hs Hlive. unfold Db.clean_expired_sessions.
    apply delete_sessions_where_sessions. split; [exact Hs|].
    unfold Db.live in Hlive. apply Z.ltb_lt in Hlive. lia.
Qed.

Lemma session_rows_invariant_witness :
  0 < 3600000
  ∧ Forall Db.row_ok
      (Db.sessions
         (Db.run 3600000
            [ Db.OpCreate "s1" "alice" 1000; Db.OpCreate "s2" "alice" 2000;
              Db.OpTouch "s1" 2500; Db.OpDelete "s2" "alice"; Db.OpExpire 3000 ])).
Proof.
  split; [lia|].
  assert (H : 0 < 3600000) by lia.
  exact (proj1 (session_rows_invariant 3600000
                  [ Db.OpCreate "s1" "alice" 1000; Db.OpCreate "s2" "alice" 2000;
                    Db.OpTouch "s1" 2500; Db.OpDelete "s2" "alice"; Db.OpExpire 3000 ] H)).
Defined.

(** C8.  [clean_expired_sessions] removes the session rows whose
    [expires_at] is strictly before the current time and no other: the rows
    left are those with [expires_at >= now], unchanged and in their order;
    the value returned is the number of rows removed. *)
Theorem clean_expired_sessions_exact (now : Z) (db : Db.t) :
  Db.sessions (fst (Db.clean_expired_sessions now db))
  = filter (λ s, now <= Db.s_expires_at s) (Db.sessions db)
  ∧ (∀ s, s ∈ Db.sessions db → Db.s_expires_at s < now →
          s ∉ Db.sessions (fst (Db.clean_expired_sessions now db)))
  ∧ (∀ s, s ∈ Db.sessions db → now <= Db.s_expires_at s →
          s ∈ Db.sessions (fst (Db.clean_expired_sessions now db)))
  ∧ (∀ s, s ∈ Db.sessions (fst (Db.clean_expired_sessions now db)) → s ∈ Db.sessions db)
  ∧ snd (Db.clean_expired_sessions now db)
    = Z.of_nat (length (filter (λ s, Db.s_expires_at s < now) (Db.sessions db)))
  ∧ Z.of_nat (length (Db.sessions db))
    = Z.of_nat (length (Db.sessions (fst (Db.clean_expired_sessions now db))))
      + snd (Db.clean_expired_sessions now db).
Proof.
  unfold Db.clean_expired_sessions. repeat split.
  - simpl. apply list_filter_iff. intros s. lia.
  - intros s Hs Hexp Hin. apply delete_sessions_where_sessions in Hin. tauto.
  - intros s Hs Hexp. apply delete_sessions_where_sessions. split; [exact Hs|lia].
  - intros s Hin. apply delete_sessions_where_sessions in Hin. tauto.
  - pose proof (delete_sessions_where_count (λ s, Db.s_expires_at s < now) db) as H.
    simpl in *. lia.
Qed.

(** At time 5000, s1 (expires 4999) goes, s2 (expires 5000) and s3 stay, and
    1 is returned. *)
Lemma clean_expired_sessions_witness :
  Db.clean_expired_sessions 5000 sample_db
  = ({| Db.sessions := [ session_row "s2" "alice" 1500 5000; session_row "s3" "alice" 2000 9000 ];
        Db.conversations := [ turn_row "c2" "alice" "s3" 2100; turn_row "c3" "alice" "s3" 2200 ] |},
     1)
  ∧ session_row "s1" "alice" 1000 4999
    ∉ Db.sessions (fst (Db.clean_expired_sessions 5000 sample_db)).
Proof.
  split; [vm_compute; reflexivity|].
  destruct (clean_expired_sessions_exact 5000 sample_db) as (_ & Hgone & _).
  apply Hgone; [|simpl; lia].
  apply list_elem_of_here.
Defined.

(** C9.  Deleting an owner's session removes the session row and, by the
    cascade of the foreign key, every turn that references it, and no other
    turn; the session is no longer part of the owner's session listing; and
    once the page's delete request is answered, its conversation list holds
    no conversation of that id. *)
Theorem delete_session_cascade (id owner : string) (db : Db.t) (s : Db.SessionRow) :
  s ∈ Db.sessions db → Db.s_id s = id → Db.s_user_id s = Some owner →
  (∀ c, c ∈ Db.conversations (Db.deleteSession id owner db) →
        Db.c_session_id c ≠ Some id)
  ∧ (∀ c, c ∈ Db.conversations db → Db.c_session_id c ≠ Some id →
          c ∈ Db.conversations (Db.deleteSession id owner db))
  ∧ (∀ s', s' ∈ Db.sessions (Db.deleteSession id owner db) →
           ¬ (Db.s_id s' = id ∧ Db.s_user_id s' = Some owner))
  ∧ (∀ s', s' ∈ Db.listSessions owner (Db.deleteSession id owner db) → Db.s_id s' ≠ id)
  ∧ (∀ captured status body w c,
       c ∈ Page.conversations
             (page (deleteConversation captured id (Responded status body) w)) →
       Conversation.id c ≠ id ∧ c ∈ Page.conversations captured).
Proof.
  intros Hs Hid Howner. unfold Db.deleteSession.
  split; [|split; [|split; [|split]]].
  - intros c Hc Href. simpl in Hc. apply list_elem_of_filter in Hc as [Hnot _].
    apply Hnot. exists s. split; [|now rewrite Hid].
    apply list_elem_of_filter. auto.
  - intros c Hc Hfree. simpl. apply list_elem_of_filter. split; [|exact Hc].
    intros (s' & Hs' & Href). apply list_elem_of_filter in Hs' as [[Hid' _] Hin'].
    congruence.
  - intros s' Hs'. apply delete_sessions_where_sessions in Hs'. tauto.
  - intros s' Hs' Hid'. unfold Db.listSessions in Hs'.
    apply list_elem_of_filter in Hs' as [Hown Hin].
    apply delete_sessions_where_sessions in Hin. tauto.
  - intros captured status body w c Hc.
    unfold deleteConversation in Hc. simpl in Hc.
    destruct (Page.currentConversation captured) as [cur|]; simpl in Hc;
      [destruct (String.eqb (Conversation.id cur) id); simpl in Hc|];
      apply list_elem_of_filter in Hc; tauto.
Qed.

(** Deleting alice's session s3 removes its turns c2 and c3 and keeps c1. *)
Lemma delete_session_cascade_witness :
  Db.deleteSession "s3" "alice" sample_db
  = {| Db.sessions := [ session_row "s1" "alice" 1000 4999; session_row "s2" "alice" 1500 5000 ];
       Db.conversations := [ turn_row "c1" "alice" "s1" 1100 ] |}
  ∧ (∀ s', s' ∈ Db.listSessions "alice" (Db.deleteSession "s3" "alice" sample_db) →
           Db.s_id s' ≠ "s3"%string).
Proof.
  split; [vm_compute; reflexivity|].
  assert (Hin : session_row "s3" "alice" 2000 9000 ∈ Db.sessions sample_db).
  { apply list_elem_of_further, list_elem_of_further, list_elem_of_here. }
  destruct (delete_session_cascade "s3" "alice" sample_db
              (session_row "s3" "alice" 2000 9000) Hin eq_refl eq_refl)
    as (_ & _ & _ & Hlist & _).
  exact Hlist.
Defined.

(** ** The chat page: invariants of the reachable worlds *)

Lemma wf_with_page f w :
  (∀ p, Page.loading (f p) = Page.loading p) → well_formed w → well_formed (with_page f w).
Proof. intros Hf (H1 & H2 & H3). repeat split; simpl; auto. rewrite Hf. exact H2. Qed.

Lemma wf_setTimeout a d w : well_formed w → well_formed (setTimeout a d w).
Proof.
  intros (H1 & H2 & H3). repeat split; simpl; auto.
  apply Forall_app. split.
  - eapply Forall_impl; [exact H3|]. simpl. intros; lia.
  - constructor; [simpl; lia|constructor].
Qed.

Lemma wf_clearTimeout id w : well_formed w → well_formed (clearTimeout id w).
Proof.
  intros (H1 & H2 & H3). repeat split; simpl; auto.
  rewrite Forall_forall in *. intros tm Htm. apply list_elem_of_filter in Htm. apply H3, Htm.
Qed.

Lemma wf_issue r w : well_formed w → well_formed (issue r w).
Proof. intros (H1 & H2 & H3). repeat split; simpl; auto. Qed.

Lemma wf_removeToken w : well_formed w → well_formed (removeToken w).
Proof. intros (H1 & H2 & H3). repeat split; simpl; auto. Qed.

Lemma wf_reload w : well_formed w → well_formed (reload w).
Proof. intros (H1 & H2 & H3). repeat split; simpl; auto. Qed.

Lemma wf_setUser u w : well_formed w → well_formed (setUser u w).
Proof. intros (H1 & H2 & H3). repeat split; simpl; auto. Qed.

Lemma wf_foldl {B : Type} (g : World → B → World) (l : list B) (w : World) :
  (∀ acc x, well_formed acc → well_formed (g acc x)) →
  well_formed w → well_formed (foldl g w l).
Proof.
  intros Hg. revert w; induction l as [|x l IH]; intros w Hw; simpl; [exact Hw|].
  apply IH, Hg, Hw.
Qed.

Ltac wf_step :=
  lazymatch goal with
  | H : well_formed ?w |- well_formed ?w => exact H
  | |- well_formed (setTimeout _ _ _) => apply wf_setTimeout
  | |- well_formed (clearTimeout _ _) => apply wf_clearTimeout
  | |- well_formed (issue _ _) => apply wf_issue
  | |- well_formed (removeToken _) => apply wf_removeToken
  | |- well_formed (reload _) => apply wf_reload
  | |- well_formed (setUser _ _) => apply wf_setUser
  | |- well_formed (foldl _ _ _) => apply wf_foldl; [intros ? ? ?|]
  | |- well_formed (with_page _ _) => apply wf_with_page; [intros ?; reflexivity|]
  end.

Lemma wf_selectConversation captured c w :
  well_formed w → well_formed (selectConversation captured c w).
Proof. intros Hw. unfold selectConversation. repeat wf_step. Qed.

Lemma wf_load captured r w :
  well_formed w → well_formed (loadSessionsAndConversations captured r w).
Proof.
  intros Hw. unfold loadSessionsAndConversations. cbv zeta.
  repeat case_match; try apply wf_selectConversation; repeat wf_step.
Qed.

Lemma wf_stats r w : well_formed w → well_formed (loadUserStats r w).
Proof.
  intros Hw. unfold loadUserStats, userStatsSettled, requestUserStats.
  repeat case_match; repeat wf_step.
Qed.

Lemma wf_statsSettled r w : well_formed w → well_formed (userStatsSettled r w).
Proof. intros Hw. unfold userStatsSettled. repeat case_match; repeat wf_step. Qed.

Lemma wf_create captured r w : well_formed w → well_formed (createNewConversation captured r w).
Proof. intros Hw. unfold createNewConversation. repeat case_match; repeat wf_step. Qed.

Lemma wf_delete captured id r w :
  well_formed w → well_formed (deleteConversation captured id r w).
Proof. intros Hw. unfold deleteConversation. repeat case_match; repeat wf_step. Qed.

Lemma wf_userInfo r w : well_formed w → well_formed (fetchUserInfo r w).
Proof. intros Hw. unfold fetchUserInfo. repeat case_match; repeat wf_step. Qed.

Lemma find_solo {A} (f : A → bool) (l : list A) (p : A) :
  (length l ≤ 1)%nat → List.find f l = Some p → l = [p] ∧ f p = true.
Proof.
  destruct l as [|q [|q' l]]; simpl; intros Hlen Hfind; try discriminate; [|lia].
  destruct (f q) eqn:E; [|discriminate]. injection Hfind as ->. auto.
Qed.

Lemma send_blocked_false w :
  send_blocked w = false →
  Js.truthy (Js.trim (Page.inputMessage (page w))) = true ∧ Page.loading (page w) = false
  ∧ is_Some (Page.currentSession (page w)) ∧ is_Some (user w).
Proof.
  unfold send_blocked. intros H.
  repeat (apply orb_false_elim in H as [H ?]).
  repeat match goal with
         | H : negb _ = false |- _ => apply negb_false_iff in H
         | H : bool_decide _ = true |- _ => apply bool_decide_eq_true in H
         end. auto.
Qed.

Lemma wf_sendMessage t w : well_formed w → well_formed (sendMessage t w).
Proof.
  intros Hw. unfold sendMessage. destruct (send_blocked w) eqn:Hb; [exact Hw|].
  apply send_blocked_false in Hb as (_ & Hload & _ & _).
  destruct (Page.currentSession (page w)) as [session|]; [|exact Hw].
  destruct (user w) as [u|]; [|exact Hw].
  destruct Hw as (H1 & H2 & H3).
  assert (Hnil : inflight w = []).
  { destruct (inflight w); [reflexivity|]. rewrite H2 in Hload; [discriminate|discriminate]. }
  split; [|split]; simpl.
  - rewrite Hnil. simpl. lia.
  - intros _. reflexivity.
  - rewrite <- !app_assoc. apply Forall_app. split.
    + eapply Forall_impl; [exact H3|]. simpl. intros; lia.
    + repeat constructor; simpl; lia.
Qed.

Lemma wf_finallySend p w :
  inflight w = [p] → Forall (λ tm, (tid tm < next_timer w)%nat) (timers w) →
  well_formed (finallySend p w).
Proof.
  intros Hp Ht. unfold finallySend. apply wf_setTimeout.
  assert (Hnil : filter (λ q, pid q ≠ pid p) [p] = []).
  { rewrite filter_cons_False; [reflexivity|]. intros H. now apply H. }
  split; [|split]; simpl.
  - rewrite Hp, Hnil. simpl. lia.
  - rewrite Hp, Hnil. congruence.
  - exact Ht.
Qed.

Lemma catchSend_frame p e t w :
  inflight (catchSend p e t w) = inflight w
  ∧ (Forall (λ tm, (tid tm < next_timer w)%nat) (timers w) →
     Forall (λ tm, (tid tm < next_timer (catchSend p e t w))%nat)
       (timers (catchSend p e t w))).
Proof.
  unfold catchSend. cbv zeta. repeat case_match; simpl; split; auto.
  intros Hf. apply Forall_app. split.
  - eapply Forall_impl; [exact Hf|]. simpl. intros; lia.
  - repeat constructor; simpl; lia.
Qed.

Lemma completeSend_frame p r t w :
  inflight (completeSend p r t w) = inflight w
  ∧ (Forall (λ tm, (tid tm < next_timer w)%nat) (timers w) →
     Forall (λ tm, (tid tm < next_timer (completeSend p r t w))%nat)
       (timers (completeSend p r t w))).
Proof.
  unfold completeSend. cbv zeta. repeat case_match; simpl; split; auto.
  all: intros Hf; apply Forall_app; split;
    [eapply Forall_impl; [exact Hf|]; simpl; intros; lia | repeat constructor; simpl; lia].
Qed.

Lemma wf_fetchSettled id r t w : well_formed w → well_formed (fetchSettled id r t w).
Proof.
  intros Hw. unfold fetchSettled, findPending.
  destruct (List.find _ (inflight w)) as [p|] eqn:Hfind; [|exact Hw].
  destruct Hw as (H1 & H2 & H3).
  destruct (find_solo _ _ _ H1 Hfind) as [Hp Hid].
  destruct (phase p), r as [e|status]; try (repeat split; assumption).
  - destruct (catchSend_frame p e t w) as [Hi Ht].
    apply wf_finallySend; [congruence|auto].
  - cbv zeta. destruct (negb (Js.ok status)).
    + destruct (catchSend_frame p (httpError status) t (clearTimeout (pid p) w)) as [Hi Ht].
      apply wf_finallySend; [rewrite Hi; exact Hp|].
      apply Ht. simpl. rewrite Forall_forall in *. intros tm Htm.
      apply list_elem_of_filter in Htm. apply H3, Htm.
    + split; [|split]; simpl.
      * rewrite length_map. exact H1.
      * intros _. apply H2. rewrite Hp. discriminate.
      * rewrite Forall_forall in *. intros tm Htm.
        apply list_elem_of_filter in Htm. apply H3, Htm.
Qed.

Lemma wf_jsonSettled id r t w : well_formed w → well_formed (jsonSettled id r t w).
Proof.
  intros Hw. unfold jsonSettled, findPending.
  destruct (List.find _ (inflight w)) as [p|] eqn:Hfind; [|exact Hw].
  destruct Hw as (H1 & H2 & H3).
  destruct (find_solo _ _ _ H1 Hfind) as [Hp Hid].
  destruct (phase p), r as [e|response]; try (repeat split; assumption).
  - destruct (catchSend_frame p e t w) as [Hi Ht].
    apply wf_finallySend; [congruence|auto].
  - destruct (completeSend_frame p response t w) as [Hi Ht].
    apply wf_finallySend; [congruence|auto].
Qed.

Lemma wf_fireTimer id t w : well_formed w → well_formed (fireTimer id t w).
Proof.
  intros Hw. unfold fireTimer.
  destruct (List.find _ (timers w)) as [tm|]; [|exact Hw].
  cbv zeta. destruct (action tm) as [|controller|]; repeat wf_step.
  unfold abort. repeat case_match; try apply wf_fetchSettled; try apply wf_jsonSettled;
    repeat wf_step.
Qed.

Lemma wf_step_event w e : well_formed w → well_formed (step w e).
Proof.
  intros Hw. destruct e; simpl.
  - repeat wf_step.
  - repeat wf_step.
  - repeat wf_step.
  - now apply wf_selectConversation.
  - now apply wf_load.
  - now apply wf_stats.
  - now apply wf_statsSettled.
  - now apply wf_create.
  - now apply wf_delete.
  - now apply wf_sendMessage.
  - now apply wf_fetchSettled.
  - now apply wf_jsonSettled.
  - now apply wf_fireTimer.
  - now apply wf_userInfo.
  - unfold logout. repeat wf_step.
Qed.

Lemma wf_run events w : well_formed w → well_formed (run w events).
Proof.
  revert w; induction events as [|e events IH]; intros w Hw; [exact Hw|].
  apply IH, wf_step_event, Hw.
Qed.

Lemma wf_reachable u tok events : well_formed (reachable u tok events).
Proof.
  apply wf_run. split; [|split]; simpl; [lia | congruence | constructor].
Qed.

(** ** sendMessage, step by step *)

Lemma filter_self_pid (p : PendingSend) : filter (λ q, pid q ≠ pid p) [p] = [].
Proof. rewrite filter_cons_False; [reflexivity|]. intros H. now apply H. Qed.

Lemma sendMessage_unblocked (t : Tick) (w : World) :
  well_formed w → send_blocked w = false →
  ∃ session u,
    Page.currentSession (page w) = Some session ∧ user w = Some u
    ∧ page (sendMessage t w)
      = Page.setLoading true
          (Page.setInputMessage ""
             (Page.setMessages
                (Page.messages (page w) ++ [userMessage t (Page.inputMessage (page w))])
                (page w)))
    ∧ inflight (sendMessage t w)
      = [ {| pid := S (next_timer w); phase := AwaitFetch;
             updatedMessages :=
               Page.messages (page w) ++ [userMessage t (Page.inputMessage (page w))];
             sentInput := Page.inputMessage (page w);
             sentConversation := Page.currentConversation (page w);
             sentConversations := Page.conversations (page w) |} ]
    ∧ timers (sendMessage t w)
      = timers w ++ [ {| tid := next_timer w; delay := 0; action := FocusInput |};
                      {| tid := S (next_timer w); delay := 60000;
                         action := Abort (S (next_timer w)) |} ]
    ∧ next_timer (sendMessage t w) = S (S (next_timer w))
    ∧ requests (sendMessage t w)
      = requests w ++ [ {| method := "POST"; url := "/api/chat/message";
                           authorization := authHeader (token w);
                           body := Some {| cd_user_id := user_id u;
                                           cd_session_id := Session.id session;
                                           cd_query := Page.inputMessage (page w) |} |} ]
    ∧ token (sendMessage t w) = token w ∧ user (sendMessage t w) = user w
    ∧ reloads (sendMessage t w) = reloads w.
Proof.
  intros (H1 & H2 & H3) Hb. unfold sendMessage. rewrite Hb.
  apply send_blocked_false in Hb as (_ & Hload & [session Hs] & [u Hu]).
  assert (Hnil : inflight w = []).
  { destruct (inflight w); [reflexivity|]. rewrite H2 in Hload; discriminate. }
  rewrite Hs, Hu. exists session, u. simpl. rewrite ?Hs, ?Hu, Hnil, <- app_assoc.
  repeat split; reflexivity.
Qed.

Lemma fetchSettled_failed (w : World) (p : PendingSend) (r : FetchResult) (te : Tick) :
  inflight w = [p] → phase p = AwaitFetch → fetch_failed r →
  Page.messages (page (fetchSettled (pid p) r te w))
  = updatedMessages p ++ [errorMessage te (errorContent (thrown r))]
  ∧ Page.loading (page (fetchSettled (pid p) r te w)) = false
  ∧ inflight (fetchSettled (pid p) r te w) = []
  ∧ requests (fetchSettled (pid p) r te w) = requests w
  ∧ token (fetchSettled (pid p) r te w) = token w
  ∧ reloads (fetchSettled (pid p) r te w) = reloads w.
Proof.
  intros Hp Hph Hfail. unfold fetchSettled, findPending. rewrite Hp. simpl.
  rewrite Nat.eqb_refl, Hph.
  destruct r as [e|status]; simpl in Hfail; [|rewrite Hfail; simpl];
    unfold finallySend, catchSend, dropPending, errorContent, thrown, httpError;
    cbv zeta; simpl;
    repeat case_match; simpl; rewrite ?Hp, ?filter_self_pid; try congruence;
    repeat split; reflexivity.
Qed.

Lemma jsonSettled_failed (w : World) (p : PendingSend) (e : Js.Error) (te : Tick) :
  inflight w = [p] → phase p = AwaitJson →
  Page.messages (page (jsonSettled (pid p) (JsonRejected e) te w))
  = updatedMessages p ++ [errorMessage te (errorContent e)]
  ∧ Page.loading (page (jsonSettled (pid p) (JsonRejected e) te w)) = false
  ∧ inflight (jsonSettled (pid p) (JsonRejected e) te w) = []
  ∧ requests (jsonSettled (pid p) (JsonRejected e) te w) = requests w
  ∧ token (jsonSettled (pid p) (JsonRejected e) te w) = token w
  ∧ reloads (jsonSettled (pid p) (JsonRejected e) te w) = reloads w.
Proof.
  intros Hp Hph. unfold jsonSettled, findPending. rewrite Hp. simpl.
  rewrite Nat.eqb_refl, Hph.
  unfold finallySend, catchSend, dropPending, errorContent; cbv zeta;
    repeat case_match; simpl; rewrite ?Hp, ?filter_self_pid; try congruence;
    repeat split; reflexivity.
Qed.

Lemma fetchSettled_ok (w : World) (p : PendingSend) (status : Z) (te : Tick) :
  inflight w = [p] → phase p = AwaitFetch → Js.ok status = true →
  inflight (fetchSettled (pid p) (FetchResolved status) te w) = [set_phase AwaitJson p]
  ∧ page (fetchSettled (pid p) (FetchResolved status) te w) = page w
  ∧ timers (fetchSettled (pid p) (FetchResolved status) te w)
    = filter (λ tm, tid tm ≠ pid p) (timers w).
Proof.
  intros Hp Hph Hok. unfold fetchSettled, findPending. rewrite Hp. simpl.
  rewrite Nat.eqb_refl, Hph, Hok. simpl. rewrite Hp. simpl. rewrite Nat.eqb_refl.
  repeat split; reflexivity.
Qed.

(** ** Timers *)
Lemma filter_fresh (l : list Timer) (n m : nat) :
  Forall (λ tm, (tid tm < n)%nat) l → (n ≤ m)%nat → filter (λ tm, tid tm ≠ m) l = l.
Proof.
  intros Hl Hnm. induction Hl as [|tm l Htm Hl IH]; [reflexivity|].
  rewrite filter_cons_True by lia. now rewrite IH.
Qed.

Lemma find_fresh (l l' : list Timer) (n m : nat) :
  Forall (λ tm, (tid tm < n)%nat) l → (n ≤ m)%nat →
  List.find (λ tm, (tid tm =? m)%nat) (l ++ l') = List.find (λ tm, (tid tm =? m)%nat) l'.
Proof.
  intros Hl Hnm. induction Hl as [|tm l Htm Hl IH]; [reflexivity|]. simpl.
  destruct (Nat.eqb_spec (tid tm) m); [lia|exact IH].
Qed.

(** ** Requests to /api/chat/message *)
Lemma posts_issue (r : Request) (w : World) :
  ¬ (method r = "POST"%string ∧ url r = "/api/chat/message"%string) →
  chat_posts (issue r w) = chat_posts w.
Proof.
  intros Hr. unfold chat_posts. simpl. rewrite filter_app, filter_cons_False by exact Hr.
  rewrite filter_nil. apply app_nil_r.
Qed.

Lemma posts_foldl_get (l : list (Session.t * option (list Turn.t))) (w0 w : World) :
  chat_posts
    (foldl (λ acc sh, issue (get ("/api/chat/history/" +:+ Session.id (fst sh)) w0) acc) w l)
  = chat_posts w.
Proof.
  revert w; induction l as [|sh l IH]; intros w; simpl; [reflexivity|].
  rewrite IH. apply posts_issue. intros [Hm _]. discriminate Hm.
Qed.

Ltac not_chat_post :=
  intros [Hm Hu]; simpl in Hm, Hu; first [discriminate Hm | discriminate Hu].

Lemma posts_selectConversation captured c w :
  chat_posts (selectConversation captured c w) = chat_posts w.
Proof. reflexivity. Qed.

Lemma posts_load captured r w :
  chat_posts (loadSessionsAndConversations captured r w) = chat_posts w.
Proof.
  unfold loadSessionsAndConversations. cbv zeta.
  assert (H0 : chat_posts (issue (get "/api/chat/sessions" w) w) = chat_posts w)
    by (apply posts_issue; not_chat_post).
  repeat case_match; rewrite ?posts_selectConversation;
    try exact H0;
    match goal with
    | |- chat_posts (with_page ?f ?x) = _ =>
        change (chat_posts (with_page f x)) with (chat_posts x)
    | _ => idtac
    end; rewrite ?posts_foldl_get; exact H0.
Qed.

Lemma posts_stats r w : chat_posts (loadUserStats r w) = chat_posts w.
Proof.
  unfold loadUserStats, userStatsSettled, requestUserStats.
  assert (H0 : chat_posts (issue (get "/api/user/stats" w) w) = chat_posts w)
    by (apply posts_issue; not_chat_post).
  repeat case_match; exact H0.
Qed.

Lemma posts_statsSettled r w : chat_posts (userStatsSettled r w) = chat_posts w.
Proof. unfold userStatsSettled. repeat case_match; reflexivity. Qed.

Lemma posts_create captured r w : chat_posts (createNewConversation captured r w) = chat_posts w.
Proof.
  unfold createNewConversation. cbv zeta.
  match goal with
  | |- context [issue ?r w] =>
      assert (H0 : chat_posts (issue r w) = chat_posts w)
        by (apply posts_issue; not_chat_post)
  end.
  repeat case_match; exact H0.
Qed.

Lemma posts_delete captured id r w : chat_posts (deleteConversation captured id r w) = chat_posts w.
Proof.
  unfold deleteConversation. cbv zeta.
  match goal with
  | |- context [issue ?r w] =>
      assert (H0 : chat_posts (issue r w) = chat_posts w)
        by (apply posts_issue; not_chat_post)
  end.
  repeat case_match; exact H0.
Qed.

Lemma posts_userInfo r w : chat_posts (fetchUserInfo r w) = chat_posts w.
Proof.
  unfold fetchUserInfo. cbv zeta.
  match goal with
  | |- context [issue ?r w] =>
      assert (H0 : chat_posts (issue r w) = chat_posts w)
        by (apply posts_issue; not_chat_post)
  end.
  repeat case_match; exact H0.
Qed.

Lemma posts_catchSend p e t w : chat_posts (catchSend p e t w) = chat_posts w.
Proof. unfold catchSend. cbv zeta. repeat case_match; reflexivity. Qed.

Lemma posts_finallySend p w : chat_posts (finallySend p w) = chat_posts w.
Proof. reflexivity. Qed.

Lemma posts_completeSend p r t w : chat_posts (completeSend p r t w) = chat_posts w.
Proof.
  unfold completeSend, requestUserStats. cbv zeta.
  repeat case_match;
    match goal with
    | |- chat_posts (setTimeout _ _ (issue ?r ?x)) = _ =>
        change (chat_posts (issue r x) = chat_posts w);
        rewrite posts_issue by not_chat_post; reflexivity
    end.
Qed.

Lemma posts_fetchSettled id r t w : chat_posts (fetchSettled id r t w) = chat_posts w.
Proof.
  unfold fetchSettled. cbv zeta.
  repeat case_match; rewrite ?posts_finallySend, ?posts_catchSend; reflexivity.
Qed.

Lemma posts_jsonSettled id r t w : chat_posts (jsonSettled id r t w) = chat_posts w.
Proof.
  unfold jsonSettled.
  repeat case_match; rewrite ?posts_finallySend, ?posts_catchSend, ?posts_completeSend;
    reflexivity.
Qed.

Lemma posts_fireTimer id t w : chat_posts (fireTimer id t w) = chat_posts w.
Proof.
  unfold fireTimer, abort. cbv zeta.
  repeat case_match; rewrite ?posts_fetchSettled, ?posts_jsonSettled; reflexivity.
Qed.

Lemma posts_step (w : World) (e : Event) :
  (∀ t, e ≠ EvSend t) → chat_posts (step w e) = chat_posts w.
Proof.
  intros He. destruct e; simpl;
    auto using posts_load, posts_stats, posts_statsSettled, posts_create, posts_delete,
      posts_userInfo, posts_fetchSettled, posts_jsonSettled, posts_fireTimer.
  now destruct (He t).
Qed.

(** ** A suspended send keeps what it closed over *)

Section Closure.
Variables (id : nat) (U : list Message.t).
#[local] Abbreviation K := (keeps_closure id U).

Lemma kc_frame (w w' : World) :
  inflight w' = inflight w → (next_timer w ≤ next_timer w')%nat → K w → K w'.
Proof. intros Hi Hn [H1 H2]. split; [lia|]. now rewrite Hi. Qed.

Lemma kc_with_page f w : K w → K (with_page f w).
Proof. apply kc_frame; simpl; auto. Qed.

Lemma kc_setTimeout a d w : K w → K (setTimeout a d w).
Proof. apply kc_frame; simpl; auto. Qed.

Lemma kc_clearTimeout i w : K w → K (clearTimeout i w).
Proof. apply kc_frame; simpl; auto. Qed.

Lemma kc_issue r w : K w → K (issue r w).
Proof. apply kc_frame; simpl; auto. Qed.

Lemma kc_removeToken w : K w → K (removeToken w).
Proof. apply kc_frame; simpl; auto. Qed.

Lemma kc_reload w : K w → K (reload w).
Proof. intros [H1 _]. split; [exact H1|constructor]. Qed.

Lemma kc_setUser u w : K w → K (setUser u w).
Proof. apply kc_frame; simpl; auto. Qed.

Lemma kc_foldl {B : Type} (g : World → B → World) (l : list B) (w : World) :
  (∀ acc x, K acc → K (g acc x)) → K w → K (foldl g w l).
Proof.
  intros Hg. revert w; induction l as [|x l IH]; intros w Hw; simpl; [exact Hw|].
  apply IH, Hg, Hw.
Qed.

Lemma kc_dropPending i w : K w → K (dropPending i w).
Proof.
  intros [H1 H2]. split; [exact H1|]. simpl.
  rewrite Forall_forall in *. intros q Hq. apply list_elem_of_filter in Hq. apply H2, Hq.
Qed.

Ltac kc_step :=
  lazymatch goal with
  | H : keeps_closure id U ?w |- keeps_closure id U ?w => exact H
  | |- keeps_closure _ _ (setTimeout _ _ _) => apply kc_setTimeout
  | |- keeps_closure _ _ (clearTimeout _ _) => apply kc_clearTimeout
  | |- keeps_closure _ _ (issue _ _) => apply kc_issue
  | |- keeps_closure _ _ (removeToken _) => apply kc_removeToken
  | |- keeps_closure _ _ (reload _) => apply kc_reload
  | |- keeps_closure _ _ (setUser _ _) => apply kc_setUser
  | |- keeps_closure _ _ (dropPending _ _) => apply kc_dropPending
  | |- keeps_closure _ _ (foldl _ _ _) => apply kc_foldl; [intros ? ? ?|]
  | |- keeps_closure _ _ (with_page _ _) => apply kc_with_page
  end.

Lemma kc_sendMessage t w : K w → K (sendMessage t w).
Proof.
  intros [Hlt Hall]. unfold sendMessage. repeat case_match; try (split; assumption).
  split; simpl; [lia|].
  apply Forall_app. split; [exact Hall|]. constructor; [|constructor].
  simpl. intros Hid. lia.
Qed.

Lemma kc_catchSend p e t w : K w → K (catchSend p e t w).
Proof. intros Hw. unfold catchSend. cbv zeta. repeat case_match; repeat kc_step. Qed.

Lemma kc_completeSend p r t w : K w → K (completeSend p r t w).
Proof.
  intros Hw. unfold completeSend, requestUserStats. cbv zeta.
  repeat case_match; repeat kc_step.
Qed.

Lemma kc_finallySend p w : K w → K (finallySend p w).
Proof. intros Hw. unfold finallySend. repeat kc_step. Qed.

Lemma kc_fetchSettled i r t w : K w → K (fetchSettled i r t w).
Proof.
  intros Hw. unfold fetchSettled. cbv zeta.
  repeat case_match; try exact Hw;
    try (apply kc_finallySend, kc_catchSend; repeat kc_step).
  destruct Hw as [Hlt Hall]. split; [exact Hlt|]. simpl.
  rewrite Forall_forall in *. intros q Hq.
  apply list_elem_of_fmap in Hq as (q0 & -> & Hq0).
  specialize (Hall q0 Hq0). destruct (pid q0 =? i)%nat; exact Hall.
Qed.

Lemma kc_jsonSettled i r t w : K w → K (jsonSettled i r t w).
Proof.
  intros Hw. unfold jsonSettled.
  repeat case_match; try exact Hw;
    first [apply kc_finallySend, kc_catchSend | apply kc_finallySend, kc_completeSend];
    exact Hw.
Qed.

Lemma kc_step_event w e : K w → K (step w e).
Proof.
  intros Hw. destruct e; simpl.
  - repeat kc_step.
  - repeat kc_step.
  - repeat kc_step.
  - unfold selectConversation. repeat kc_step.
  - unfold loadSessionsAndConversations, selectConversation. cbv zeta.
    repeat case_match; repeat kc_step.
  - unfold loadUserStats, userStatsSettled, requestUserStats.
    repeat case_match; repeat kc_step.
  - unfold userStatsSettled. repeat case_match; repeat kc_step.
  - unfold createNewConversation. cbv zeta. repeat case_match; repeat kc_step.
  - unfold deleteConversation. cbv zeta. repeat case_match; repeat kc_step.
  - now apply kc_sendMessage.
  - now apply kc_fetchSettled.
  - now apply kc_jsonSettled.
  - unfold fireTimer, abort. cbv zeta.
    repeat case_match;
      try apply kc_fetchSettled; try apply kc_jsonSettled; repeat kc_step.
  - unfold fetchUserInfo. cbv zeta. repeat case_match; repeat kc_step.
  - unfold logout. repeat kc_step.
Qed.

Lemma kc_run events w : K w → K (run w events).
Proof.
  revert w; induction events as [|e events IH]; intros w Hw; [exact Hw|].
  apply IH, kc_step_event, Hw.
Qed.
End Closure.

Lemma fetchSettled_interleaved (w1 : World) (p : PendingSend) (events : list Event)
    (r : FetchResult) (te : Tick) (q : PendingSend) :
  well_formed w1 → inflight w1 = [p] → (pid p < next_timer w1)%nat →
  fetch_failed r →
  findPending (pid p) (run w1 events) = Some q → phase q = AwaitFetch →
  Page.messages (page (fetchSettled (pid p) r te (run w1 events)))
  = updatedMessages p ++ [errorMessage te (errorContent (thrown r))]
  ∧ Page.loading (page (fetchSettled (pid p) r te (run w1 events))) = false.
Proof.
  intros Hwf Hin Hlt Hfail Hfind Hph.
  pose proof (wf_run events w1 Hwf) as (Hlen & _ & _).
  assert (HK : keeps_closure (pid p) (updatedMessages p) w1).
  { split; [exact Hlt|]. rewrite Hin. constructor; [auto|constructor]. }
  apply (kc_run _ _ events) in HK as [_ Hall].
  unfold findPending in Hfind.
  destruct (find_solo _ _ _ Hlen Hfind) as [Hq Hid].
  apply Nat.eqb_eq in Hid.
  rewrite Hq in Hall. inversion Hall as [|? ? Hupd _]; subst.
  specialize (Hupd Hid).
  destruct (fetchSettled_failed _ q r te Hq Hph Hfail) as (Hm & Hl & _).
  rewrite Hid in Hm, Hl. rewrite Hm, Hl, Hupd. auto.
Qed.


Lemma fetchSettled_401 (w : World) (p : PendingSend) (te : Tick) :
  inflight w = [p] → phase p = AwaitFetch →
  timers (fetchSettled (pid p) (FetchResolved 401) te w)
  = filter (λ tm, tid tm ≠ pid p) (timers w)
      ++ [ {| tid := next_timer w; delay := 3000; action := PurgeAndReload |};
           {| tid := S (next_timer w); delay := 150; action := FocusInput |} ].
Proof.
  intros Hp Hph. unfold fetchSettled, findPending. rewrite Hp. simpl.
  rewrite Nat.eqb_refl, Hph. simpl. now rewrite <- app_assoc.
Qed.


(** C4.  A send that fails (the fetch rejects, by a network failure or by
    the abort of the timeout, or its response is not OK, or the body of an OK
    response cannot be parsed) leaves as message list the list from before
    the send, then the user message appended on sending, then one synthetic
    message of role assistant, and the loading flag is down again and no send
    is suspended.  This holds whatever happened on the page between the send
    and the failure. *)
Theorem failing_send (u : option User) (tok : option string) (events : list Event)
    (t te : Tick) (r : FetchResult) :
  let w0 := reachable u tok events in
  let w1 := sendMessage t w0 in
  let prior := Page.messages (page w0) in
  let sent := userMessage t (Page.inputMessage (page w0)) in
  send_blocked w0 = false →
  fetch_failed r →
  Page.messages (page w1) = prior ++ [sent]
  ∧ Page.loading (page w1) = true
  ∧ Page.messages (page (fetchSettled (timeoutId_of w0) r te w1))
    = prior ++ [sent; errorMessage te (errorContent (thrown r))]
  ∧ Message.role (errorMessage te (errorContent (thrown r))) = assistant_role
  ∧ Page.loading (page (fetchSettled (timeoutId_of w0) r te w1)) = false
  ∧ inflight (fetchSettled (timeoutId_of w0) r te w1) = []
  ∧ (∀ status e te',
       Js.ok status = true →
       Page.messages
         (page (jsonSettled (timeoutId_of w0) (JsonRejected e) te'
                  (fetchSettled (timeoutId_of w0) (FetchResolved status) te w1)))
       = prior ++ [sent; errorMessage te' (errorContent e)]
       ∧ Page.loading
           (page (jsonSettled (timeoutId_of w0) (JsonRejected e) te'
                    (fetchSettled (timeoutId_of w0) (FetchResolved status) te w1)))
         = false)
  ∧ (∀ events' q,
       findPending (timeoutId_of w0) (run w1 events') = Some q → phase q = AwaitFetch →
       Page.messages (page (fetchSettled (timeoutId_of w0) r te (run w1 events')))
       = prior ++ [sent; errorMessage te (errorContent (thrown r))]
       ∧ Page.loading (page (fetchSettled (timeoutId_of w0) r te (run w1 events'))) = false).
Proof.
  intros w0 w1 prior sent Hb Hfail.
  pose proof (wf_reachable u tok events) as Hwf. fold w0 in Hwf.
  destruct (sendMessage_unblocked t w0 Hwf Hb)
    as (session & u' & Hs & Hu & Hpage & Hin & Htm & Hnt & Hreq & Htok & Husr & Hrl).
  fold w1 in Hpage, Hin, Htm, Hnt, Hreq, Htok, Husr, Hrl.
  set (p := {| pid := S (next_timer w0); phase := AwaitFetch;
               updatedMessages := prior ++ [sent];
               sentInput := Page.inputMessage (page w0);
               sentConversation := Page.currentConversation (page w0);
               sentConversations := Page.conversations (page w0) |}) in *.
  change (timeoutId_of w0) with (pid p).
  destruct (fetchSettled_failed w1 p r te Hin eq_refl Hfail) as (Hm & Hl & Hi & _).
  split; [now rewrite Hpage|]. split; [now rewrite Hpage|].
  split; [rewrite Hm; simpl; now rewrite <- app_assoc|].
  split; [reflexivity|]. split; [exact Hl|]. split; [exact Hi|].
  split.
  - intros status e te' Hok.
    destruct (fetchSettled_ok w1 p status te Hin eq_refl Hok) as (Hi' & _).
    destruct (jsonSettled_failed _ (set_phase AwaitJson p) e te' Hi' eq_refl)
      as (Hm' & Hl' & _).
    change (pid (set_phase AwaitJson p)) with (pid p) in Hm', Hl'.
    rewrite Hm', Hl'. simpl. now rewrite <- app_assoc.
  - intros events' q Hfind Hph.
    assert (Hwf1 : well_formed w1) by (apply wf_sendMessage, Hwf).
    assert (Hlt : (pid p < next_timer w1)%nat) by (rewrite Hnt; simpl; lia).
    destruct (fetchSettled_interleaved w1 p events' r te q Hwf1 Hin Hlt Hfail Hfind Hph)
      as [Hm' Hl'].
    rewrite Hm', Hl'. simpl. now rewrite <- app_assoc.
Qed.


Lemma failing_send_witness :
  send_blocked (reachable (Some alice) (Some "tok"%string) ready_events) = false
  ∧ fetch_failed (FetchResolved 500)
  ∧ Page.messages
      (page (fetchSettled 2 (FetchResolved 500) tick2
               (sendMessage tick1 (reachable (Some alice) (Some "tok"%string) ready_events))))
    = [ Message.mk "1714557600000" user_role "Hello" "2024-05-01T10:00:00.000Z";
        Message.mk "1714557601501" assistant_role
          "Sorry, I encountered an error. Please try again." "2024-05-01T10:00:01.500Z" ]
  ∧ Page.loading
      (page (fetchSettled 2 (FetchResolved 500) tick2
               (sendMessage tick1 (reachable (Some alice) (Some "tok"%string) ready_events))))
    = false.
Proof.
  split; [reflexivity|]. split; [reflexivity|].
  pose proof (failing_send (Some alice) (Some "tok"%string) ready_events tick1 tick2
                (FetchResolved 500) eq_refl eq_refl) as H.
  cbv zeta in H. destruct H as (_ & _ & Hm & _ & Hl & _).
  split; [exact Hm | exact Hl].
Defined.


(** C6, amended.  A 401 answer to the session-list request removes the
    token and reloads the page at once.  A 401 answer to the send request
    appends the session-expired assistant message, keeps the token for the
    moment and sets a timer of 3000 ms that removes the token and reloads the
    page.  A 401 answer to the identity lookup removes the token and clears
    the user, which ends the authenticated state.  The stats, create-session
    and delete-session requests never touch the token nor reload the page. *)
Theorem unauthorized_purge (u : option User) (tok : option string) (events : list Event)
    (t te tf : Tick) :
  let w0 := reachable u tok events in
  let w1 := sendMessage t w0 in
  let w2 := fetchSettled (timeoutId_of w0) (FetchResolved 401) te w1 in
  let purge := S (S (next_timer w0)) in
  send_blocked w0 = false →
  (∀ captured body w,
     token (loadSessionsAndConversations captured (Responded 401 body) w) = None
     ∧ reloads (loadSessionsAndConversations captured (Responded 401 body) w)
       = S (reloads w))
  ∧ Page.messages (page w2)
    = Page.messages (page w0)
        ++ [ userMessage t (Page.inputMessage (page w0));
             errorMessage te
               "Your session has expired. Please refresh the page and log in again." ]
  ∧ token w2 = token w0 ∧ reloads w2 = reloads w0
  ∧ timers w2
    = timers w0 ++ [ {| tid := next_timer w0; delay := 0; action := FocusInput |};
                     {| tid := purge; delay := 3000; action := PurgeAndReload |};
                     {| tid := S purge; delay := 150; action := FocusInput |} ]
  ∧ token (fireTimer purge tf w2) = None
  ∧ reloads (fireTimer purge tf w2) = S (reloads w0)
  ∧ (∀ body w,
       token (fetchUserInfo (Responded 401 body) w) = None
       ∧ user (fetchUserInfo (Responded 401 body) w) = None
       ∧ isAuthenticated (fetchUserInfo (Responded 401 body) w) = false)
  ∧ (∀ w rs captured rc conversationId rd,
       (token (loadUserStats rs w) = token w ∧ reloads (loadUserStats rs w) = reloads w)
       ∧ (token (createNewConversation captured rc w) = token w
          ∧ reloads (createNewConversation captured rc w) = reloads w)
       ∧ (token (deleteConversation captured conversationId rd w) = token w
          ∧ reloads (deleteConversation captured conversationId rd w) = reloads w)).
Proof.
  intros w0 w1 w2 purge Hb.
  pose proof (wf_reachable u tok events) as Hwf. fold w0 in Hwf.
  destruct (sendMessage_unblocked t w0 Hwf Hb)
    as (session & u' & Hs & Hu & Hpage & Hin & Htm & Hnt & Hreq & Htok & Husr & Hrl).
  fold w1 in Hpage, Hin, Htm, Hnt, Hreq, Htok, Husr, Hrl.
  set (p := {| pid := S (next_timer w0); phase := AwaitFetch;
               updatedMessages :=
                 Page.messages (page w0) ++ [userMessage t (Page.inputMessage (page w0))];
               sentInput := Page.inputMessage (page w0);
               sentConversation := Page.currentConversation (page w0);
               sentConversations := Page.conversations (page w0) |}) in *.
  assert (Hfresh : Forall (λ tm, (tid tm < next_timer w0)%nat) (timers w0))
    by apply Hwf.
  destruct (fetchSettled_failed w1 p (FetchResolved 401) te Hin eq_refl eq_refl)
    as (Hm & _ & _ & _ & Htok2 & Hrl2).
  pose proof (fetchSettled_401 w1 p te Hin eq_refl) as Htm2.
  change (fetchSettled (pid p) (FetchResolved 401) te w1) with w2 in Hm, Htok2, Hrl2, Htm2.
  assert (Htimers : timers w2
    = timers w0 ++ [ {| tid := next_timer w0; delay := 0; action := FocusInput |};
                     {| tid := purge; delay := 3000; action := PurgeAndReload |};
                     {| tid := S purge; delay := 150; action := FocusInput |} ]).
  { rewrite Htm2, Htm, Hnt, filter_app.
    rewrite (filter_fresh (timers w0) (next_timer w0) (pid p) Hfresh) by (simpl; lia).
    rewrite filter_cons_True by (simpl; lia).
    rewrite filter_cons_False by (simpl; intros H; now apply H).
    rewrite filter_nil, <- app_assoc. reflexivity. }
  split.
  { intros captured body w. unfold loadSessionsAndConversations. simpl. auto. }
  split; [rewrite Hm; simpl; now rewrite <- app_assoc|].
  split; [congruence|]. split; [congruence|]. split; [exact Htimers|].
  assert (Hfire : fireTimer purge tf w2 = reload (removeToken (clearTimeout purge w2))).
  { unfold fireTimer. rewrite Htimers.
    rewrite (find_fresh (timers w0) _ (next_timer w0) purge Hfresh) by (unfold purge; lia).
    simpl. destruct (Nat.eqb_spec (next_timer w0) purge) as [E|_]; [unfold purge in E; lia|].
    rewrite Nat.eqb_refl. reflexivity. }
  rewrite Hfire. simpl. split; [reflexivity|]. split; [congruence|].
  split.
  - intros body w. unfold fetchUserInfo. simpl. destruct body; auto.
  - intros w rs captured rc conversationId rd.
    unfold loadUserStats, userStatsSettled, requestUserStats, createNewConversation,
      deleteConversation.
    cbv zeta. repeat case_match; simpl; auto.
Qed.


Lemma unauthorized_purge_witness :
  send_blocked (reachable (Some alice) (Some "tok"%string) ready_events) = false
  ∧ token (fetchSettled 2 (FetchResolved 401) tick2
             (sendMessage tick1 (reachable (Some alice) (Some "tok"%string) ready_events)))
    = Some "tok"%string
  ∧ token (fireTimer 3 tick3
             (fetchSettled 2 (FetchResolved 401) tick2
                (sendMessage tick1 (reachable (Some alice) (Some "tok"%string) ready_events))))
    = None.
Proof.
  split; [reflexivity|].
  pose proof (unauthorized_purge (Some alice) (Some "tok"%string) ready_events tick1 tick2
                tick3 eq_refl) as H.
  cbv zeta in H. destruct H as (_ & _ & Ht & _ & _ & Hp & _).
  split; [exact Ht | exact Hp].
Defined.


(** C6 as stated fails: the stats request is an authenticated call, and
    after a 401 answer to it the token is still stored, the page was not
    reloaded and no timer is pending that would do so. *)
Lemma stats_401_keeps_credential :
  ¬ purges_credential
      (reachable (Some alice) (Some "tok"%string) [])
      (loadUserStats
         (Responded 401 (Some {| total_conversations := None; total_tokens := None |}))
         (reachable (Some alice) (Some "tok"%string) [])).
Proof.
  intros [[Htok _]|(tm & Hin & _)].
  - discriminate Htok.
  - simpl in Hin. inversion Hin.
Qed.

(** C10.  In every reachable world at most one send is suspended, and the
    loading flag is up while one is.  When the loading flag is up, or the
    input is empty or white space only, or no session is selected, or no user
    is present, sendMessage returns the world as it is (no request, no change
    of the message list, the input or the loading flag) and the send button is
    disabled; whenever sendMessage changes anything the button was enabled. *)
Theorem send_guard (u : option User) (tok : option string) (events : list Event) (t : Tick) :
  (length (inflight (reachable u tok events)) ≤ 1)%nat
  ∧ (inflight (reachable u tok events) ≠ [] →
     Page.loading (page (reachable u tok events)) = true)
  ∧ (∀ w, Page.loading (page w) = true
          ∨ whitespace_only (Page.inputMessage (page w))
          ∨ Page.currentSession (page w) = None
          ∨ user w = None →
          sendMessage t w = w ∧ sendDisabled w = true)
  ∧ (∀ w, sendMessage t w ≠ w → sendDisabled w = false).
Proof.
  destruct (wf_reachable u tok events) as (H1 & H2 & _).
  split; [exact H1|]. split; [exact H2|].
  assert (Hblk : ∀ w, Page.loading (page w) = true
          ∨ whitespace_only (Page.inputMessage (page w))
          ∨ Page.currentSession (page w) = None
          ∨ user w = None → send_blocked w = true).
  { intros w Hc. unfold send_blocked.
    destruct Hc as [Hl|[Hws|[Hs|Hu]]].
    - rewrite Hl. now rewrite orb_true_r.
    - apply trim_empty in Hws. now rewrite Hws.
    - rewrite Hs. simpl. now rewrite orb_true_r.
    - rewrite Hu. simpl. now rewrite orb_true_r. }
  split.
  - intros w Hc. apply Hblk in Hc. split; [|exact Hc].
    unfold sendMessage. now rewrite Hc.
  - intros w Hne. change (sendDisabled w) with (send_blocked w).
    destruct (send_blocked w) eqn:E; [|reflexivity].
    exfalso. apply Hne. unfold sendMessage. now rewrite E.
Qed.

Lemma send_guard_witness :
  whitespace_only
    (Page.inputMessage
       (page (reachable (Some alice) (Some "tok"%string)
                [ EvCreate Page.initial (Responded 200 (Some session_B)); EvInput "  " ])))
  ∧ sendMessage tick1
      (reachable (Some alice) (Some "tok"%string)
         [ EvCreate Page.initial (Responded 200 (Some session_B)); EvInput "  " ])
    = reachable (Some alice) (Some "tok"%string)
        [ EvCreate Page.initial (Responded 200 (Some session_B)); EvInput "  " ].
Proof.
  assert (Hws : whitespace_only
    (Page.inputMessage
       (page (reachable (Some alice) (Some "tok"%string)
                [ EvCreate Page.initial (Responded 200 (Some session_B)); EvInput "  " ])))).
  { simpl. repeat split. }
  split; [exact Hws|].
  destruct (send_guard (Some alice) (Some "tok"%string) [] tick1) as (_ & _ & Hg & _).
  apply Hg. right. left. exact Hws.
Defined.

(** * Further properties *)

(** ** Further properties of init.sql *)

Lemma references_iff (deleted : list Db.SessionRow) (c : Db.ConversationRow) :
  Db.references deleted c ↔ ∃ s, s ∈ deleted ∧ Db.c_session_id c = Some (Db.s_id s).
Proof. reflexivity. Qed.

Lemma delete_sessions_where_fk (P : Db.SessionRow → Prop) `{∀ s, Decision (P s)}
    (db : Db.t) :
  session_fk_ok db → session_fk_ok (fst (Db.delete_sessions_where P db)).
Proof.
  intros Hfk c sid Hc Hsid. simpl in Hc.
  apply list_elem_of_filter in Hc as [Hfree Hc].
  destruct (Hfk c sid Hc Hsid) as (s & Hs & Hid).
  exists s. split; [|exact Hid].
  apply delete_sessions_where_sessions. split; [exact Hs|].
  intros HP. apply Hfree. exists s. split; [|congruence].
  apply list_elem_of_filter. auto.
Qed.

(** X1.  The cascade keeps [conversations.session_id] sound: when every turn
    that names a session names an existing one, the same holds after
    [clean_expired_sessions], and after any DELETE on [sessions]. *)
Theorem sweep_keeps_session_references (now : Z) (db : Db.t) :
  session_fk_ok db →
  session_fk_ok (fst (Db.clean_expired_sessions now db))
  ∧ (∀ (P : Db.SessionRow → Prop) (dec : ∀ s, Decision (P s)),
       session_fk_ok (fst (Db.delete_sessions_where P db))).
Proof.
  intros Hfk. split.
  - now apply delete_sessions_where_fk.
  - intros P dec. now apply delete_sessions_where_fk.
Qed.

Lemma sample_db_fk : session_fk_ok sample_db.
Proof.
  intros c sid Hc Hsid. unfold sample_db in Hc. simpl in Hc.
  repeat match goal with
         | H : _ ∈ _ :: _ |- _ => apply elem_of_cons in H as [->|H]
         | H : _ ∈ [] |- _ => inversion H
         end; simpl in Hsid; injection Hsid as <-;
    first [ exists (session_row "s1" "alice" 1000 4999); split; [|reflexivity]
          | exists (session_row "s3" "alice" 2000 9000); split; [|reflexivity] ];
    unfold sample_db; simpl;
    repeat first [apply list_elem_of_here | apply list_elem_of_further].
Qed.

Lemma sweep_keeps_session_references_witness :
  session_fk_ok (fst (Db.clean_expired_sessions 5000 sample_db)).
Proof. exact (proj1 (sweep_keeps_session_references 5000 sample_db sample_db_fk)). Defined.

Lemma references_split (now1 now2 : Z) (l : list Db.SessionRow) (c : Db.ConversationRow) :
  now1 <= now2 →
  (¬ Db.references
       (filter (λ s, Db.s_expires_at s < now2)
          (filter (λ s, ¬ Db.s_expires_at s < now1) l)) c
   ∧ ¬ Db.references (filter (λ s, Db.s_expires_at s < now1) l) c)
  ↔ ¬ Db.references (filter (λ s, Db.s_expires_at s < now2) l) c.
Proof.
  intros Hle. unfold Db.references. split.
  - intros [H2 H1] (s & Hs & Hc). apply list_elem_of_filter in Hs as [Hexp Hin].
    destruct (decide (Db.s_expires_at s < now1)) as [Hlt|Hge].
    + apply H1. exists s. split; [|exact Hc]. apply list_elem_of_filter. auto.
    + apply H2. exists s. split; [|exact Hc].
      apply list_elem_of_filter. split; [exact Hexp|].
      apply list_elem_of_filter. auto.
  - intros H. split; intros (s & Hs & Hc); apply H; exists s; (split; [|exact Hc]).
    + apply list_elem_of_filter in Hs as [Hexp Hin].
      apply list_elem_of_filter in Hin as [_ Hin]. apply list_elem_of_filter. auto.
    + apply list_elem_of_filter in Hs as [Hexp Hin]. apply list_elem_of_filter.
      split; [lia|exact Hin].
Qed.

(** X2.  Sweeps compose: a sweep at [now1] followed by a sweep at a later (or
    the same) time [now2] leaves the database a single sweep at [now2] leaves,
    the two counts add up to the count of the single sweep, and a sweep that
    follows a later or equal sweep deletes nothing and returns 0. *)
Theorem sweeps_compose (now1 now2 : Z) (db : Db.t) :
  now1 <= now2 →
  fst (Db.clean_expired_sessions now2 (fst (Db.clean_expired_sessions now1 db)))
  = fst (Db.clean_expired_sessions now2 db)
  ∧ snd (Db.clean_expired_sessions now1 db)
    + snd (Db.clean_expired_sessions now2 (fst (Db.clean_expired_sessions now1 db)))
    = snd (Db.clean_expired_sessions now2 db)
  ∧ Db.clean_expired_sessions now1 (fst (Db.clean_expired_sessions now2 db))
    = (fst (Db.clean_expired_sessions now2 db), 0).
Proof.
  intros Hle. unfold Db.clean_expired_sessions, Db.delete_sessions_where. simpl.
  split; [|split].
  - f_equal.
    + rewrite list_filter_filter. apply list_filter_iff. intros s. lia.
    + rewrite list_filter_filter. apply list_filter_iff. intros c.
      apply references_split, Hle.
  - rewrite <- Nat2Z.inj_add. f_equal.
    rewrite <- (Permutation_length
                  (filter_app_complement (λ s, Db.s_expires_at s < now1)
                     (filter (λ s, Db.s_expires_at s < now2) (Db.sessions db)))).
    rewrite length_app, !list_filter_filter. f_equal.
    + f_equal. apply list_filter_iff. intros s. lia.
    + f_equal. apply list_filter_iff. intros s. lia.
  - assert (Hnone : filter (λ s, Db.s_expires_at s < now1)
                      (filter (λ s, ¬ Db.s_expires_at s < now2) (Db.sessions db)) = []).
    { rewrite list_filter_filter. induction (Db.sessions db) as [|s l IH]; [reflexivity|].
      rewrite filter_cons_False by lia. exact IH. }
    rewrite Hnone. simpl. f_equal. f_equal.
    + rewrite list_filter_filter. apply list_filter_iff. intros s. lia.
    + induction (filter _ (Db.conversations db)) as [|c l IH]; [reflexivity|].
      rewrite filter_cons_True; [now rewrite IH|].
      intros (s & Hs & _). inversion Hs.
Qed.

Lemma sweeps_compose_witness :
  4000 <= 5000
  ∧ fst (Db.clean_expired_sessions 5000 (fst (Db.clean_expired_sessions 4000 sample_db)))
    = fst (Db.clean_expired_sessions 5000 sample_db).
Proof.
  assert (H : 4000 <= 5000) by lia.
  split; [exact H|]. exact (proj1 (sweeps_compose 4000 5000 sample_db H)).
Defined.

Lemma owned_by_true (deleted : list Schema.UserRow) (o : option string) :
  Schema.owned_by deleted o = true ↔ ∃ u, u ∈ deleted ∧ o = Some (Schema.u_id u).
Proof.
  unfold Schema.owned_by. destruct o as [uid|].
  - rewrite bool_decide_eq_true. change (map Schema.u_id deleted) with (Schema.u_id <$> deleted).
    rewrite list_elem_of_fmap. split.
    + intros (u & -> & Hu). eauto.
    + intros (u & Hu & [= ->]). eauto.
  - split; [discriminate|]. intros (u & _ & [=]).
Qed.

Lemma owned_by_false (deleted : list Schema.UserRow) (u : Schema.UserRow) (o : option string) :
  Schema.owned_by deleted o = false → u ∈ deleted → o ≠ Some (Schema.u_id u).
Proof.
  intros Hf Hu Ho. assert (Ht : Schema.owned_by deleted o = true).
  { apply owned_by_true. eauto. }
  congruence.
Qed.

(** X3.  Deleting users removes every session, turn and analytics row
    that references one of them, and the turns of the sessions so removed;
    the references that were sound before are sound after; an analytics row
    of another user stays, also when the session it names is gone. *)
Theorem delete_user_cascade (P : Schema.UserRow → Prop) `{∀ u, Decision (P u)}
    (db : Schema.t) :
  (∀ u, u ∈ Schema.users db → P u →
        (∀ s, s ∈ Db.sessions (Schema.chat (Schema.delete_users_where P db)) →
              Db.s_user_id s ≠ Some (Schema.u_id u))
        ∧ (∀ c, c ∈ Db.conversations (Schema.chat (Schema.delete_users_where P db)) →
                Db.c_user_id c ≠ Some (Schema.u_id u))
        ∧ (∀ a, a ∈ Schema.analytics (Schema.delete_users_where P db) →
                Schema.a_user_id a ≠ Some (Schema.u_id u)))
  ∧ (session_fk_ok (Schema.chat db) →
     session_fk_ok (Schema.chat (Schema.delete_users_where P db)))
  ∧ (user_fk_ok db → user_fk_ok (Schema.delete_users_where P db))
  ∧ (∀ a, a ∈ Schema.analytics db →
          Schema.owned_by (filter P (Schema.users db)) (Schema.a_user_id a) = false →
          a ∈ Schema.analytics (Schema.delete_users_where P db)).
Proof.
  split; [|split; [|split]].
  - intros u Hu HP.
    assert (Hdel : u ∈ filter P (Schema.users db)) by (apply list_elem_of_filter; auto).
    split; [|split].
    + intros s Hs. simpl in Hs. apply list_elem_of_filter in Hs as [Hf _].
      exact (owned_by_false _ u _ Hf Hdel).
    + intros c Hc. simpl in Hc. apply list_elem_of_filter in Hc as [[Hf _] _].
      exact (owned_by_false _ u _ Hf Hdel).
    + intros a Ha. simpl in Ha. apply list_elem_of_filter in Ha as [Hf _].
      exact (owned_by_false _ u _ Hf Hdel).
  - intros Hfk c sid Hc Hsid. simpl in Hc.
    apply list_elem_of_filter in Hc as [[_ Hfree] Hc].
    destruct (Hfk c sid Hc Hsid) as (s & Hs & Hid).
    exists s. split; [|exact Hid]. simpl. apply list_elem_of_filter. split; [|exact Hs].
    destruct (Schema.owned_by _ (Db.s_user_id s)) eqn:E; [|reflexivity].
    exfalso. apply Hfree. exists s. split; [|congruence].
    apply list_elem_of_filter. auto.
  - intros (Hs & Hc & Ha).
    assert (Hkeep : ∀ o uid, Schema.owned_by (filter P (Schema.users db)) o = false →
                             o = Some uid →
                             (∃ u, u ∈ Schema.users db ∧ Schema.u_id u = uid) →
                             ∃ u, u ∈ Schema.users (Schema.delete_users_where P db)
                                  ∧ Schema.u_id u = uid).
    { intros o uid Hf -> (u & Hu & Hid). exists u. split; [|exact Hid].
      simpl. apply list_elem_of_filter. split; [|exact Hu].
      intros HP. revert Hf. apply not_false_iff_true, owned_by_true.
      exists u. split; [apply list_elem_of_filter; auto|congruence]. }
    split; [|split].
    + intros s uid Hin Huid. simpl in Hin. apply list_elem_of_filter in Hin as [Hf Hin].
      eapply Hkeep; eauto.
    + intros c uid Hin Huid. simpl in Hin. apply list_elem_of_filter in Hin as [[Hf _] Hin].
      eapply Hkeep; eauto.
    + intros a uid Hin Huid. simpl in Hin. apply list_elem_of_filter in Hin as [Hf Hin].
      eapply Hkeep; eauto.
  - intros a Ha Hf. simpl. apply list_elem_of_filter. auto.
Qed.

(** Deleting alice: her three sessions, three turns and her analytics row
    go; bob's session, turn and analytics row stay, the latter still naming
    the removed session s1. *)
Lemma delete_user_cascade_witness :
  Schema.delete_users_where (λ u, Schema.u_id u = "alice"%string) sample_schema
  = {| Schema.users := [ user_row "bob" "bob" ];
       Schema.chat :=
         {| Db.sessions := [ session_row "s4" "bob" 3000 9500 ];
            Db.conversations := [ turn_row "c4" "bob" "s4" 3100 ] |};
       Schema.analytics := [ event_row "e2" "bob" "s1" ] |}
  ∧ (∀ s, s ∈ Db.sessions
                (Schema.chat
                   (Schema.delete_users_where (λ u, Schema.u_id u = "alice"%string)
                      sample_schema)) →
          Db.s_user_id s ≠ Some "alice"%string).
Proof.
  split; [vm_compute; reflexivity|].
  destruct (delete_user_cascade (λ u, Schema.u_id u = "alice"%string) sample_schema)
    as (Hgone & _).
  destruct (Hgone (user_row "alice" "alice")) as (Hs & _).
  - apply list_elem_of_here.
  - reflexivity.
  - exact Hs.
Defined.

(** ** Properties of AuthContext.tsx and App.tsx *)

Lemma or_else_nonempty (a b : string) : b ≠ ""%string → Js.or_else a b ≠ ""%string.
Proof. unfold Js.or_else. destruct a; simpl; [auto|discriminate]. Qed.

Lemma fetchUserInfo_outcome (me : AuthContext.Fetched) (s : AuthContext.t) :
  AuthContext.loading (AuthContext.fetchUserInfo me s) = false
  ∧ ((∃ status userData,
        me = AuthContext.Answered status (AuthContext.Parsed userData)
        ∧ Js.ok status = true
        ∧ AuthContext.user (AuthContext.fetchUserInfo me s) = userData
        ∧ AuthContext.token (AuthContext.fetchUserInfo me s) = AuthContext.token s)
     ∨ ((∀ status userData,
           me = AuthContext.Answered status (AuthContext.Parsed userData) →
           Js.ok status = false)
        ∧ AuthContext.user (AuthContext.fetchUserInfo me s) = AuthContext.Null
        ∧ AuthContext.token (AuthContext.fetchUserInfo me s) = None)).
Proof.
  unfold AuthContext.fetchUserInfo. cbv zeta.
  destruct me as [m|status [m|userData]]; simpl.
  - split; [reflexivity|]. right. split; [discriminate|auto].
  - destruct (Js.ok status); (split; [reflexivity|]); right; (split; [discriminate|auto]).
  - destruct (Js.ok status) eqn:E; (split; [reflexivity|]).
    + left. exists status, userData. auto.
    + right. split; [|auto]. intros status' u' [= -> ->]. exact E.
Qed.

(** A value some property of which can be read lets every property be read. *)
Lemma get_some (k k' : string) (data v : AuthContext.Value) :
  AuthContext.get k data = Some v → ∃ v', AuthContext.get k' data = Some v'.
Proof. destruct data; simpl; intros [=]; eauto. Qed.

(** X4.  [login] resolves exactly when the login answer is OK, its body
    parses to a value that is not null, and what the body holds as
    access_token can be converted to a string; in particular an OK answer
    whose body is null makes it throw.  What it throws has a non-empty
    message and leaves user, token and loading flag as they were.  When it
    resolves, the loading flag is down, and the outcome is that of the
    identity lookup: the visitor is authenticated exactly when the lookup is
    answered OK with a body that parses to a truthy value; the stored token
    is removed exactly when the lookup is not answered OK with a parsable
    body; so a lookup answered OK with null (or 0, false, the empty string)
    leaves the new token stored and nobody authenticated. *)
Theorem login_outcome (engine : AuthContext.Engine) (r me : AuthContext.Fetched)
    (s : AuthContext.t) :
  let out := AuthContext.login engine r me s in
  (snd out = None
   ↔ ∃ status data access_token stored,
       r = AuthContext.Answered status (AuthContext.Parsed data)
       ∧ Js.ok status = true
       ∧ AuthContext.get "access_token" data = Some access_token
       ∧ AuthContext.toString access_token = Some stored)
  ∧ (∀ status, r = AuthContext.Answered status (AuthContext.Parsed AuthContext.Null) →
               ∃ m, snd out = Some m)
  ∧ (∀ m, snd out = Some m →
          m ≠ ""%string
          ∧ AuthContext.user (fst out) = AuthContext.user s
          ∧ AuthContext.token (fst out) = AuthContext.token s
          ∧ AuthContext.loading (fst out) = AuthContext.loading s)
  ∧ (snd out = None →
     AuthContext.loading (fst out) = false
     ∧ (AuthContext.isAuthenticated (fst out) = true
        ↔ ∃ status userData,
            me = AuthContext.Answered status (AuthContext.Parsed userData)
            ∧ Js.ok status = true ∧ AuthContext.truthy userData = true)
     ∧ (AuthContext.token (fst out) = None
        ↔ ∀ status userData,
            me = AuthContext.Answered status (AuthContext.Parsed userData) →
            Js.ok status = false)
     ∧ (∀ status userData,
          me = AuthContext.Answered status (AuthContext.Parsed userData) →
          Js.ok status = true →
          AuthContext.user (fst out) = userData
          ∧ ∃ status' data access_token stored,
              r = AuthContext.Answered status' (AuthContext.Parsed data)
              ∧ AuthContext.get "access_token" data = Some access_token
              ∧ AuthContext.toString access_token = Some stored
              ∧ AuthContext.token (fst out) = Some stored)).
Proof.
  cbv zeta. unfold AuthContext.login. cbv zeta.
  assert (Hthrown : ∀ s0 message,
    AuthContext.user s0 = AuthContext.user s → AuthContext.token s0 = AuthContext.token s →
    AuthContext.loading s0 = AuthContext.loading s →
    ∀ m, Some (Js.or_else message "Login failed") = Some m →
         m ≠ ""%string
         ∧ AuthContext.user s0 = AuthContext.user s
         ∧ AuthContext.token s0 = AuthContext.token s
         ∧ AuthContext.loading s0 = AuthContext.loading s).
  { intros s0 message Hu Ht Hl m [= <-]. split; [now apply or_else_nonempty|auto]. }
  destruct r as [m0|status [m0|data]]; simpl.
  - split; [split; [discriminate|intros (? & ? & ? & ? & [=] & _)]|].
    split; [intros ? [=]|]. split; [|discriminate]. now apply Hthrown.
  - split; [split; [discriminate|intros (? & ? & ? & ? & [=] & _)]|].
    split; [intros ? [=]|]. split; [|discriminate]. now apply Hthrown.
  - destruct (Js.ok status) eqn:Hok.
    + destruct (AuthContext.get "access_token" data) as [access_token|] eqn:Hget; simpl.
      2:{ split; [split; [discriminate|]|].
          { intros (st & d & a & x & [= -> ->] & _ & Hg & _). congruence. }
          split; [eauto|]. split; [|discriminate]. now apply Hthrown. }
      destruct (AuthContext.toString access_token) as [stored|] eqn:Hstr; simpl.
      2:{ split; [split; [discriminate|]|].
          { intros (st & d & a & x & [= -> ->] & _ & Hg & Hs). congruence. }
          split; [eauto|]. split; [|discriminate]. now apply Hthrown. }
      split; [split; [intros _; exists status, data, access_token, stored; auto|reflexivity]|].
      split.
      { intros st [= -> ->]. discriminate Hget. }
      split; [discriminate|]. intros _.
      destruct (fetchUserInfo_outcome me
                  (AuthContext.setItem stored
                     (AuthContext.fetch "/api/v1/auth/login" None s)))
        as [Hl [(st & u & -> & Hst & Hu & Ht)|(Hno & Hu & Ht)]].
      * split; [exact Hl|]. unfold AuthContext.isAuthenticated. rewrite Hu, Ht.
        split; [split|].
        -- intros Htr. exists st, u. auto.
        -- intros (st' & u' & [= -> ->] & _ & Htr). exact Htr.
        -- split; [split; [discriminate|]|].
           ++ intros Hall. specialize (Hall st u eq_refl). congruence.
           ++ intros st' u' [= -> ->] _. split; [reflexivity|].
              exists status, data, access_token, stored. auto.
      * split; [exact Hl|]. unfold AuthContext.isAuthenticated. rewrite Hu, Ht.
        split; [split|].
        -- discriminate.
        -- intros (st' & u' & -> & Hst & _). rewrite (Hno st' u' eq_refl) in Hst. discriminate.
        -- split; [split; [intros _; exact Hno|reflexivity]|].
           intros st' u' -> Hst. rewrite (Hno st' u' eq_refl) in Hst. discriminate.
    + split; [split|].
      { destruct (AuthContext.get "detail" data) as [d|]; simpl; [|discriminate].
        destruct (AuthContext.toString _); discriminate. }
      { intros (st & d & a & x & [= -> ->] & Hst & _). congruence. }
      split.
      { intros st [= -> ->]. simpl. eauto. }
      split.
      * destruct (AuthContext.get "detail" data) as [d|]; simpl; [|now apply Hthrown].
        destruct (AuthContext.toString _); now apply Hthrown.
      * destruct (AuthContext.get "detail" data) as [d|]; simpl; [|discriminate].
        destruct (AuthContext.toString _); discriminate.
Qed.

(** X5.  [register] resolves exactly when the answer is OK, its body parses
    to a value that is not null, and what the body holds as access_token can
    be converted to a string; what it throws has a non-empty message and
    leaves user and token as they were.  It asks the register endpoint once
    and nothing else, and never touches the loading flag.  When it resolves,
    the token stored is that string and the user is whatever the body holds as
    user, so that the visitor is authenticated exactly when that is a truthy
    value. *)
Theorem register_outcome (engine : AuthContext.Engine) (r : AuthContext.Fetched)
    (s : AuthContext.t) :
  let out := AuthContext.register engine r s in
  (snd out = None
   ↔ ∃ status data access_token stored,
       r = AuthContext.Answered status (AuthContext.Parsed data)
       ∧ Js.ok status = true
       ∧ AuthContext.get "access_token" data = Some access_token
       ∧ AuthContext.toString access_token = Some stored)
  ∧ AuthContext.fetched (fst out)
    = AuthContext.fetched s ++ [("/api/v1/auth/register"%string, None)]
  ∧ AuthContext.loading (fst out) = AuthContext.loading s
  ∧ (∀ m, snd out = Some m →
          m ≠ ""%string
          ∧ AuthContext.user (fst out) = AuthContext.user s
          ∧ AuthContext.token (fst out) = AuthContext.token s)
  ∧ (∀ status data access_token stored,
       r = AuthContext.Answered status (AuthContext.Parsed data) →
       Js.ok status = true →
       AuthContext.get "access_token" data = Some access_token →
       AuthContext.toString access_token = Some stored →
       AuthContext.token (fst out) = Some stored
       ∧ ∃ u, AuthContext.get "user" data = Some u
              ∧ AuthContext.user (fst out) = u
              ∧ AuthContext.isAuthenticated (fst out) = AuthContext.truthy u).
Proof.
  cbv zeta. unfold AuthContext.register. cbv zeta.
  assert (Hthrown : ∀ s0 message,
    AuthContext.user s0 = AuthContext.user s → AuthContext.token s0 = AuthContext.token s →
    ∀ m, Some (Js.or_else message "Registration failed") = Some m →
         m ≠ ""%string
         ∧ AuthContext.user s0 = AuthContext.user s
         ∧ AuthContext.token s0 = AuthContext.token s).
  { intros s0 message Hu Ht m [= <-]. split; [now apply or_else_nonempty|auto]. }
  destruct r as [m0|status [m0|data]]; simpl.
  - split; [split; [discriminate|intros (? & ? & ? & ? & [=] & _)]|].
    split; [reflexivity|]. split; [reflexivity|]. split; [now apply Hthrown|].
    intros ? ? ? ? [=].
  - split; [split; [discriminate|intros (? & ? & ? & ? & [=] & _)]|].
    split; [reflexivity|]. split; [reflexivity|]. split; [now apply Hthrown|].
    intros ? ? ? ? [=].
  - destruct (Js.ok status) eqn:Hok.
    + destruct (AuthContext.get "access_token" data) as [access_token|] eqn:Hget; simpl.
      2:{ split; [split; [discriminate|]|].
          { intros (st & d & a & x & [= -> ->] & _ & Hg & _). congruence. }
          split; [reflexivity|]. split; [reflexivity|]. split; [now apply Hthrown|].
          intros st d a x [= -> ->] _ Hg. congruence. }
      destruct (AuthContext.toString access_token) as [stored|] eqn:Hstr; simpl.
      2:{ split; [split; [discriminate|]|].
          { intros (st & d & a & x & [= -> ->] & _ & Hg & Hs). congruence. }
          split; [reflexivity|]. split; [reflexivity|]. split; [now apply Hthrown|].
          intros st d a x [= -> ->] _ Hg Hs. congruence. }
      destruct (get_some "access_token" "user" data access_token Hget) as [u Hu].
      rewrite Hu. simpl.
      split; [split; [intros _; exists status, data, access_token, stored; auto|reflexivity]|].
      split; [reflexivity|]. split; [reflexivity|]. split; [discriminate|].
      intros st d a x [= -> ->] _ Hg Hs.
      assert (x = stored) by congruence. subst x.
      split; [reflexivity|]. exists u. auto.
    + split; [split|].
      { destruct (AuthContext.get "detail" data) as [d|]; simpl; [|discriminate].
        destruct (AuthContext.toString _); discriminate. }
      { intros (st & d & a & x & [= -> ->] & Hst & _). congruence. }
      split.
      { destruct (AuthContext.get "detail" data) as [d|]; simpl; [|reflexivity].
        destruct (AuthContext.toString _); reflexivity. }
      split.
      { destruct (AuthContext.get "detail" data) as [d|]; simpl; [|reflexivity].
        destruct (AuthContext.toString _); reflexivity. }
      split.
      * destruct (AuthContext.get "detail" data) as [d|]; simpl; [|now apply Hthrown].
        destruct (AuthContext.toString _); now apply Hthrown.
      * intros st d a x [= -> ->] Hst. congruence.
Qed.

(** X6.  The effect run when the provider mounts always ends with the
    loading flag down.  Without a stored (non-empty) token it asks nothing
    and keeps user and token.  With one it asks the identity once, with that
    token as bearer; an answer that is OK and parsable sets the user to what
    the body parses to and keeps the token, whether or not that value is
    truthy; any other outcome clears the user and removes the token.  So an
    OK answer whose body is null leaves the token stored and nobody
    authenticated. *)
Theorem mount_outcome (me : AuthContext.Fetched) (s : AuthContext.t) :
  AuthContext.loading (AuthContext.mount me s) = false
  ∧ (AuthContext.token s = None ∨ AuthContext.token s = Some ""%string →
     AuthContext.fetched (AuthContext.mount me s) = AuthContext.fetched s
     ∧ AuthContext.user (AuthContext.mount me s) = AuthContext.user s
     ∧ AuthContext.token (AuthContext.mount me s) = AuthContext.token s)
  ∧ (∀ tok, AuthContext.token s = Some tok → tok ≠ ""%string →
            AuthContext.fetched (AuthContext.mount me s)
            = AuthContext.fetched s ++ [("/api/v1/auth/me"%string, Some ("Bearer " +:+ tok))]
            ∧ ((∃ status userData,
                  me = AuthContext.Answered status (AuthContext.Parsed userData)
                  ∧ Js.ok status = true
                  ∧ AuthContext.user (AuthContext.mount me s) = userData
                  ∧ AuthContext.token (AuthContext.mount me s) = Some tok
                  ∧ AuthContext.isAuthenticated (AuthContext.mount me s)
                    = AuthContext.truthy userData)
               ∨ ((∀ status userData,
                     me = AuthContext.Answered status (AuthContext.Parsed userData) →
                     Js.ok status = false)
                  ∧ AuthContext.user (AuthContext.mount me s) = AuthContext.Null
                  ∧ AuthContext.token (AuthContext.mount me s) = None
                  ∧ AuthContext.isAuthenticated (AuthContext.mount me s) = false)))
  ∧ (∀ tok status,
       AuthContext.token s = Some tok → tok ≠ ""%string → Js.ok status = true →
       me = AuthContext.Answered status (AuthContext.Parsed AuthContext.Null) →
       AuthContext.isAuthenticated (AuthContext.mount me s) = false
       ∧ AuthContext.token (AuthContext.mount me s) = Some tok).
Proof.
  assert (Hmain : ∀ tok, AuthContext.token s = Some tok → tok ≠ ""%string →
            AuthContext.mount me s = AuthContext.fetchUserInfo me s).
  { intros tok Htok Hne. unfold AuthContext.mount. rewrite Htok.
    destruct tok as [|c tok]; [congruence|reflexivity]. }
  split; [|split; [|split]].
  - unfold AuthContext.mount.
    destruct (AuthContext.token s) as [tok|]; [|reflexivity].
    destruct (Js.truthy tok); [|reflexivity]. apply fetchUserInfo_outcome.
  - unfold AuthContext.mount. intros [Hn|He]; rewrite ?Hn, ?He; simpl; auto.
  - intros tok Htok Hne. rewrite (Hmain tok Htok Hne).
    split.
    + unfold AuthContext.fetchUserInfo. cbv zeta. rewrite Htok.
      destruct me as [m|status [m|u]]; simpl; try reflexivity;
        destruct (Js.ok status); reflexivity.
    + destruct (fetchUserInfo_outcome me s)
        as [_ [(st & u & -> & Hst & Hu & Ht)|(Hno & Hu & Ht)]].
      * left. exists st, u. unfold AuthContext.isAuthenticated.
        rewrite Hu, Ht, Htok. auto.
      * right. unfold AuthContext.isAuthenticated. rewrite Hu, Ht. auto.
  - intros tok status Htok Hne Hok ->. rewrite (Hmain tok Htok Hne).
    unfold AuthContext.fetchUserInfo, AuthContext.isAuthenticated. cbv zeta.
    rewrite Hok. simpl. auto.
Qed.

(** X7.  The routes never loop: from every path at most two redirects lead
    to a screen.  An authenticated visitor always ends on the chat page at
    /chat; a visitor who is not ends on the register page when that is the
    path asked for and on the login page otherwise, never on the chat page.
    After [logout] the chat page is out of reach. *)
Theorem routes_settle (isAuthenticated : bool) (path : App.Path) (s : AuthContext.t) :
  App.render 2 isAuthenticated path
  = Some (if isAuthenticated then (App.ChatPath, App.ChatbotPage)
          else match path with
               | App.RegisterPath => (App.RegisterPath, App.RegisterPage)
               | _ => (App.LoginPath, App.LoginPage)
               end)
  ∧ App.render 1 false App.RootPath = None
  ∧ (∀ fuel p, App.render fuel (AuthContext.isAuthenticated (AuthContext.logout s)) path
               ≠ Some (p, App.ChatbotPage)).
Proof.
  split; [destruct isAuthenticated, path; reflexivity|].
  split; [reflexivity|].
  intros fuel p. change (AuthContext.isAuthenticated (AuthContext.logout s)) with false.
  destruct fuel as [|[|[|fuel]]], path; simpl; congruence.
Qed.

(** ** Further properties of ChatbotPage.tsx *)

Lemma fetchSettled_ok_eq (w : World) (p : PendingSend) (status : Z) (te : Tick) :
  inflight w = [p] → phase p = AwaitFetch → Js.ok status = true →
  fetchSettled (pid p) (FetchResolved status) te w
  = set_inflight [set_phase AwaitJson p] (clearTimeout (pid p) w).
Proof.
  intros Hp Hph Hok. unfold fetchSettled, findPending. rewrite Hp. simpl.
  rewrite Nat.eqb_refl, Hph, Hok. simpl. rewrite Hp. simpl. now rewrite Nat.eqb_refl.
Qed.

Lemma jsonSettled_value_eq (w : World) (p : PendingSend) (response : string) (te : Tick) :
  inflight w = [p] → phase p = AwaitJson →
  jsonSettled (pid p) (JsonValue response) te w
  = finallySend p (completeSend p response te w).
Proof.
  intros Hp Hph. unfold jsonSettled, findPending. rewrite Hp. simpl.
  now rewrite Nat.eqb_refl, Hph.
Qed.

(** What an answered send leaves, in terms of the send's closure [p]. *)
Lemma send_answered (w : World) (p : PendingSend) (status : Z) (response : string)
    (tf te : Tick) :
  inflight w = [p] → phase p = AwaitFetch → Js.ok status = true →
  let reply :=
    Message.mk (Js.toString (date_now te + 1)) assistant_role response (iso_now te) in
  let final := updatedMessages p ++ [reply] in
  let w3 :=
    jsonSettled (pid p) (JsonValue response) te
      (fetchSettled (pid p) (FetchResolved status) tf w) in
  Page.messages (page w3) = final
  ∧ Page.loading (page w3) = false
  ∧ inflight w3 = []
  ∧ Page.inputMessage (page w3) = Page.inputMessage (page w)
  ∧ requests w3 = requests w ++ [get "/api/user/stats" w]
  ∧ token w3 = token w ∧ reloads w3 = reloads w
  ∧ match sentConversation p with
    | Some cur =>
        let updated :=
          Conversation.mk (Conversation.id cur)
            (if (length final =? 2)%nat then Js.slice (sentInput p) 0 50 +:+ "..."
             else Conversation.title cur)
            final (Conversation.created_at cur) (Conversation.sessionId cur) in
        Page.currentConversation (page w3) = Some updated
        ∧ Page.conversations (page w3)
          = map (λ c, if String.eqb (Conversation.id c) (Conversation.id cur)
                      then updated else c) (sentConversations p)
    | None =>
        Page.currentConversation (page w3) = Page.currentConversation (page w)
        ∧ Page.conversations (page w3) = Page.conversations (page w)
    end.
Proof.
  intros Hp Hph Hok reply final w3. subst w3.
  rewrite (fetchSettled_ok_eq w p status tf Hp Hph Hok).
  pose proof (jsonSettled_value_eq
                (set_inflight [set_phase AwaitJson p] (clearTimeout (pid p) w))
                (set_phase AwaitJson p) response te eq_refl eq_refl) as Hj.
  change (pid (set_phase AwaitJson p)) with (pid p) in Hj. rewrite !Hj. clear Hj.
  unfold finallySend, completeSend, requestUserStats, dropPending. cbv zeta.
  change (sentConversation (set_phase AwaitJson p)) with (sentConversation p).
  destruct (sentConversation p) as [cur|]; simpl;
    rewrite ?filter_self_pid; repeat split; try reflexivity.
  all: rewrite filter_cons_False by (intros H; now apply H); reflexivity.
Qed.
Lemma length_two (A : Type) (l : list A) (a b : A) :
  (length (l ++ [a; b]) =? 2)%nat = match l with [] => true | _ => false end.
Proof.
  destruct l as [|x l]; [reflexivity|]. simpl. rewrite length_app. simpl.
  apply Nat.eqb_neq. lia.
Qed.

Lemma answered_from_reachable (u : option User) (tok : option string) (events : list Event)
    (t tf te : Tick) (status : Z) (response : string) :
  let w0 := reachable u tok events in
  let w1 := sendMessage t w0 in
  let w3 :=
    jsonSettled (timeoutId_of w0) (JsonValue response) te
      (fetchSettled (timeoutId_of w0) (FetchResolved status) tf w1) in
  let prior := Page.messages (page w0) in
  let sent := userMessage t (Page.inputMessage (page w0)) in
  let reply :=
    Message.mk (Js.toString (date_now te + 1)) assistant_role response (iso_now te) in
  send_blocked w0 = false → Js.ok status = true →
  Page.messages (page w3) = prior ++ [sent; reply]
  ∧ Page.loading (page w3) = false
  ∧ inflight w3 = []
  ∧ Page.inputMessage (page w3) = ""%string
  ∧ (∃ post, requests w3 = requests w0 ++ [post; get "/api/user/stats" w0]
             ∧ method post = "POST"%string ∧ url post = "/api/chat/message"%string)
  ∧ match Page.currentConversation (page w0) with
    | Some cur =>
        let updated :=
          Conversation.mk (Conversation.id cur)
            (match prior with
             | [] => Js.slice (Page.inputMessage (page w0)) 0 50 +:+ "..."
             | _ => Conversation.title cur
             end)
            (prior ++ [sent; reply]) (Conversation.created_at cur)
            (Conversation.sessionId cur) in
        Page.currentConversation (page w3) = Some updated
        ∧ Page.conversations (page w3)
          = map (λ c, if String.eqb (Conversation.id c) (Conversation.id cur)
                      then updated else c) (Page.conversations (page w0))
    | None =>
        Page.currentConversation (page w3) = None
        ∧ Page.conversations (page w3) = Page.conversations (page w0)
    end.
Proof.
  intros w0 w1 w3 prior sent reply Hb Hok.
  pose proof (wf_reachable u tok events) as Hwf. fold w0 in Hwf.
  destruct (sendMessage_unblocked t w0 Hwf Hb)
    as (session & u' & Hs & Hu & Hpage & Hin & Htm & Hnt & Hreq & Htok & Husr & Hrl).
  fold w1 in Hpage, Hin, Htm, Hnt, Hreq, Htok, Husr, Hrl.
  set (p := {| pid := S (next_timer w0); phase := AwaitFetch;
               updatedMessages := prior ++ [sent];
               sentInput := Page.inputMessage (page w0);
               sentConversation := Page.currentConversation (page w0);
               sentConversations := Page.conversations (page w0) |}) in *.
  destruct (send_answered w1 p status response tf te Hin eq_refl Hok)
    as (Hm & Hl & Hi & Hinp & Hrq & _ & _ & Hconv).
  change (jsonSettled (pid p) (JsonValue response) te
            (fetchSettled (pid p) (FetchResolved status) tf w1)) with w3
    in Hm, Hl, Hi, Hinp, Hrq, Hconv.
  split; [rewrite Hm; simpl; now rewrite <- app_assoc|].
  split; [exact Hl|]. split; [exact Hi|].
  split; [rewrite Hinp, Hpage; reflexivity|].
  split.
  { eexists. rewrite Hrq, Hreq, <- app_assoc. unfold get. rewrite Htok.
    split; [reflexivity|]. split; reflexivity. }
  simpl in Hconv. destruct (Page.currentConversation (page w0)) as [cur|] eqn:Hcur.
  - cbv zeta in Hconv. rewrite <- !app_assoc in Hconv. simpl in Hconv.
    rewrite length_two in Hconv. fold prior in Hconv.
    destruct Hconv as [Hc1 Hc2]. cbv zeta. destruct prior; split; assumption.
  - destruct Hconv as [Hc1 Hc2]. rewrite Hc1, Hc2, Hpage. simpl. rewrite Hcur.
    split; reflexivity.
Qed.

(** X8.  A send that is answered OK with a parsable body leaves the
    message list from before the send followed by the user message and the
    assistant message that carries the answer's text; the loading flag is
    down, nothing is suspended, the input is empty, and the chat POST was
    followed by one stats request.  The current conversation of the time of
    the send gets these messages, and its title is derived from the text sent
    exactly when the list was empty before; in the conversation list the
    entries with its id are replaced by it and no other entry changes. *)
Theorem successful_send (u : option User) (tok : option string) (events : list Event)
    (t tf te : Tick) (status : Z) (response : string) :
  let w0 := reachable u tok events in
  let w1 := sendMessage t w0 in
  let w3 :=
    jsonSettled (timeoutId_of w0) (JsonValue response) te
      (fetchSettled (timeoutId_of w0) (FetchResolved status) tf w1) in
  let prior := Page.messages (page w0) in
  let sent := userMessage t (Page.inputMessage (page w0)) in
  let reply :=
    Message.mk (Js.toString (date_now te + 1)) assistant_role response (iso_now te) in
  send_blocked w0 = false → Js.ok status = true →
  Page.messages (page w3) = prior ++ [sent; reply]
  ∧ Page.loading (page w3) = false
  ∧ inflight w3 = []
  ∧ Page.inputMessage (page w3) = ""%string
  ∧ (∃ post, requests w3 = requests w0 ++ [post; get "/api/user/stats" w0]
             ∧ method post = "POST"%string ∧ url post = "/api/chat/message"%string)
  ∧ match Page.currentConversation (page w0) with
    | Some cur =>
        let updated :=
          Conversation.mk (Conversation.id cur)
            (match prior with
             | [] => Js.slice (Page.inputMessage (page w0)) 0 50 +:+ "..."
             | _ => Conversation.title cur
             end)
            (prior ++ [sent; reply]) (Conversation.created_at cur)
            (Conversation.sessionId cur) in
        Page.currentConversation (page w3) = Some updated
        ∧ Page.conversations (page w3)
          = map (λ c, if String.eqb (Conversation.id c) (Conversation.id cur)
                      then updated else c) (Page.conversations (page w0))
    | None =>
        Page.currentConversation (page w3) = None
        ∧ Page.conversations (page w3) = Page.conversations (page w0)
    end.
Proof. exact (answered_from_reachable u tok events t tf te status response). Qed.

(** X9.  The first exchange of a conversation shows what a reload will
    show: when the thread was empty, the title the page gives the current
    conversation and the roles and texts of its messages are those
    reconstruction derives from the one persisted turn (message = the text
    sent, response = the answer's text); ids and timestamps differ. *)
Theorem first_exchange_matches_reload (u : option User) (tok : option string)
    (events : list Event) (t tf te : Tick) (status : Z) (response : string)
    (cur : Conversation.t) (session : Session.t) (turn : Turn.t) :
  let w0 := reachable u tok events in
  let w3 :=
    jsonSettled (timeoutId_of w0) (JsonValue response) te
      (fetchSettled (timeoutId_of w0) (FetchResolved status) tf (sendMessage t w0)) in
  send_blocked w0 = false → Js.ok status = true →
  Page.messages (page w0) = [] →
  Page.currentConversation (page w0) = Some cur →
  Turn.message turn = Page.inputMessage (page w0) → Turn.response turn = response →
  ∃ c, Page.currentConversation (page w3) = Some c
       ∧ Conversation.title c = Conversation.title (conversationOf session (Some [turn]))
       ∧ map shown (Conversation.messages c)
         = map shown (Conversation.messages (conversationOf session (Some [turn])))
       ∧ map shown (Page.messages (page w3)) = map shown (reconstructMessages [turn]).
Proof.
  intros w0 w3 Hb Hok Hprior Hcur Hmsg Hresp.
  pose proof (answered_from_reachable u tok events t tf te status response Hb Hok)
    as (Hm & _ & _ & _ & _ & Hconv).
  cbv zeta in Hm, Hconv. fold w0 in Hm, Hconv. fold w3 in Hm, Hconv.
  rewrite Hcur, Hprior in Hconv. destruct Hconv as [Hc _].
  eexists. split; [exact Hc|]. simpl.
  unfold Js.or_else. rewrite truthy_append by reflexivity.
  rewrite Hmsg, Hresp. split; [reflexivity|]. split; [reflexivity|].
  rewrite Hm, Hprior. reflexivity.
Qed.

Lemma sorted_head_first (l : list Conversation.t) (c c' : Conversation.t)
    (rest : list Conversation.t) :
  array_sort compareConversations l = c :: rest → c' ∈ rest →
  Conversation.messages c = [] → Conversation.messages c' = [].
Proof.
  intros Hsort Hin Hc.
  pose proof (array_sort_sorted compareConversations compareConversations_total
                compareConversations_trans l) as Hs.
  rewrite Hsort in Hs. inversion Hs as [|? ? _ Hall]; subst.
  rewrite Forall_forall in Hall. specialize (Hall c' Hin). simpl in Hall.
  unfold compareConversations in Hall. rewrite Hc in Hall. simpl in Hall.
  destruct (Conversation.messages c'); [reflexivity|]. simpl in Hall. lia.
Qed.

Lemma auto_select_closure (captured : Page.t) (status : Z)
    (loaded : list (Session.t * option (list Turn.t))) (w : World)
    (c : Conversation.t) (rest : list Conversation.t) :
  Js.ok status = true → Page.currentSession captured = None →
  buildConversations loaded = c :: rest →
  Page.conversations
    (page (loadSessionsAndConversations captured (Responded status (Some loaded)) w))
  = c :: rest
  ∧ Page.sessions
      (page (loadSessionsAndConversations captured (Responded status (Some loaded)) w))
    = map fst loaded
  ∧ Page.currentConversation
      (page (loadSessionsAndConversations captured (Responded status (Some loaded)) w))
    = Some c
  ∧ Page.messages
      (page (loadSessionsAndConversations captured (Responded status (Some loaded)) w))
    = Conversation.messages c
  ∧ Page.currentSession
      (page (loadSessionsAndConversations captured (Responded status (Some loaded)) w))
    = List.find (λ s, String.eqb (Session.id s) (Conversation.sessionId c))
        (Page.sessions captured)
  ∧ Page.loading
      (page (loadSessionsAndConversations captured (Responded status (Some loaded)) w))
    = Page.loading (page w).
Proof.
  intros Hok Hcur Hbuild.
  assert (Hsel : loadSessionsAndConversations captured (Responded status (Some loaded)) w
    = selectConversation captured c
        (with_page (Page.setConversations (c :: rest))
           (foldl (λ acc sh, issue (get ("/api/chat/history/" +:+ Session.id (fst sh)) w) acc)
              (with_page (Page.setSessions (map fst loaded))
                 (issue (get "/api/chat/sessions" w) w)) loaded))).
  { unfold loadSessionsAndConversations. cbv zeta. rewrite Hok, Hcur, Hbuild. simpl.
    destruct (Conversation.messages c) as [|m ms] eqn:Hc; simpl; [|reflexivity].
    destruct (List.find _ rest) as [c'|] eqn:Hfind; [|reflexivity].
    exfalso. apply find_some in Hfind as [Hin Hhas]. apply list_elem_of_In in Hin.
    rewrite (sorted_head_first _ c c' rest Hbuild Hin Hc) in Hhas. discriminate. }
  rewrite Hsel. unfold selectConversation. simpl.
  rewrite !foldl_issue_page. simpl.
  repeat split; reflexivity.
Qed.

(** X10.  After a successful load made from a render without a current
    session, the conversation selected is the first of the sorted list (a
    conversation with messages whenever there is one), its messages are
    shown, and the current session is looked up among the sessions of that
    render, not among the ones just loaded. *)
Theorem auto_select_first (captured : Page.t) (status : Z)
    (loaded : list (Session.t * option (list Turn.t))) (w : World)
    (c : Conversation.t) (rest : list Conversation.t) :
  Js.ok status = true → Page.currentSession captured = None →
  buildConversations loaded = c :: rest →
  Page.conversations
    (page (loadSessionsAndConversations captured (Responded status (Some loaded)) w))
  = c :: rest
  ∧ Page.sessions
      (page (loadSessionsAndConversations captured (Responded status (Some loaded)) w))
    = map fst loaded
  ∧ Page.currentConversation
      (page (loadSessionsAndConversations captured (Responded status (Some loaded)) w))
    = Some c
  ∧ Page.messages
      (page (loadSessionsAndConversations captured (Responded status (Some loaded)) w))
    = Conversation.messages c
  ∧ Page.currentSession
      (page (loadSessionsAndConversations captured (Responded status (Some loaded)) w))
    = List.find (λ s, String.eqb (Session.id s) (Conversation.sessionId c))
        (Page.sessions captured)
  ∧ (∀ c', c' ∈ rest → Conversation.messages c = [] → Conversation.messages c' = []).
Proof.
  intros Hok Hcur Hbuild.
  destruct (auto_select_closure captured status loaded w c rest Hok Hcur Hbuild)
    as (H1 & H2 & H3 & H4 & H5 & _).
  repeat (split; [assumption|]).
  intros c' Hin Hc. exact (sorted_head_first _ c c' rest Hbuild Hin Hc).
Qed.

Lemma conversation_has_session (loaded : list (Session.t * option (list Turn.t)))
    (c : Conversation.t) :
  c ∈ buildConversations loaded →
  ∃ s, List.find (λ s, String.eqb (Session.id s) (Conversation.sessionId c)) (map fst loaded)
       = Some s
       ∧ Session.id s = Conversation.sessionId c.
Proof.
  intros Hc. rewrite (buildConversations_perm loaded) in Hc.
  apply list_elem_of_fmap in Hc as ([s h] & -> & Hin).
  destruct (List.find _ (map fst loaded)) as [s'|] eqn:Hfind.
  - exists s'. split; [reflexivity|]. apply find_some in Hfind as [_ Heq].
    now apply String.eqb_eq in Heq.
  - exfalso. assert (Hs : In s (map fst loaded)).
    { apply list_elem_of_In. apply list_elem_of_fmap. exists (s, h). auto. }
    pose proof (find_none _ _ Hfind s Hs) as Hne. simpl in Hne.
    destruct h; simpl in Hne; rewrite String.eqb_refl in Hne; discriminate.
Qed.

(** X11.  The load made by the first render (no session in its closure)
    selects a conversation but no session: the current session stays unset,
    so sending is blocked whatever is typed, until a conversation is
    selected from a later render, which finds its session. *)
Theorem first_load_needs_a_selection (captured : Page.t) (status : Z)
    (loaded : list (Session.t * option (list Turn.t))) (w : World)
    (c : Conversation.t) (rest : list Conversation.t) :
  let w' := loadSessionsAndConversations captured (Responded status (Some loaded)) w in
  Js.ok status = true →
  Page.sessions captured = [] → Page.currentSession captured = None →
  buildConversations loaded = c :: rest →
  Page.currentConversation (page w') = Some c
  ∧ Page.currentSession (page w') = None
  ∧ send_blocked w' = true
  ∧ (∀ input t, sendMessage t (step w' (EvInput input)) = step w' (EvInput input))
  ∧ (Page.loading (page w) = false →
     placeholder w' = "Select or create a conversation to start chatting"%string)
  ∧ (∃ s, Page.currentSession (page (selectConversation (page w') c w')) = Some s
          ∧ Session.id s = Conversation.sessionId c).
Proof.
  intros w' Hok Hsess Hcur Hbuild.
  destruct (auto_select_closure captured status loaded w c rest Hok Hcur Hbuild)
    as (Hconvs & Hss & Hcc & _ & Hcs & Hload).
  fold w' in Hconvs, Hss, Hcc, Hcs, Hload. rewrite Hsess in Hcs. simpl in Hcs.
  split; [exact Hcc|]. split; [exact Hcs|].
  assert (Hblocked : ∀ x, Page.currentSession (page x) = None → send_blocked x = true).
  { intros x Hx. unfold send_blocked. rewrite Hx. simpl. now rewrite !orb_true_r. }
  split; [now apply Hblocked|].
  split.
  { intros input t. unfold sendMessage. now rewrite Hblocked. }
  split.
  { intros Hl. unfold placeholder. rewrite Hload, Hl, Hcs. reflexivity. }
  unfold selectConversation. simpl. rewrite Hss.
  apply conversation_has_session. rewrite Hbuild. apply list_elem_of_here.
Qed.

(** X12.  [deleteConversation] asks the server once and does not wait for an
    OK: any answer, whatever its status, removes from the list of its
    render the conversations of that id and no other, in order, and clears
    the current conversation, session and messages exactly when the current
    conversation of its render has that id; a fetch that rejects leaves the
    page as it is.  Token and loading flag are never touched. *)
Theorem delete_conversation_outcome (captured : Page.t) (conversationId : string)
    (r : Http unit) (w : World) :
  requests (deleteConversation captured conversationId r w)
  = requests w
      ++ [ {| method := "DELETE"; url := "/api/chat/session/" +:+ conversationId;
              authorization := authHeader (token w); body := None |} ]
  ∧ token (deleteConversation captured conversationId r w) = token w
  ∧ Page.loading (page (deleteConversation captured conversationId r w))
    = Page.loading (page w)
  ∧ (∀ e, r = Rejected e → page (deleteConversation captured conversationId r w) = page w)
  ∧ (∀ status body,
       r = Responded status body →
       Page.conversations (page (deleteConversation captured conversationId r w))
       = filter (λ c, Conversation.id c ≠ conversationId) (Page.conversations captured)
       ∧ ((∃ cur, Page.currentConversation captured = Some cur
                  ∧ Conversation.id cur = conversationId) →
          Page.currentConversation (page (deleteConversation captured conversationId r w))
          = None
          ∧ Page.currentSession (page (deleteConversation captured conversationId r w))
            = None
          ∧ Page.messages (page (deleteConversation captured conversationId r w)) = [])
       ∧ ((∀ cur, Page.currentConversation captured = Some cur →
                  Conversation.id cur ≠ conversationId) →
          Page.currentConversation (page (deleteConversation captured conversationId r w))
          = Page.currentConversation (page w)
          ∧ Page.currentSession (page (deleteConversation captured conversationId r w))
            = Page.currentSession (page w)
          ∧ Page.messages (page (deleteConversation captured conversationId r w))
            = Page.messages (page w))).
Proof.
  unfold deleteConversation. cbv zeta.
  split; [repeat case_match; reflexivity|].
  split; [repeat case_match; reflexivity|].
  split; [repeat case_match; reflexivity|].
  split; [intros e ->; reflexivity|].
  intros status body ->.
  destruct (Page.currentConversation captured) as [cur|].
  - destruct (String.eqb_spec (Conversation.id cur) conversationId) as [Heq|Hne]; simpl.
    + split; [reflexivity|]. split; [auto|].
      intros Hno. destruct (Hno cur eq_refl Heq).
    + split; [reflexivity|]. split; [|auto].
      intros (cur' & [= <-] & Heq). contradiction.
  - simpl. split; [reflexivity|]. split; [|auto].
    intros (cur' & [=] & _).
Qed.

Lemma delete_conversation_outcome_witness :
  Page.conversations
    (page (deleteConversation
             (Page.setConversations (buildConversations sessions_AB) Page.initial)
             "A" (Responded 500 None) (initial_world (Some alice) (Some "tok"%string))))
  = [ conversationOf session_B (Some [hello_turn]) ].
Proof.
  destruct (delete_conversation_outcome
              (Page.setConversations (buildConversations sessions_AB) Page.initial)
              "A" (Responded 500 None) (initial_world (Some alice) (Some "tok"%string)))
    as (_ & _ & _ & _ & H).
  destruct (H 500 None eq_refl) as [Hc _]. exact Hc.
Defined.

(** X13.  A new chat starts empty and is ready for its first message: after
    [createNewConversation] is answered with a session, the thread is empty,
    the new conversation, titled "New Chat", is current and first in the
    list; once a text that is not white space only is typed, a present user
    who is not already sending can send, and the chat POST carries the user's
    id, the id of the new session and the text as typed. *)
Theorem new_chat_first_message (captured : Page.t) (status : Z) (newSession : Session.t)
    (input : string) (t : Tick) (u : User) (w : World) :
  let fresh :=
    Conversation.mk (Session.id newSession) "New Chat" []
      (Session.created_at newSession) (Session.id newSession) in
  let w1 := createNewConversation captured (Responded status (Some newSession)) w in
  let w2 := step w1 (EvInput input) in
  let w3 := sendMessage t w2 in
  user w = Some u → Page.loading (page w) = false → ¬ whitespace_only input →
  Page.messages (page w1) = []
  ∧ Page.currentConversation (page w1) = Some fresh
  ∧ Page.currentSession (page w1) = Some newSession
  ∧ Page.conversations (page w1) = fresh :: Page.conversations captured
  ∧ send_blocked w2 = false
  ∧ Page.messages (page w3) = [userMessage t input]
  ∧ Page.inputMessage (page w3) = ""%string
  ∧ Page.loading (page w3) = true
  ∧ requests w3
    = requests w
        ++ [ {| method := "POST"; url := "/api/chat/session";
                authorization := authHeader (token w); body := None |};
             {| method := "POST"; url := "/api/chat/message";
                authorization := authHeader (token w);
                body := Some {| cd_user_id := user_id u;
                                cd_session_id := Session.id newSession;
                                cd_query := input |} |} ].
Proof.
  intros fresh w1 w2 w3 Hu Hl Hinput.
  assert (Htr : Js.truthy (Js.trim input) = true).
  { destruct (Js.truthy (Js.trim input)) eqn:E; [reflexivity|].
    apply trim_empty in E. contradiction. }
  assert (Hb : send_blocked w2 = false).
  { unfold send_blocked. simpl. rewrite Htr, Hl, Hu. reflexivity. }
  split; [reflexivity|]. split; [reflexivity|]. split; [reflexivity|].
  split; [reflexivity|]. split; [exact Hb|].
  subst w3. unfold sendMessage. rewrite Hb. simpl. rewrite Hu. simpl.
  rewrite <- !app_assoc. repeat split; reflexivity.
Qed.

Lemma new_chat_first_message_witness :
  requests
    (sendMessage tick1
       (step (createNewConversation Page.initial (Responded 200 (Some session_B))
                (initial_world (Some alice) (Some "tok"%string)))
          (EvInput "Hello")))
  = [ {| method := "POST"; url := "/api/chat/session";
         authorization := Some "Bearer tok"%string; body := None |};
      {| method := "POST"; url := "/api/chat/message";
         authorization := Some "Bearer tok"%string;
         body := Some {| cd_user_id := "u-1"; cd_session_id := "B"; cd_query := "Hello" |} |} ].
Proof.
  assert (Hin : ¬ whitespace_only "Hello") by (simpl; intros [H _]; discriminate H).
  pose proof (new_chat_first_message Page.initial 200 session_B "Hello" tick1 alice
                (initial_world (Some alice) (Some "tok"%string)) eq_refl eq_refl Hin) as H.
  cbv zeta in H. destruct H as (_ & _ & _ & _ & _ & _ & _ & _ & Hreq). exact Hreq.
Defined.

(** X14.  The input controls agree with the guard of [sendMessage]: the
    placeholder invites typing exactly when the textarea is enabled; the
    send button is enabled exactly when the textarea is and the input is not
    white space only; a key press changes something only when it is Enter
    without Shift while the button is enabled. *)
Theorem input_controls (w : World) :
  (textareaDisabled w = false ↔ placeholder w = "Type your message here..."%string)
  ∧ (sendDisabled w = false
     ↔ textareaDisabled w = false ∧ ¬ whitespace_only (Page.inputMessage (page w)))
  ∧ (∀ key shiftKey t,
       handleKeyPress key shiftKey t w ≠ w →
       key = "Enter"%string ∧ shiftKey = false ∧ sendDisabled w = false).
Proof.
  split; [|split].
  - unfold textareaDisabled, placeholder.
    destruct (Page.loading (page w)); simpl; [split; discriminate|].
    destruct (bool_decide (is_Some (Page.currentSession (page w)))); simpl;
      [|split; discriminate].
    destruct (bool_decide (is_Some (user w))); simpl; [tauto|split; discriminate].
  - unfold sendDisabled, textareaDisabled.
    rewrite <- trim_empty.
    destruct (Js.truthy (Js.trim (Page.inputMessage (page w)))); simpl.
    + split; [intros Hd; split; [exact Hd|discriminate]|tauto].
    + split; [discriminate|]. intros [_ H]. now destruct H.
  - intros key shiftKey t Hne. unfold handleKeyPress in Hne.
    destruct (String.eqb_spec key "Enter") as [->|Hk]; simpl in Hne; [|now destruct Hne].
    destruct shiftKey; simpl in Hne; [now destruct Hne|].
    split; [reflexivity|]. split; [reflexivity|].
    change (sendDisabled w) with (send_blocked w).
    destruct (send_blocked w) eqn:E; [|reflexivity].
    destruct Hne. unfold sendMessage. now rewrite E.
Qed.

Lemma input_controls_witness :
  sendDisabled (reachable (Some alice) (Some "tok"%string) ready_events) = false
  ∧ textareaDisabled (reachable (Some alice) (Some "tok"%string) ready_events) = false.
Proof.
  split; [reflexivity|].
  destruct (input_controls (reachable (Some alice) (Some "tok"%string) ready_events))
    as (_ & Hs & _).
  exact (proj1 (proj1 Hs eq_refl)).
Defined.

(** ** Requests and the stored token *)

Lemma foldl_issue_requests {B : Type} (f : B → Request) (l : list B) (w : World) :
  requests (foldl (λ acc x, issue (f x) acc) w l) = requests w ++ map f l.
Proof.
  revert w; induction l as [|x l IH]; intros w; simpl; [now rewrite app_nil_r|].
  rewrite IH. simpl. now rewrite <- app_assoc.
Qed.

Lemma foldl_issue_token {B : Type} (f : B → Request) (l : list B) (w : World) :
  token (foldl (λ acc x, issue (f x) acc) w l) = token w
  ∧ reloads (foldl (λ acc x, issue (f x) acc) w l) = reloads w.
Proof. revert w; induction l as [|x l IH]; intros w; simpl; [auto|]. now rewrite !(proj1 (IH _)), !(proj2 (IH _)). Qed.

Ltac new_requests :=
  simpl; rewrite <- ?app_assoc;
  first [ exists []; split; [now rewrite app_nil_r | constructor]
        | eexists; split; [reflexivity | repeat constructor] ].

(** X15.  The page only ever adds to the requests it has issued, and every
    request a page handler issues carries the Authorization header built
    from the token stored when the handler ran: "Bearer " and the token, or
    no header at all when no token (or an empty one) is stored.  The
    identity lookup always sends a header. *)
Theorem requests_carry_bearer (w : World) (e : Event) :
  ∃ new, requests (step w e) = requests w ++ new
         ∧ ((∀ r, e ≠ EvUserInfo r) →
            Forall (λ q, authorization q = authHeader (token w)) new)
         ∧ ((∀ r, e ≠ EvUserInfo r) → token w = None ∨ token w = Some ""%string →
            Forall (λ q, authorization q = None) new)
         ∧ (∀ r, e = EvUserInfo r →
                 ∃ header, new = [ {| method := "GET"; url := "/api/v1/auth/me";
                                      authorization := Some header; body := None |} ]).
Proof.
  assert (Hmain : ∃ new, requests (step w e) = requests w ++ new
                         ∧ ((∀ r, e ≠ EvUserInfo r) →
                            Forall (λ q, authorization q = authHeader (token w)) new)
                         ∧ (∀ r, e = EvUserInfo r →
                                 ∃ header, new = [ {| method := "GET"; url := "/api/v1/auth/me";
                                                      authorization := Some header;
                                                      body := None |} ])).
  { assert (Hsimple : ∀ w', (∃ new, requests w' = requests w ++ new
                                    ∧ Forall (λ q, authorization q = authHeader (token w)) new) →
              (∀ r, e ≠ EvUserInfo r) →
              ∃ new, requests w' = requests w ++ new
                     ∧ ((∀ r, e ≠ EvUserInfo r) →
                        Forall (λ q, authorization q = authHeader (token w)) new)
                     ∧ (∀ r, e = EvUserInfo r →
                             ∃ header, new = [ {| method := "GET"; url := "/api/v1/auth/me";
                                                  authorization := Some header;
                                                  body := None |} ])).
    { intros w' (new & Hreq & Hall) Hne. exists new. split; [exact Hreq|].
      split; [auto|]. intros r Hr. destruct (Hne r Hr). }
    destruct e; simpl; try (apply Hsimple; [|discriminate]).
    - new_requests.
    - new_requests.
    - new_requests.
    - unfold selectConversation. new_requests.
    - unfold loadSessionsAndConversations, selectConversation. cbv zeta.
      repeat case_match; simpl; rewrite ?foldl_issue_requests; simpl;
        rewrite <- ?app_assoc;
        (eexists; split; [reflexivity|]);
        repeat constructor; apply Forall_fmap, Forall_forall; intros; reflexivity.
    - unfold loadUserStats, userStatsSettled, requestUserStats.
      repeat case_match; new_requests.
    - unfold userStatsSettled. repeat case_match; new_requests.
    - unfold createNewConversation. cbv zeta. repeat case_match; new_requests.
    - unfold deleteConversation. cbv zeta. repeat case_match; new_requests.
    - unfold sendMessage. repeat case_match; new_requests.
    - unfold fetchSettled, finallySend, catchSend, dropPending. cbv zeta.
      repeat case_match; new_requests.
    - unfold jsonSettled, finallySend, catchSend, completeSend, requestUserStats,
        dropPending. cbv zeta.
      repeat case_match; new_requests.
    - unfold fireTimer, abort, fetchSettled, jsonSettled, finallySend, catchSend,
        dropPending. cbv zeta.
      repeat case_match; new_requests.
    - clear Hsimple. unfold fetchUserInfo. cbv zeta.
      exists [ {| method := "GET"; url := "/api/v1/auth/me";
                  authorization :=
                    Some ("Bearer " +:+ match token w with Some x => x | None => "null" end);
                  body := None |} ].
      split; [|split; [intros Hne; now destruct (Hne r)|]].
      + destruct r as [err|status [userData|]]; simpl; try destruct (Js.ok status);
          reflexivity.
      + intros r' _. eexists. reflexivity.
    - unfold logout. new_requests. }
  destruct Hmain as (new & Hreq & Hall & Hme). exists new.
  split; [exact Hreq|]. split; [exact Hall|]. split; [|exact Hme].
  intros Hne Htok. specialize (Hall Hne).
  eapply Forall_impl; [exact Hall|]. simpl. intros q ->.
  destruct Htok as [->| ->]; reflexivity.
Qed.
(** X16.  The page never stores a token and removes it only by a purge: a
    step leaves the stored token as it is or removes it, and removes it (or
    differs at all) only on a 401 answer to the session list, on the firing of
    a purge timer, on an identity lookup not answered OK with a parsable
    body, or on logout.  The page reloads only together with the removal of
    the token. *)
Theorem token_removed_only_by_purge (w : World) (e : Event) :
  (token (step w e) = token w ∨ token (step w e) = None)
  ∧ (token (step w e) ≠ token w → purging w e)
  ∧ (reloads (step w e) = reloads w
     ∨ (reloads (step w e) = S (reloads w) ∧ token (step w e) = None ∧ purging w e)).
Proof.
  assert (Hsame : ∀ w', token w' = token w → reloads w' = reloads w →
            (token w' = token w ∨ token w' = None)
            ∧ (token w' ≠ token w → purging w e)
            ∧ (reloads w' = reloads w
               ∨ (reloads w' = S (reloads w) ∧ token w' = None ∧ purging w e))).
  { intros w' Ht Hr. split; [auto|]. split; [congruence|auto]. }
  assert (Hpurge : ∀ w', token w' = None → purging w e →
            reloads w' = reloads w ∨ reloads w' = S (reloads w) →
            (token w' = token w ∨ token w' = None)
            ∧ (token w' ≠ token w → purging w e)
            ∧ (reloads w' = reloads w
               ∨ (reloads w' = S (reloads w) ∧ token w' = None ∧ purging w e))).
  { intros w' Ht Hp Hr. split; [auto|]. split; [auto|]. destruct Hr; auto. }
  destruct e; simpl step.
  - apply Hsame; reflexivity.
  - apply Hsame; reflexivity.
  - apply Hsame; reflexivity.
  - apply Hsame; reflexivity.
  - unfold loadSessionsAndConversations, selectConversation. cbv zeta.
    destruct r as [err|status body]; [apply Hsame; reflexivity|].
    destruct (Js.ok status) eqn:Hok; simpl.
    + destruct body as [loaded|]; [|apply Hsame; reflexivity].
      repeat case_match; apply Hsame; simpl;
        rewrite ?(proj1 (foldl_issue_token _ _ _)), ?(proj2 (foldl_issue_token _ _ _));
        reflexivity.
    + destruct (Z.eqb_spec status 401) as [->|Hne]; [|apply Hsame; reflexivity].
      apply Hpurge; simpl; auto.
  - unfold loadUserStats, userStatsSettled, requestUserStats.
    repeat case_match; apply Hsame; reflexivity.
  - unfold userStatsSettled. repeat case_match; apply Hsame; reflexivity.
  - unfold createNewConversation. cbv zeta. repeat case_match; apply Hsame; reflexivity.
  - unfold deleteConversation. cbv zeta. repeat case_match; apply Hsame; reflexivity.
  - unfold sendMessage. repeat case_match; apply Hsame; reflexivity.
  - unfold fetchSettled, finallySend, catchSend, dropPending. cbv zeta.
    repeat case_match; apply Hsame; reflexivity.
  - unfold jsonSettled, finallySend, catchSend, completeSend, requestUserStats,
      dropPending. cbv zeta.
    repeat case_match; apply Hsame; reflexivity.
  - unfold fireTimer.
    destruct (List.find _ (timers w)) as [tm|] eqn:Hfind; [|apply Hsame; reflexivity].
    cbv zeta. destruct (action tm) eqn:Hact.
    + apply Hsame; reflexivity.
    + unfold abort, fetchSettled, jsonSettled, finallySend, catchSend, dropPending.
      cbv zeta. repeat case_match; apply Hsame; reflexivity.
    + apply Hpurge; simpl; eauto.
  - unfold fetchUserInfo. cbv zeta.
    destruct r as [err|status [userData|]]; cbv beta iota.
    + apply Hpurge; simpl; auto.
    + destruct (Js.ok status) eqn:Hok; [apply Hsame; reflexivity|].
      apply Hpurge; simpl; auto.
    + apply Hpurge; simpl; auto.
  - unfold logout. apply Hpurge; simpl; auto.
Qed.

(** A send answered 500 keeps the token; the same send answered 401 keeps
    it too until its purge timer fires. *)
Lemma token_removed_only_by_purge_witness :
  token (step (sendMessage tick1 (reachable (Some alice) (Some "tok"%string) ready_events))
           (EvFetchSettled 2 (FetchResolved 500) tick2))
  = Some "tok"%string.
Proof.
  destruct (token_removed_only_by_purge
              (sendMessage tick1 (reachable (Some alice) (Some "tok"%string) ready_events))
              (EvFetchSettled 2 (FetchResolved 500) tick2)) as (_ & Hp & _).
  destruct (decide (token (step (sendMessage tick1
                                   (reachable (Some alice) (Some "tok"%string) ready_events))
                             (EvFetchSettled 2 (FetchResolved 500) tick2))
                    = Some "tok"%string)) as [Heq|Hne]; [exact Heq|].
  destruct (Hp Hne).
Defined.

(** ** The loading flag and the abort timer *)

Lemma to_setTimeout a d w : (∀ c, a ≠ Abort c) → timers_ok w → timers_ok (setTimeout a d w).
Proof.
  intros Ha (Hf & Hn & Hs). split; [|split]; simpl.
  - apply Forall_app. split; [eapply Forall_impl; [exact Hf|]; simpl; intros; lia|].
    constructor; [simpl; lia|constructor].
  - rewrite map_app. apply NoDup_app. split; [exact Hn|]. split; [|repeat constructor].
    + intros x Hx Hx'. simpl in Hx'. apply list_elem_of_singleton in Hx'. subst x.
      apply list_elem_of_fmap in Hx as (tm & Heq & Htm).
      rewrite Forall_forall in Hf. specialize (Hf tm Htm). lia.
    + apply not_elem_of_nil.
  - apply Forall_app. split; [exact Hs|]. repeat constructor.
    simpl. intros c Hc. destruct (Ha c Hc).
Qed.

Lemma to_clearTimeout id w : timers_ok w → timers_ok (clearTimeout id w).
Proof.
  intros (Hf & Hn & Hs). split; [|split]; simpl.
  - rewrite Forall_forall in *. intros tm Htm. apply list_elem_of_filter in Htm. apply Hf, Htm.
  - apply (sublist_NoDup _ (map tid (timers w))); [exact Hn|].
    apply (fmap_sublist tid), sublist_filter.
  - rewrite Forall_forall in *. intros tm Htm. apply list_elem_of_filter in Htm. apply Hs, Htm.
Qed.

Lemma to_frame w w' :
  timers w' = timers w → next_timer w' = next_timer w → timers_ok w → timers_ok w'.
Proof. intros Ht Hn. unfold timers_ok. now rewrite Ht, Hn. Qed.

Lemma to_reload w : timers_ok (reload w).
Proof. split; [|split]; simpl; constructor. Qed.

Ltac to_step :=
  lazymatch goal with
  | H : timers_ok ?w |- timers_ok ?w => exact H
  | |- timers_ok (setTimeout _ _ _) => apply to_setTimeout; [intros ?; discriminate|]
  | |- timers_ok (clearTimeout _ _) => apply to_clearTimeout
  | |- timers_ok (issue _ ?w) => apply (to_frame w); [reflexivity|reflexivity|]
  | |- timers_ok (removeToken ?w) => apply (to_frame w); [reflexivity|reflexivity|]
  | |- timers_ok (reload _) => apply to_reload
  | |- timers_ok (setUser _ ?w) => apply (to_frame w); [reflexivity|reflexivity|]
  | |- timers_ok (with_page _ ?w) => apply (to_frame w); [reflexivity|reflexivity|]
  | |- timers_ok (set_inflight _ ?w) => apply (to_frame w); [reflexivity|reflexivity|]
  | |- timers_ok (dropPending _ ?w) => apply (to_frame w); [reflexivity|reflexivity|]
  end.

Lemma to_catchSend p e t w : timers_ok w → timers_ok (catchSend p e t w).
Proof. intros Hw. unfold catchSend. cbv zeta. repeat case_match; repeat to_step. Qed.

Lemma to_completeSend p r t w : timers_ok w → timers_ok (completeSend p r t w).
Proof.
  intros Hw. unfold completeSend, requestUserStats. cbv zeta.
  repeat case_match; repeat to_step.
Qed.

Lemma to_finallySend p w : timers_ok w → timers_ok (finallySend p w).
Proof. intros Hw. unfold finallySend. repeat to_step. Qed.

Lemma armed_setTimeout a d w p : (∀ c, a ≠ Abort c) → armed w p → armed (setTimeout a d w) p.
Proof.
  intros Ha [Hlt Hph]. split; [simpl; lia|].
  destruct (phase p); simpl.
  - apply elem_of_app. auto.
  - intros tm Htm. apply elem_of_app in Htm as [Htm|Htm]; [auto|].
    apply list_elem_of_singleton in Htm. subst tm. simpl. lia.
Qed.

Lemma armed_frame w w' p :
  timers w' = timers w → next_timer w' = next_timer w → armed w p → armed w' p.
Proof. intros Ht Hn. unfold armed. now rewrite Ht, Hn. Qed.

Lemma g_setTimeout a d w : (∀ c, a ≠ Abort c) → guarded w → guarded (setTimeout a d w).
Proof.
  intros Ha [Ht Hs]. split; [now apply to_setTimeout|].
  destruct Hs as [Hidle|(p & Hp & Hl & Harm)]; [left; exact Hidle|].
  right. exists p. split; [exact Hp|]. split; [exact Hl|]. now apply armed_setTimeout.
Qed.

Lemma g_frame w w' :
  timers w' = timers w → next_timer w' = next_timer w → inflight w' = inflight w →
  Page.loading (page w') = Page.loading (page w) → guarded w → guarded w'.
Proof.
  intros Ht Hn Hi Hl [Hto Hs]. split; [exact (to_frame w w' Ht Hn Hto)|].
  rewrite Hi, Hl. destruct Hs as [Hidle|(p & Hp & Hl' & Harm)]; [left; exact Hidle|].
  right. exists p. split; [exact Hp|]. split; [exact Hl'|].
  exact (armed_frame w w' p Ht Hn Harm).
Qed.

Lemma g_foldl {B : Type} (g : World → B → World) (l : list B) (w : World) :
  (∀ acc x, guarded acc → guarded (g acc x)) → guarded w → guarded (foldl g w l).
Proof.
  intros Hg. revert w; induction l as [|x l IH]; intros w Hw; simpl; [exact Hw|].
  apply IH, Hg, Hw.
Qed.

(** A reload leaves nothing suspended, no timer and the loading flag down. *)
Lemma g_reload w : guarded (reload w).
Proof. split; [apply to_reload|]. left. split; reflexivity. Qed.

Ltac g_step :=
  lazymatch goal with
  | H : guarded ?w |- guarded ?w => exact H
  | |- guarded (setTimeout _ _ _) => apply g_setTimeout; [intros ?; discriminate|]
  | |- guarded (foldl _ _ _) => apply g_foldl; [intros ? ? ?|]
  | |- guarded (issue _ ?w) => apply (g_frame w); [reflexivity..|]
  | |- guarded (removeToken ?w) => apply (g_frame w); [reflexivity..|]
  | |- guarded (reload _) => apply g_reload
  | |- guarded (setUser _ ?w) => apply (g_frame w); [reflexivity..|]
  | |- guarded (with_page _ ?w) => apply (g_frame w); [reflexivity..|]
  end.

Lemma g_idle w : timers_ok w → inflight w = [] → Page.loading (page w) = false → guarded w.
Proof. intros Ht Hi Hl. split; [exact Ht|]. left. auto. Qed.

Lemma g_finallySend p w : timers_ok w → inflight w = [p] → guarded (finallySend p w).
Proof.
  intros Ht Hp. apply g_idle; [now apply to_finallySend| |reflexivity].
  simpl. rewrite Hp. apply filter_self_pid.
Qed.

Lemma catchSend_inflight p e t w : inflight (catchSend p e t w) = inflight w.
Proof. unfold catchSend. cbv zeta. repeat case_match; reflexivity. Qed.

Lemma completeSend_inflight p r t w : inflight (completeSend p r t w) = inflight w.
Proof. unfold completeSend, requestUserStats. cbv zeta. repeat case_match; reflexivity. Qed.

Lemma findPending_solo (id : nat) (w : World) (p q : PendingSend) :
  inflight w = [p] → findPending id w = Some q → q = p ∧ pid p = id.
Proof.
  intros Hp Hfind. unfold findPending in Hfind. rewrite Hp in Hfind. simpl in Hfind.
  destruct (Nat.eqb_spec (pid p) id); [|discriminate]. injection Hfind as <-. auto.
Qed.

Lemma g_sendMessage t w : guarded w → guarded (sendMessage t w).
Proof.
  intros Hg. unfold sendMessage. destruct (send_blocked w) eqn:Hb; [exact Hg|].
  apply send_blocked_false in Hb as (_ & Hload & _ & _).
  destruct (Page.currentSession (page w)) as [session|]; [|exact Hg].
  destruct (user w) as [u|]; [|exact Hg].
  destruct Hg as [(Hf & Hn & Hs) Hstate].
  assert (Hnil : inflight w = []).
  { destruct Hstate as [[Hi _]|(p & _ & Hl & _)]; [exact Hi|congruence]. }
  split.
  - split; [|split]; simpl.
    + rewrite <- app_assoc. apply Forall_app.
      split; [eapply Forall_impl; [exact Hf|]; simpl; intros; lia|].
      constructor; [simpl; lia|]. constructor; [simpl; lia|constructor].
    + rewrite <- app_assoc, map_app. apply NoDup_app. split; [exact Hn|]. split.
      * intros x Hx Hx'. apply list_elem_of_fmap in Hx as (tm & -> & Htm).
        rewrite Forall_forall in Hf. specialize (Hf tm Htm).
        simpl in Hx'. apply elem_of_cons in Hx' as [Hx'|Hx'];
          [lia|apply list_elem_of_singleton in Hx'; lia].
      * simpl. apply NoDup_cons. split; [|apply NoDup_singleton].
        intros Hx. apply list_elem_of_singleton in Hx. lia.
    + rewrite <- app_assoc. apply Forall_app. split; [exact Hs|].
      constructor; [simpl; discriminate|]. constructor; [|constructor].
      simpl. intros c [= <-]. reflexivity.
  - right. eexists. simpl. rewrite Hnil. simpl. split; [reflexivity|].
    split; [reflexivity|]. split; simpl; [lia|].
    apply elem_of_app. right. apply list_elem_of_here.
Qed.

Lemma same_tid (l : list Timer) (a b : Timer) :
  NoDup (map tid l) → a ∈ l → b ∈ l → tid a = tid b → a = b.
Proof.
  induction l as [|x l IH]; intros Hn Ha Hb Hab; [inversion Ha|].
  simpl in Hn. apply NoDup_cons in Hn as [Hx Hn].
  apply elem_of_cons in Ha as [->|Ha]; apply elem_of_cons in Hb as [->|Hb].
  - reflexivity.
  - destruct Hx. rewrite Hab. apply list_elem_of_fmap. eauto.
  - destruct Hx. rewrite <- Hab. apply list_elem_of_fmap. eauto.
  - now apply IH.
Qed.

Lemma armed_clearTimeout id w p :
  (phase p = AwaitFetch → pid p ≠ id) → armed w p → armed (clearTimeout id w) p.
Proof.
  intros Hne [Hlt Hph]. split; [exact Hlt|].
  destruct (phase p); simpl.
  - apply list_elem_of_filter. split; [simpl; auto|exact Hph].
  - intros tm Htm. apply list_elem_of_filter in Htm as [_ Htm]. auto.
Qed.

Lemma g_fetchSettled id r t w : guarded w → guarded (fetchSettled id r t w).
Proof.
  intros Hg. unfold fetchSettled.
  destruct (findPending id w) as [q|] eqn:Hfind; [|exact Hg].
  destruct Hg as [Ht Hstate].
  destruct Hstate as [[Hi _]|(p & Hp & Hl & Harm)].
  { unfold findPending in Hfind. rewrite Hi in Hfind. discriminate. }
  destruct (findPending_solo id w p q Hp Hfind) as [-> Hid].
  destruct (phase p) eqn:Hph; [|split; [exact Ht|right; eauto]].
  destruct r as [e|status].
  - apply g_finallySend; [now apply to_catchSend|].
    now rewrite catchSend_inflight.
  - cbv zeta. destruct (negb (Js.ok status)).
    + apply g_finallySend; [apply to_catchSend, to_clearTimeout, Ht|].
      now rewrite catchSend_inflight.
    + split; [apply (to_frame (clearTimeout (pid p) w)); [reflexivity..|];
              apply to_clearTimeout, Ht|].
      right. exists (set_phase AwaitJson p). simpl. rewrite Hp. simpl.
      destruct (Nat.eqb_spec (pid p) id); [|contradiction].
      split; [reflexivity|]. split; [exact Hl|].
      split; [apply Harm|]. simpl. intros tm Htm.
      apply list_elem_of_filter in Htm as [Hne _]. exact Hne.
Qed.

Lemma g_jsonSettled id r t w : guarded w → guarded (jsonSettled id r t w).
Proof.
  intros Hg. unfold jsonSettled.
  destruct (findPending id w) as [q|] eqn:Hfind; [|exact Hg].
  destruct Hg as [Ht Hstate].
  destruct Hstate as [[Hi _]|(p & Hp & Hl & Harm)].
  { unfold findPending in Hfind. rewrite Hi in Hfind. discriminate. }
  destruct (findPending_solo id w p q Hp Hfind) as [-> Hid].
  destruct (phase p) eqn:Hph; [split; [exact Ht|right; eauto]|].
  destruct r as [e|response].
  - apply g_finallySend; [now apply to_catchSend|]. now rewrite catchSend_inflight.
  - apply g_finallySend; [now apply to_completeSend|]. now rewrite completeSend_inflight.
Qed.

(** Clearing a timer that is not the abort timer of the suspended send. *)
Lemma g_clearTimeout id w :
  (∀ p, p ∈ inflight w → phase p = AwaitFetch → pid p ≠ id) →
  guarded w → guarded (clearTimeout id w).
Proof.
  intros Hne [Ht Hstate]. split; [now apply to_clearTimeout|].
  destruct Hstate as [Hidle|(p & Hp & Hl & Harm)]; [left; exact Hidle|].
  right. exists p. split; [exact Hp|]. split; [exact Hl|].
  apply armed_clearTimeout; [|exact Harm].
  apply Hne. simpl. rewrite Hp. apply list_elem_of_here.
Qed.

Lemma found_timer (id : nat) (w : World) (tm : Timer) :
  List.find (λ tm, (tid tm =? id)%nat) (timers w) = Some tm → tm ∈ timers w ∧ tid tm = id.
Proof.
  intros Hfind. apply find_some in Hfind as [Hin Heq].
  split; [now apply list_elem_of_In|now apply Nat.eqb_eq].
Qed.

Lemma g_fireTimer id t w : guarded w → guarded (fireTimer id t w).
Proof.
  intros Hg. unfold fireTimer.
  destruct (List.find _ (timers w)) as [tm|] eqn:Hfind; [|exact Hg].
  apply found_timer in Hfind as [Hin Htid]. cbv zeta.
  pose proof Hg as [(Hf & Hn & Hs) Hstate].
  assert (Hother : (∀ c, action tm ≠ Abort c) →
                   ∀ p, p ∈ inflight w → phase p = AwaitFetch → pid p ≠ id).
  { intros Hact p Hp Hph Heq.
    destruct Hstate as [[Hi _]|(p' & Hp' & _ & [_ Harm])]; [rewrite Hi in Hp; inversion Hp|].
    rewrite Hp' in Hp. apply list_elem_of_singleton in Hp. subst p'.
    rewrite Hph in Harm.
    assert (Heqtm : tm = abortTimer p).
    { apply (same_tid (timers w)); auto. simpl. congruence. }
    apply (Hact (pid p)). now rewrite Heqtm. }
  destruct (action tm) as [|controller|] eqn:Hact.
  - apply g_clearTimeout; [apply Hother; discriminate|exact Hg].
  - rewrite Forall_forall in Hs. pose proof (Hs tm Hin controller Hact) as Hshape.
    assert (Hc : controller = id) by (rewrite Hshape in Htid; exact Htid). subst controller.
    unfold abort.
    destruct (findPending id (clearTimeout id w)) as [q|] eqn:Hfp.
    + destruct Hstate as [[Hi _]|(p & Hp & Hl & Harm)].
      { unfold findPending in Hfp. simpl in Hfp. rewrite Hi in Hfp. discriminate. }
      destruct (findPending_solo id (clearTimeout id w) p q Hp Hfp) as [-> Hid].
      assert (Hto : timers_ok (clearTimeout id w)) by (apply to_clearTimeout; exact (proj1 Hg)).
      destruct (phase p) eqn:Hph.
      * unfold fetchSettled. rewrite Hfp, Hph.
        apply g_finallySend; [now apply to_catchSend|]. now rewrite catchSend_inflight.
      * unfold jsonSettled. rewrite Hfp, Hph.
        apply g_finallySend; [now apply to_catchSend|]. now rewrite catchSend_inflight.
    + apply g_clearTimeout; [|exact Hg].
      intros p Hp Hph Heq.
      destruct Hstate as [[Hi _]|(p' & Hp' & _)]; [rewrite Hi in Hp; inversion Hp|].
      rewrite Hp' in Hp. apply list_elem_of_singleton in Hp. subst p'.
      unfold findPending in Hfp. simpl in Hfp. rewrite Hp' in Hfp. simpl in Hfp.
      rewrite Heq, Nat.eqb_refl in Hfp. discriminate.
  - apply g_reload.
Qed.

Lemma g_step_event w e : guarded w → guarded (step w e).
Proof.
  intros Hw. destruct e; simpl.
  - repeat g_step.
  - repeat g_step.
  - repeat g_step.
  - unfold selectConversation. repeat g_step.
  - unfold loadSessionsAndConversations, selectConversation. cbv zeta.
    repeat case_match; repeat g_step.
  - unfold loadUserStats, userStatsSettled, requestUserStats.
    repeat case_match; repeat g_step.
  - unfold userStatsSettled. repeat case_match; repeat g_step.
  - unfold createNewConversation. cbv zeta. repeat case_match; repeat g_step.
  - unfold deleteConversation. cbv zeta. repeat case_match; repeat g_step.
  - now apply g_sendMessage.
  - now apply g_fetchSettled.
  - now apply g_jsonSettled.
  - now apply g_fireTimer.
  - unfold fetchUserInfo. cbv zeta. repeat case_match; repeat g_step.
  - unfold logout. repeat g_step.
Qed.

Lemma g_reachable u tok events : guarded (reachable u tok events).
Proof.
  unfold reachable, run.
  assert (H0 : guarded (initial_world u tok)).
  { apply g_idle; [|reflexivity|reflexivity].
    split; [|split]; simpl; constructor. }
  revert H0. generalize (initial_world u tok).
  induction events as [|e events IH]; intros w Hw; [exact Hw|].
  simpl. apply IH, g_step_event, Hw.
Qed.

Lemma g_run events w : guarded w → guarded (run w events).
Proof.
  revert w; induction events as [|e events IH]; intros w Hw; [exact Hw|].
  simpl. apply IH, g_step_event, Hw.
Qed.

(** The pending timer found under the id of a pending timer is that timer. *)
Lemma find_pending_timer (w : World) (tm : Timer) :
  NoDup (map tid (timers w)) → tm ∈ timers w →
  List.find (λ x, (tid x =? tid tm)%nat) (timers w) = Some tm.
Proof.
  intros Hn Htm.
  destruct (List.find _ (timers w)) as [tm'|] eqn:Hfind.
  - apply found_timer in Hfind as [Htm' Htid]. f_equal.
    apply (same_tid (timers w)); auto.
  - exfalso. apply list_elem_of_In in Htm.
    pose proof (find_none _ _ Hfind _ Htm) as Hno. simpl in Hno.
    rewrite Nat.eqb_refl in Hno. discriminate.
Qed.

(** The one suspended send of a guarded world. *)
Lemma guarded_pending (w : World) (id : nat) (q : PendingSend) :
  guarded w → findPending id w = Some q →
  inflight w = [q] ∧ pid q = id ∧ Page.loading (page w) = true.
Proof.
  intros [_ Hstate] Hfind.
  destruct Hstate as [[Hi _]|(p & Hp & Hl & _)].
  - unfold findPending in Hfind. rewrite Hi in Hfind. discriminate.
  - destruct (findPending_solo id w p q Hp Hfind) as [-> Hid]. auto.
Qed.

(** A send that awaits its response: its abort timer is pending, and its
    firing ends the send with the timed-out message. *)
Lemma awaiting_response (w : World) (p : PendingSend) (te : Tick) :
  guarded w → inflight w = [p] → phase p = AwaitFetch →
  abortTimer p ∈ timers w
  ∧ Page.messages (page (fireTimer (pid p) te w))
    = updatedMessages p ++ [errorMessage te "Request timed out. Please try again."]
  ∧ Page.loading (page (fireTimer (pid p) te w)) = false
  ∧ inflight (fireTimer (pid p) te w) = [].
Proof.
  intros [(Hf & Hn & Hs) Hstate] Hp Hph.
  destruct Hstate as [[Hi _]|(p' & Hp' & Hl & [Hlt Harm])]; [congruence|].
  assert (p' = p) by congruence. subst p'.
  rewrite Hph in Harm. split; [exact Harm|].
  pose proof (find_pending_timer w (abortTimer p) Hn Harm) as Hfind.
  assert (Hfire : fireTimer (pid p) te w
                  = fetchSettled (pid p) (FetchRejected Js.AbortError) te
                      (clearTimeout (pid p) w)).
  { unfold fireTimer. change (tid (abortTimer p)) with (pid p) in Hfind.
    rewrite Hfind. simpl. unfold abort, findPending. simpl.
    rewrite Hp. simpl. rewrite Nat.eqb_refl, Hph. reflexivity. }
  rewrite Hfire.
  destruct (fetchSettled_failed (clearTimeout (pid p) w) p (FetchRejected Js.AbortError) te
              Hp Hph I) as (Hm & Hl' & Hi' & _).
  auto.
Qed.

(** A send that reads the body of its response: no pending timer carries
    its id; a pending timer that is not a purge timer fires without touching
    the send or the page; a purge timer removes the token and reloads. *)
Lemma reading_the_body (w : World) (p : PendingSend) (tm : Timer) (te : Tick) :
  guarded w → inflight w = [p] → phase p = AwaitJson → tm ∈ timers w →
  tid tm ≠ pid p
  ∧ (action tm ≠ PurgeAndReload →
     inflight (fireTimer (tid tm) te w) = [p] ∧ page (fireTimer (tid tm) te w) = page w)
  ∧ (action tm = PurgeAndReload →
     fireTimer (tid tm) te w = reload (removeToken (clearTimeout (tid tm) w))).
Proof.
  intros [(Hf & Hn & Hs) Hstate] Hp Hph Htm.
  destruct Hstate as [[Hi _]|(p' & Hp' & Hl & [Hlt Harm])]; [congruence|].
  assert (p' = p) by congruence. subst p'.
  rewrite Hph in Harm. split; [exact (Harm tm Htm)|].
  unfold fireTimer. rewrite (find_pending_timer w tm Hn Htm). cbv zeta.
  destruct (action tm) as [|controller|] eqn:Hact.
  - split; [intros _; simpl; auto|discriminate].
  - split; [intros _|discriminate].
    rewrite Forall_forall in Hs. pose proof (Hs tm Htm controller Hact) as Hshape.
    assert (Hc : controller = tid tm) by (rewrite Hshape; reflexivity).
    unfold abort, findPending. simpl. rewrite Hp. simpl.
    destruct (Nat.eqb_spec (pid p) controller) as [Heq|Hne]; [|simpl; auto].
    destruct (Harm tm Htm). congruence.
  - split; [congruence|reflexivity].
Qed.

Lemma foldl_issue_inflight {B : Type} (f : B → Request) (l : list B) (w : World) :
  inflight (foldl (λ acc x, issue (f x) acc) w l) = inflight w.
Proof. revert w; induction l as [|x l IH]; intros w; simpl; [reflexivity|]. now rewrite IH. Qed.

(** What can end a send that reads the body of its response: the end of
    that read, or a reload of the page. *)
Lemma body_read_step (w : World) (q : PendingSend) (e : Event) :
  guarded w → inflight w = [q] → phase q = AwaitJson →
  inflight (step w e) = [q]
  ∨ (∃ r t, e = EvJsonSettled (pid q) r t)
  ∨ reloads (step w e) = S (reloads w).
Proof.
  intros Hg Hq Hph.
  assert (Hl : Page.loading (page w) = true).
  { destruct Hg as [_ [[Hi _]|(p & _ & Hl & _)]]; [congruence|exact Hl]. }
  destruct e; simpl.
  - left; exact Hq.
  - left; exact Hq.
  - left; exact Hq.
  - left; exact Hq.
  - unfold loadSessionsAndConversations, selectConversation. cbv zeta.
    destruct r as [err|status body]; [left; exact Hq|].
    destruct (Js.ok status); simpl.
    + destruct body as [loaded|]; [|left; exact Hq].
      left. repeat case_match; simpl; rewrite foldl_issue_inflight; exact Hq.
    + destruct (status =? 401); [right; right; reflexivity|left; exact Hq].
  - left. unfold loadUserStats, userStatsSettled, requestUserStats.
    repeat case_match; exact Hq.
  - left. unfold userStatsSettled. repeat case_match; exact Hq.
  - left. unfold createNewConversation. cbv zeta. repeat case_match; exact Hq.
  - left. unfold deleteConversation. cbv zeta. repeat case_match; exact Hq.
  - left. unfold sendMessage, send_blocked. rewrite Hl, orb_true_r. exact Hq.
  - left. unfold fetchSettled, findPending. rewrite Hq. simpl.
    destruct (pid q =? id)%nat; [rewrite Hph|]; exact Hq.
  - unfold jsonSettled, findPending. rewrite Hq. simpl.
    destruct (Nat.eqb_spec (pid q) id) as [<-|Hne]; [right; left; eauto|left; exact Hq].
  - destruct (List.find (λ tm, (tid tm =? id)%nat) (timers w)) as [tm|] eqn:Hfind.
    + apply found_timer in Hfind as [Htm <-].
      destruct (reading_the_body w q tm t Hg Hq Hph Htm) as (_ & Hkeep & Hpurge).
      destruct (action tm) as [|controller|] eqn:Hact.
      * left. apply Hkeep. discriminate.
      * left. apply Hkeep. discriminate.
      * right; right. rewrite (Hpurge eq_refl). reflexivity.
    + left. unfold fireTimer. rewrite Hfind. exact Hq.
  - left. unfold fetchUserInfo. cbv zeta. repeat case_match; exact Hq.
  - left; exact Hq.
Qed.

(** C5, amended.  A send sets one timer of 60000 ms whose callback aborts
    its request, and issues one POST to /api/chat/message.  As long as the
    send awaits its response, whatever else happens on the page, that timer
    is pending, so that the world is bounded by the timeout; when it fires,
    the send ends with the synthetic assistant message "Request timed out.
    Please try again." after the user message, the loading flag down and
    nothing suspended.  An OK response clears the timer before the body is
    read: the send stays suspended with the loading flag up, and from then on,
    whatever else happens, no pending timer carries its id; a timer that
    fires leaves it suspended, unless it is the purge timer of an earlier
    send, which removes the token and reloads the page.  Nothing but the end
    of the body read or a reload of the page ends such a send.  No event
    other than a call of sendMessage adds a POST to /api/chat/message: no
    error branch and no timer retries. *)
Theorem send_timeout (u : option User) (tok : option string) (events : list Event)
    (t : Tick) :
  let w0 := reachable u tok events in
  let w1 := sendMessage t w0 in
  let prior := Page.messages (page w0) in
  let sent := userMessage t (Page.inputMessage (page w0)) in
  send_blocked w0 = false →
  timers w1
  = timers w0 ++ [ {| tid := next_timer w0; delay := 0; action := FocusInput |};
                   {| tid := timeoutId_of w0; delay := 60000;
                      action := Abort (timeoutId_of w0) |} ]
  ∧ length (chat_posts w1) = S (length (chat_posts w0))
  ∧ (∃ p, inflight w1 = [p] ∧ pid p = timeoutId_of w0 ∧ phase p = AwaitFetch)
  ∧ (∀ events' q te,
       findPending (timeoutId_of w0) (run w1 events') = Some q → phase q = AwaitFetch →
       {| tid := timeoutId_of w0; delay := 60000; action := Abort (timeoutId_of w0) |}
         ∈ timers (run w1 events')
       ∧ bounded_by_timeout (run w1 events')
       ∧ Page.messages (page (fireTimer (timeoutId_of w0) te (run w1 events')))
         = prior ++ [sent; errorMessage te "Request timed out. Please try again."]
       ∧ Message.role (errorMessage te "Request timed out. Please try again.")
         = assistant_role
       ∧ Page.loading (page (fireTimer (timeoutId_of w0) te (run w1 events'))) = false
       ∧ inflight (fireTimer (timeoutId_of w0) te (run w1 events')) = [])
  ∧ (∀ status te,
       Js.ok status = true →
       (∃ q, inflight (fetchSettled (timeoutId_of w0) (FetchResolved status) te w1) = [q]
             ∧ pid q = timeoutId_of w0 ∧ phase q = AwaitJson)
       ∧ Page.loading (page (fetchSettled (timeoutId_of w0) (FetchResolved status) te w1))
         = true)
  ∧ (∀ events' q tm te,
       findPending (timeoutId_of w0) (run w1 events') = Some q → phase q = AwaitJson →
       tm ∈ timers (run w1 events') →
       tid tm ≠ timeoutId_of w0
       ∧ (action tm ≠ PurgeAndReload →
          inflight (fireTimer (tid tm) te (run w1 events')) = [q]
          ∧ Page.loading (page (fireTimer (tid tm) te (run w1 events'))) = true)
       ∧ (action tm = PurgeAndReload →
          inflight (fireTimer (tid tm) te (run w1 events')) = []
          ∧ token (fireTimer (tid tm) te (run w1 events')) = None
          ∧ reloads (fireTimer (tid tm) te (run w1 events'))
            = S (reloads (run w1 events'))))
  ∧ (∀ events' q e,
       findPending (timeoutId_of w0) (run w1 events') = Some q → phase q = AwaitJson →
       inflight (step (run w1 events') e) = [q]
       ∨ (∃ r t', e = EvJsonSettled (timeoutId_of w0) r t')
       ∨ reloads (step (run w1 events') e) = S (reloads (run w1 events')))
  ∧ (∀ w e, (∀ t', e ≠ EvSend t') → chat_posts (step w e) = chat_posts w).
Proof.
  intros w0 w1 prior sent Hb.
  pose proof (wf_reachable u tok events) as Hwf. fold w0 in Hwf.
  destruct (sendMessage_unblocked t w0 Hwf Hb)
    as (session & u' & Hs & Hu & Hpage & Hin & Htm & Hnt & Hreq & Htok & Husr & Hrl).
  fold w1 in Hpage, Hin, Htm, Hnt, Hreq, Htok, Husr, Hrl.
  set (p := {| pid := S (next_timer w0); phase := AwaitFetch;
               updatedMessages := prior ++ [sent];
               sentInput := Page.inputMessage (page w0);
               sentConversation := Page.currentConversation (page w0);
               sentConversations := Page.conversations (page w0) |}) in *.
  change (timeoutId_of w0) with (pid p).
  assert (Hg1 : guarded w1) by (apply g_sendMessage, g_reachable).
  assert (HK : keeps_closure (pid p) (updatedMessages p) w1).
  { split; [rewrite Hnt; simpl; lia|]. rewrite Hin. constructor; [auto|constructor]. }
  split; [exact Htm|].
  split.
  { unfold chat_posts. rewrite Hreq, filter_app, filter_cons_True by (split; reflexivity).
    rewrite length_app. simpl. lia. }
  split; [exists p; auto|].
  split.
  { intros events' q te Hfind Hph.
    pose proof (g_run events' w1 Hg1) as Hg.
    destruct (guarded_pending _ _ _ Hg Hfind) as (Hq & Hid & Hl).
    pose proof (kc_run _ _ events' w1 HK) as [_ Hall].
    rewrite Hq in Hall. apply Forall_inv in Hall. pose proof (Hall Hid) as Hupd.
    destruct (awaiting_response _ q te Hg Hq Hph) as (Harm & Hm & Hl' & Hi).
    rewrite Hid in Hm, Hl', Hi.
    split; [rewrite <- Hid; exact Harm|].
    split.
    { intros q' Hq'. rewrite Hq in Hq'. apply list_elem_of_singleton in Hq'. subst q'.
      exists (abortTimer q). split; [exact Harm|]. intros t'.
      destruct (awaiting_response _ q t' Hg Hq Hph) as (_ & _ & _ & Hi').
      change (tid (abortTimer q)) with (pid q). rewrite Hi'. apply not_elem_of_nil. }
    split; [rewrite Hm, Hupd; simpl; now rewrite <- app_assoc|].
    split; [reflexivity|]. split; [exact Hl'|exact Hi]. }
  split.
  { intros status te Hok.
    destruct (fetchSettled_ok w1 p status te Hin eq_refl Hok) as (Hi' & Hl' & _).
    split; [|rewrite Hl', Hpage; reflexivity].
    exists (set_phase AwaitJson p). auto. }
  split.
  { intros events' q tm te Hfind Hph Htm'.
    pose proof (g_run events' w1 Hg1) as Hg.
    destruct (guarded_pending _ _ _ Hg Hfind) as (Hq & Hid & Hl).
    destruct (reading_the_body _ q tm te Hg Hq Hph Htm') as (Hne & Hkeep & Hpurge).
    split; [congruence|]. split.
    - intros Hact. destruct (Hkeep Hact) as [Hi' Hp']. rewrite Hi', Hp'. auto.
    - intros Hact. rewrite (Hpurge Hact). simpl. auto. }
  split.
  { intros events' q e Hfind Hph.
    pose proof (g_run events' w1 Hg1) as Hg.
    destruct (guarded_pending _ _ _ Hg Hfind) as (Hq & Hid & Hl).
    rewrite <- Hid. exact (body_read_step _ q e Hg Hq Hph). }
  apply posts_step.
Qed.

Lemma send_timeout_witness :
  send_blocked (reachable (Some alice) (Some "tok"%string) ready_events) = false
  ∧ Page.messages
      (page (fireTimer 2 tick2
               (sendMessage tick1 (reachable (Some alice) (Some "tok"%string) ready_events))))
    = [ Message.mk "1714557600000" user_role "Hello" "2024-05-01T10:00:00.000Z";
        Message.mk "1714557601501" assistant_role
          "Request timed out. Please try again." "2024-05-01T10:00:01.500Z" ]
  ∧ length (chat_posts
              (sendMessage tick1 (reachable (Some alice) (Some "tok"%string) ready_events)))
    = 1%nat.
Proof.
  split; [reflexivity|].
  pose proof (send_timeout (Some alice) (Some "tok"%string) ready_events tick1 eq_refl) as H.
  cbv zeta in H. destruct H as (_ & Hp & _ & Hfire & _).
  destruct (Hfire [] _ tick2 eq_refl eq_refl) as (_ & _ & Hm & _).
  split; [exact Hm | exact Hp].
Defined.

(** C5 as stated fails: once the response to alice's send has arrived with
    status 200 the timeout is cleared, and while the body is read the send is
    suspended, the loading flag is up and no timer at all is pending: nothing
    bounds the send. *)
Lemma body_read_unbounded :
  ¬ bounded_by_timeout reading_body.
Proof.
  intros Hb.
  destruct (Hb {| pid := 2%nat; phase := AwaitJson;
                  updatedMessages := [userMessage tick1 "Hello"]; sentInput := "Hello";
                  sentConversation := Some (Conversation.mk "B" "New Chat" [] 1000 "B");
                  sentConversations := [Conversation.mk "B" "New Chat" [] 1000 "B"] |})
    as (tm & Htm & _).
  { apply list_elem_of_here. }
  change (timers reading_body) with (@nil Timer) in Htm.
  inversion Htm.
Qed.

(** X17.  In every reachable world the loading flag tells whether a send is
    suspended: it is up exactly when one send is suspended and down exactly
    when none is; so the placeholder reads "AI is thinking..." exactly while
    a send is suspended, and the textarea is disabled all that time. *)
Theorem loading_iff_suspended (u : option User) (tok : option string) (events : list Event) :
  (Page.loading (page (reachable u tok events)) = true
   ↔ ∃ p, inflight (reachable u tok events) = [p])
  ∧ (Page.loading (page (reachable u tok events)) = false
     ↔ inflight (reachable u tok events) = [])
  ∧ (placeholder (reachable u tok events) = "AI is thinking..."%string
     ↔ inflight (reachable u tok events) ≠ [])
  ∧ (inflight (reachable u tok events) ≠ [] →
     textareaDisabled (reachable u tok events) = true).
Proof.
  destruct (g_reachable u tok events) as [_ Hstate].
  set (w := reachable u tok events) in *.
  assert (Hph : placeholder w = "AI is thinking..."%string ↔ Page.loading (page w) = true).
  { unfold placeholder. destruct (Page.loading (page w)); [tauto|].
    repeat case_match; split; discriminate. }
  destruct Hstate as [[Hi Hl]|(p & Hp & Hl & _)].
  - rewrite Hi, Hl in *. split; [split; [discriminate|intros [p [=]]]|].
    split; [tauto|]. split; [|congruence].
    rewrite Hph. split; [discriminate|congruence].
  - rewrite Hp, Hl in *. split; [split; eauto|].
    split; [split; discriminate|]. split.
    + rewrite Hph. split; [discriminate|reflexivity].
    + intros _. unfold textareaDisabled. now rewrite Hl.
Qed.

Lemma loading_iff_suspended_witness :
  Page.loading
    (page (reachable (Some alice) (Some "tok"%string) (ready_events ++ [EvSend tick1])))
  = true.
Proof.
  destruct (loading_iff_suspended (Some alice) (Some "tok"%string)
              (ready_events ++ [EvSend tick1])) as (Hl & _).
  apply Hl. eexists. reflexivity.
Defined.

(** X18.  In every reachable world the timers and the suspended send fit
    together.  A pending timer that aborts a controller is the 60000 ms timer
    carrying that controller's id.  A send that awaits its response has its
    abort timer pending, and the firing of that timer ends the send with the
    timed-out message and the loading flag down.  A send that reads the body
    of its response has no timer left: a pending timer other than a purge
    timer fires without touching the send or the page, and a pending purge
    timer removes the token and reloads the page, which discards the send
    together with the state of the page and its timers. *)
Theorem timeout_covers_the_fetch (u : option User) (tok : option string)
    (events : list Event) (p : PendingSend) (tm : Timer) (te : Tick) :
  p ∈ inflight (reachable u tok events) →
  tm ∈ timers (reachable u tok events) →
  (∀ c, action tm = Abort c → tm = {| tid := c; delay := 60000; action := Abort c |})
  ∧ (phase p = AwaitFetch →
     abortTimer p ∈ timers (reachable u tok events)
     ∧ Page.messages (page (fireTimer (pid p) te (reachable u tok events)))
       = updatedMessages p ++ [errorMessage te "Request timed out. Please try again."]
     ∧ Page.loading (page (fireTimer (pid p) te (reachable u tok events))) = false
     ∧ inflight (fireTimer (pid p) te (reachable u tok events)) = [])
  ∧ (phase p = AwaitJson →
     tid tm ≠ pid p
     ∧ (action tm ≠ PurgeAndReload →
        inflight (fireTimer (tid tm) te (reachable u tok events)) = [p]
        ∧ page (fireTimer (tid tm) te (reachable u tok events))
          = page (reachable u tok events))
     ∧ (action tm = PurgeAndReload →
        inflight (fireTimer (tid tm) te (reachable u tok events)) = []
        ∧ page (fireTimer (tid tm) te (reachable u tok events)) = Page.initial
        ∧ timers (fireTimer (tid tm) te (reachable u tok events)) = []
        ∧ token (fireTimer (tid tm) te (reachable u tok events)) = None
        ∧ reloads (fireTimer (tid tm) te (reachable u tok events))
          = S (reloads (reachable u tok events)))).
Proof.
  intros Hin Htm. pose proof (g_reachable u tok events) as Hg.
  set (w := reachable u tok events) in *.
  assert (Hp : inflight w = [p]).
  { destruct Hg as [_ [[Hi _]|(p' & Hp & _)]]; [rewrite Hi in Hin; inversion Hin|].
    rewrite Hp in Hin. apply list_elem_of_singleton in Hin. now subst p'. }
  split; [|split].
  - destruct Hg as [(_ & _ & Hs) _]. rewrite Forall_forall in Hs. exact (Hs tm Htm).
  - intros Hph. exact (awaiting_response w p te Hg Hp Hph).
  - intros Hph.
    destruct (reading_the_body w p tm te Hg Hp Hph Htm) as (Hne & Hkeep & Hpurge).
    split; [exact Hne|]. split; [exact Hkeep|].
    intros Hact. rewrite (Hpurge Hact). simpl. auto.
Qed.

(** alice's second send is reading the body of its response when the purge
    timer of her first send fires: the send is gone with the page. *)
Lemma timeout_covers_the_fetch_witness :
  inflight (fireTimer 3 tick3 (reachable (Some alice) (Some "tok"%string) expired_then_resent))
  = []
  ∧ page (fireTimer 3 tick3 (reachable (Some alice) (Some "tok"%string) expired_then_resent))
    = Page.initial.
Proof.
  set (p := {| pid := 6%nat; phase := AwaitJson;
               updatedMessages :=
                 [ userMessage tick1 "Hello";
                   errorMessage tick2
                     "Your session has expired. Please refresh the page and log in again.";
                   userMessage tick3 "Hello again" ];
               sentInput := "Hello again";
               sentConversation := Some (Conversation.mk "B" "New Chat" [] 1000 "B");
               sentConversations := [Conversation.mk "B" "New Chat" [] 1000 "B"] |}).
  set (tm := {| tid := 3%nat; delay := 3000; action := PurgeAndReload |}).
  assert (Hin : p ∈ inflight (reachable (Some alice) (Some "tok"%string) expired_then_resent))
    by (vm_compute; apply list_elem_of_here).
  assert (Htm : tm ∈ timers (reachable (Some alice) (Some "tok"%string) expired_then_resent)).
  { vm_compute. do 2 apply list_elem_of_further. apply list_elem_of_here. }
  destruct (timeout_covers_the_fetch (Some alice) (Some "tok"%string) expired_then_resent
              p tm tick3 Hin Htm) as (_ & _ & Hbody).
  destruct (Hbody eq_refl) as (_ & _ & Hpurge).
  destruct (Hpurge eq_refl) as (Hi & Hpg & _).
  split; [exact Hi|exact Hpg].
Defined.

(** ** The further properties at sample inputs *)

(** The login is accepted and the identity lookup is answered 200 with the
    body null: [login] resolves, the token stays stored and nobody is
    authenticated.  A login answered 200 with the body null throws. *)
Lemma login_outcome_witness :
  snd (AuthContext.login v8
         (AuthContext.Answered 200
            (AuthContext.Parsed
               (AuthContext.Object [("access_token"%string, AuthContext.Str "jwt")])))
         (AuthContext.Answered 200 (AuthContext.Parsed AuthContext.Null))
         (AuthContext.initial None))
  = None
  ∧ AuthContext.user
      (fst (AuthContext.login v8
              (AuthContext.Answered 200
                 (AuthContext.Parsed
                    (AuthContext.Object [("access_token"%string, AuthContext.Str "jwt")])))
              (AuthContext.Answered 200 (AuthContext.Parsed AuthContext.Null))
              (AuthContext.initial None)))
    = AuthContext.Null
  ∧ AuthContext.token
      (fst (AuthContext.login v8
              (AuthContext.Answered 200
                 (AuthContext.Parsed
                    (AuthContext.Object [("access_token"%string, AuthContext.Str "jwt")])))
              (AuthContext.Answered 200 (AuthContext.Parsed AuthContext.Null))
              (AuthContext.initial None)))
    = Some "jwt"%string
  ∧ ∃ m, snd (AuthContext.login v8
                (AuthContext.Answered 200 (AuthContext.Parsed AuthContext.Null))
                (AuthContext.Failed "Failed to fetch") (AuthContext.initial None))
         = Some m.
Proof.
  split; [reflexivity|].
  pose proof (login_outcome v8
                (AuthContext.Answered 200
                   (AuthContext.Parsed
                      (AuthContext.Object [("access_token"%string, AuthContext.Str "jwt")])))
                (AuthContext.Answered 200 (AuthContext.Parsed AuthContext.Null))
                (AuthContext.initial None)) as H.
  cbv zeta in H. destruct H as (_ & _ & _ & H).
  destruct (H eq_refl) as (_ & _ & _ & Hme).
  destruct (Hme 200 AuthContext.Null eq_refl eq_refl)
    as (Hu & st & data & access_token & stored & Hr & Hget & Hstr & Htok).
  injection Hr as _ <-. injection Hget as <-. injection Hstr as <-.
  split; [exact Hu|]. split; [exact Htok|].
  pose proof (login_outcome v8
                (AuthContext.Answered 200 (AuthContext.Parsed AuthContext.Null))
                (AuthContext.Failed "Failed to fetch") (AuthContext.initial None)) as H'.
  cbv zeta in H'. destruct H' as (_ & Hnull & _).
  exact (Hnull 200 eq_refl).
Defined.

(** A registration answered 200 with a token and the user null stores the
    token and authenticates nobody. *)
Lemma register_outcome_witness :
  AuthContext.token
    (fst (AuthContext.register v8
            (AuthContext.Answered 200
               (AuthContext.Parsed
                  (AuthContext.Object
                     [ ("access_token"%string, AuthContext.Str "jwt");
                       ("user"%string, AuthContext.Null) ])))
            (AuthContext.initial None)))
  = Some "jwt"%string
  ∧ AuthContext.isAuthenticated
      (fst (AuthContext.register v8
              (AuthContext.Answered 200
                 (AuthContext.Parsed
                    (AuthContext.Object
                       [ ("access_token"%string, AuthContext.Str "jwt");
                         ("user"%string, AuthContext.Null) ])))
              (AuthContext.initial None)))
    = false.
Proof.
  pose proof (register_outcome v8
                (AuthContext.Answered 200
                   (AuthContext.Parsed
                      (AuthContext.Object
                         [ ("access_token"%string, AuthContext.Str "jwt");
                           ("user"%string, AuthContext.Null) ])))
                (AuthContext.initial None)) as H.
  cbv zeta in H. destruct H as (_ & _ & _ & _ & H).
  destruct (H 200 _ (AuthContext.Str "jwt") "jwt"%string eq_refl eq_refl eq_refl eq_refl)
    as (Htok & u & Hget & _ & Hauth).
  injection Hget as <-.
  split; [exact Htok|exact Hauth].
Defined.

(** A stored token and an identity lookup answered 200 with the body null:
    after the mount effect the token is still stored and nobody is
    authenticated. *)
Lemma mount_outcome_witness :
  AuthContext.isAuthenticated
    (AuthContext.mount (AuthContext.Answered 200 (AuthContext.Parsed AuthContext.Null))
       (AuthContext.initial (Some "jwt"%string)))
  = false
  ∧ AuthContext.token
      (AuthContext.mount (AuthContext.Answered 200 (AuthContext.Parsed AuthContext.Null))
         (AuthContext.initial (Some "jwt"%string)))
    = Some "jwt"%string.
Proof.
  destruct (mount_outcome (AuthContext.Answered 200 (AuthContext.Parsed AuthContext.Null))
              (AuthContext.initial (Some "jwt"%string))) as (_ & _ & _ & H).
  apply (H "jwt"%string 200); [reflexivity|discriminate|reflexivity|reflexivity].
Defined.

Lemma routes_settle_witness :
  App.render 2 false App.RootPath = Some (App.LoginPath, App.LoginPage).
Proof. exact (proj1 (routes_settle false App.RootPath (AuthContext.initial None))). Defined.

Lemma successful_send_witness :
  Page.messages
    (page (jsonSettled 2 (JsonValue "Hi there") tick3
             (fetchSettled 2 (FetchResolved 200) tick2
                (sendMessage tick1
                   (reachable (Some alice) (Some "tok"%string) ready_events)))))
  = [ Message.mk "1714557600000" user_role "Hello" "2024-05-01T10:00:00.000Z";
      Message.mk "1714557604501" assistant_role "Hi there" "2024-05-01T10:00:04.500Z" ].
Proof.
  pose proof (successful_send (Some alice) (Some "tok"%string) ready_events tick1 tick2 tick3
                200 "Hi there" eq_refl eq_refl) as H.
  cbv zeta in H. destruct H as (Hm & _). exact Hm.
Defined.

Lemma first_exchange_matches_reload_witness :
  ∃ c, Page.currentConversation
         (page (jsonSettled 2 (JsonValue "Hi, how can I help?") tick3
                  (fetchSettled 2 (FetchResolved 200) tick2
                     (sendMessage tick1
                        (reachable (Some alice) (Some "tok"%string) ready_events)))))
       = Some c
       ∧ Conversation.title c = "Hello..."%string.
Proof.
  pose proof (first_exchange_matches_reload (Some alice) (Some "tok"%string) ready_events
                tick1 tick2 tick3 200 "Hi, how can I help?"
                (Conversation.mk "B" "New Chat" [] 1000 "B") session_B hello_turn
                eq_refl eq_refl eq_refl eq_refl eq_refl eq_refl) as H.
  cbv zeta in H. destruct H as (c & Hc & Ht & _).
  exists c. split; [exact Hc|exact Ht].
Defined.

Lemma auto_select_first_witness :
  Page.currentConversation
    (page (loadSessionsAndConversations Page.initial (Responded 200 (Some sessions_AB))
             (initial_world (Some alice) (Some "tok"%string))))
  = Some (conversationOf session_B (Some [hello_turn])).
Proof.
  destruct (auto_select_first Page.initial 200 sessions_AB
              (initial_world (Some alice) (Some "tok"%string))
              (conversationOf session_B (Some [hello_turn]))
              [conversationOf session_A (Some [])] eq_refl eq_refl eq_refl)
    as (_ & _ & Hc & _).
  exact Hc.
Defined.

Lemma first_load_needs_a_selection_witness :
  send_blocked
    (loadSessionsAndConversations Page.initial (Responded 200 (Some sessions_AB))
       (initial_world (Some alice) (Some "tok"%string)))
  = true.
Proof.
  pose proof (first_load_needs_a_selection Page.initial 200 sessions_AB
                (initial_world (Some alice) (Some "tok"%string))
                (conversationOf session_B (Some [hello_turn]))
                [conversationOf session_A (Some [])] eq_refl eq_refl eq_refl eq_refl) as H.
  cbv zeta in H. destruct H as (_ & _ & Hb & _). exact Hb.
Defined.

Lemma requests_carry_bearer_witness :
  ∃ new, requests (step (initial_world (Some alice) None)
                     (EvStats (Rejected Js.AbortError)))
         = requests (initial_world (Some alice) None) ++ new
         ∧ Forall (λ q, authorization q = None) new.
Proof.
  destruct (requests_carry_bearer (initial_world (Some alice) None)
              (EvStats (Rejected Js.AbortError))) as (new & Hreq & _ & Hnone & _).
  exists new. split; [exact Hreq|].
  apply Hnone; [discriminate|left; reflexivity].
Defined.
